(** * Wealth-app: the portfolio accounting engine, embedded in Rocq

    Shallow embedding of the accounting code of the spreadsheet-bound
    finance tracker:

    - [Sheets_Trading.js]: [processFifo], the live positions matcher, and
      [formatPortfolioOutput];
    - [Sheets_TaxOptimization.js]: [parseMyFloat],
      [TAX_HARVESTING_SCANNER] and [ESTIMATE_TAX_BILL];
    - [Sheets_Taxes & RealGains.js]: [cleanNumber], [normalizeData], the
      transaction phase and the totals of [calculatePortfolioStats],
      [calculateFiscalReportDetails], [calculateZainettoReport] and
      [PORTFOLIO_EVOLUZIONE].

    The definitions come first, module by module; the facts about them and
    the properties of the specification follow.

    Numbers.  A JavaScript number is modelled by an exact rational ([Q]):
    binary rounding, overflow and the IEEE special values are outside the
    model (the parser keeps NaN and Infinity as separate outcomes).  Strict
    equality [===] on numbers is [Qeq_bool]; theorems compare numbers with
    [==].  A number printed with [toFixed] is held as the number its text
    denotes.

    Maps.  A JavaScript [Map] is a [gmap]; an array stored in a map and
    mutated in place is written back with an insert.

    Strings.  Strings are byte strings holding UTF-8 text; [toUpperCase]
    maps the ASCII letters. *)

From Stdlib Require Import QArith Qround Qabs Lqa ZArith Lia List Bool.
From Stdlib Require Import String Ascii.
From stdpp Require Import gmap strings sorting.

(** ** Numbers *)

Module Num.

(** [x < y] on numbers. *)
Definition Qltb (x y : Q) : bool := negb (Qle_bool y x).

(** [Math.min(x, y)]. *)
Definition Qmin (x y : Q) : Q := if Qle_bool x y then x else y.

(** [10^p] as a positive number. *)
Fixpoint scale (p : nat) : positive :=
  match p with O => 1%positive | S k => (10 * scale k)%positive end.

(** [Number(x.toFixed(p))]: [x] rounded to [p] decimals; [toFixed] takes
    the nearest multiple of [10^-p] and, on a tie, the one of larger
    magnitude. *)
Definition toFixed (p : nat) (x : Q) : Q :=
  let n := Qfloor (Qabs x * inject_Z (Zpos (scale p)) + (1 # 2)) in
  Qred (Qmake (Z.sgn (Qnum x) * n) (scale p)).

(** A number that [toFixed p] leaves unchanged. *)
Definition atPrecision (p : nat) (x : Q) : Prop := toFixed p x == x.

End Num.
Import Num.

(** ** Dates and strings *)

(** A [Date] is a calendar date in the script's time zone; the time of day
    is not modelled. *)
Record Date := mkDate { dyear : Z; dmonth : Z; dday : Z }.

(** The numeric value of a date, as used by [a.date - b.date] and by the
    comparisons [<] and [<=] on dates. *)
Definition dateValue (d : Date) : Z :=
  ((dyear d * 12 + (dmonth d - 1)) * 31 + (dday d - 1))%Z.

Definition date_ltb (a b : Date) : bool := (dateValue a <? dateValue b)%Z.
Definition date_leb (a b : Date) : bool := (dateValue a <=? dateValue b)%Z.

(** [parseInt(Utilities.formatDate(d, tz, "yyyy"))]. *)
Definition yearOf (d : Date) : Z := dyear d.

Module Str.

Definition upper_ascii (c : ascii) : ascii :=
  let n := nat_of_ascii c in
  if (97 <=? n)%nat && (n <=? 122)%nat then ascii_of_nat (n - 32) else c.

Fixpoint toUpperCase (s : string) : string :=
  match s with
  | EmptyString => EmptyString
  | String c r => String (upper_ascii c) (toUpperCase r)
  end.

(** [s.startsWith(q)]. *)
Fixpoint startsWith (q s : string) : bool :=
  match q with
  | EmptyString => true
  | String a q' =>
      match s with
      | EmptyString => false
      | String b s' => Ascii.eqb a b && startsWith q' s'
      end
  end.

(** [s.includes(sub)]. *)
Definition includes (s sub : string) : bool :=
  match index 0 sub s with Some _ => true | None => false end.

End Str.
Import Str.

(** ** [Sheets_Trading.js]: the live positions matcher *)

Module Trading.
Local Open Scope Q_scope.

(** The object built by [createTradeObject]; it is also the lot stored in
    a ticker's queue. *)
Record TradeObj := mkTradeObj { shares : Q; price : Q; action : string }.

Definition createTradeObject (quantity price : Q) (action : string) : TradeObj :=
  {| shares := quantity; price := price; action := action |}.

Definition setShares (t : TradeObj) (s : Q) : TradeObj :=
  {| shares := s; price := price t; action := action t |}.

(** Row [i] of the five parallel columns handed to [processFifo]: the cells
    [security[i]], [actions[i]], [quantity[i]], [price[i]] and [dates[i]].
    The columns have one height; the security and action cells hold texts,
    the quantity and price cells numbers; an empty date cell is [None]. *)
Record Row := mkRow {
  r_security : string;
  r_action : string;
  r_quantity : Q;
  r_price : Q;
  r_date : option Date
}.

Definition CUTOFF_DATE : Date := mkDate 2026 1 30.

(** The test of the [BUY LOGIC] branch. *)
Definition isBuy (action : string) : bool :=
  String.eqb action "Buy" || String.eqb (toUpperCase action) "DRIP"
  || String.eqb (toUpperCase action) "REWARD".

(** The [while (sharesToSell > 0 && activeTrades.length > 0)] loop; it
    returns the queue and the value of [sharesToSell] at exit.  Every
    iteration either shifts the queue or sets [sharesToSell] to 0, so the
    recursion is on the queue. *)
Fixpoint sellLoop (precision : nat) (sharesToSell : Q) (activeTrades : list TradeObj)
  : list TradeObj * Q :=
  match activeTrades with
  | [] => ([], sharesToSell)
  | oldestTrade :: rest =>
      if Qltb 0 sharesToSell then
        let availableShares := toFixed precision (shares oldestTrade) in
        if Qle_bool availableShares sharesToSell then
          sellLoop precision (toFixed precision (sharesToSell - availableShares)) rest
        else
          (setShares oldestTrade (toFixed precision (availableShares - sharesToSell)) :: rest, 0)
      else (activeTrades, sharesToSell)
  end.

(** One iteration of the [for] loop of [processFifo]. *)
Definition processRow (precision : nat) (keepRows : bool)
    (portfolio : gmap string (list TradeObj)) (r : Row) : gmap string (list TradeObj) :=
  let ticker := r_security r in
  if String.eqb ticker "" then portfolio else
  let action := r_action r in
  let tradeDate := default (mkDate 1900 1 1) (r_date r) in
  let trade := createTradeObject (r_quantity r) (r_price r) action in
  let portfolio :=
    if isBuy action then
      match portfolio !! ticker with
      | None => <[ticker := [trade]]> portfolio
      | Some lots => <[ticker := lots ++ [trade]]> portfolio
      end
    else portfolio in
  if String.eqb action "Sell" then
    match portfolio !! ticker with
    | Some activeTrades =>
        let sharesToSell := toFixed precision (shares trade) in
        let activeTrades := fst (sellLoop precision sharesToSell activeTrades) in
        let portfolio := <[ticker := activeTrades]> portfolio in
        match activeTrades with
        | [] =>
            if keepRows then
              if date_ltb tradeDate CUTOFF_DATE then delete ticker portfolio else portfolio
            else delete ticker portfolio
        | _ :: _ => portfolio
        end
    | None => portfolio
    end
  else portfolio.

Definition processFifoFrom (precision : nat) (keepRows : bool)
    (portfolio : gmap string (list TradeObj)) (rows : list Row) : gmap string (list TradeObj) :=
  fold_left (processRow precision keepRows) rows portfolio.

Definition processFifo (rows : list Row) (precision : nat) (keepRows : bool)
  : gmap string (list TradeObj) :=
  processFifoFrom precision keepRows ∅ rows.

(** [myStockPositions] and [myCryptoPositions], before formatting. *)
Definition myStockPositions (rows : list Row) := processFifo rows 5 true.
Definition myCryptoPositions (rows : list Row) := processFifo rows 8 false.

(** The per-ticker total of [formatPortfolioOutput]. *)
Definition totalShares (lots : list TradeObj) : Q :=
  fold_left (fun acc t => acc + shares t) lots 0.

Definition totalCost (lots : list TradeObj) : Q :=
  fold_left (fun acc t => acc + shares t * price t) lots 0.

(** The lots of a ticker; a ticker without a queue has none. *)
Definition lotsOf (portfolio : gmap string (list TradeObj)) (ticker : string) : list TradeObj :=
  default [] (portfolio !! ticker).

(** Shares a sell finds in a queue: the sell loop reads every lot through
    [toFixed]. *)
Definition availableShares (precision : nat) (lots : list TradeObj) : Q :=
  totalShares (map (fun l => setShares l (toFixed precision (shares l))) lots).

(** Shares held for a ticker: the sum over its remaining lots. *)
Definition held (portfolio : gmap string (list TradeObj)) (ticker : string) : Q :=
  totalShares (lotsOf portfolio ticker).

(** Shares a row buys: the quantity of a row that takes the buy branch. *)
Definition boughtBy (r : Row) : Q :=
  if String.eqb (r_security r) "" then 0
  else if isBuy (r_action r) then r_quantity r else 0.

(** Shares a row's sell takes out of the lots: the amount by which the sell
    loop lowers [sharesToSell]. *)
Definition consumedBy (precision : nat) (portfolio : gmap string (list TradeObj)) (r : Row) : Q :=
  if String.eqb (r_security r) "" then 0
  else if isBuy (r_action r) then 0
  else if String.eqb (r_action r) "Sell" then
    match portfolio !! r_security r with
    | Some activeTrades =>
        let sharesToSell := toFixed precision (r_quantity r) in
        sharesToSell - snd (sellLoop precision sharesToSell activeTrades)
    | None => 0
    end
  else 0.

Fixpoint totalBought (rows : list Row) : Q :=
  match rows with
  | [] => 0
  | r :: rest => boughtBy r + totalBought rest
  end.

Fixpoint totalConsumedFrom (precision : nat) (keepRows : bool)
    (portfolio : gmap string (list TradeObj)) (rows : list Row) : Q :=
  match rows with
  | [] => 0
  | r :: rest =>
      consumedBy precision portfolio r
      + totalConsumedFrom precision keepRows (processRow precision keepRows portfolio r) rest
  end.

Definition totalConsumed (rows : list Row) (precision : nat) (keepRows : bool) : Q :=
  totalConsumedFrom precision keepRows ∅ rows.

End Trading.

(** ** Cell values and numeric parsing *)

Module Parse.
Local Open Scope Q_scope.

(** The outcome of a numeric conversion: a finite number, an infinity or
    NaN. *)
Inductive jsnum :=
| Num (q : Q)
| Infinity (negative : bool)
| NaN.

(** [===] on numbers. *)
Definition jeqb (a b : jsnum) : bool :=
  match a, b with
  | Num x, Num y => Qeq_bool x y
  | Infinity s, Infinity s' => Bool.eqb s s'
  | _, _ => false
  end.

(** Two outcomes that denote the same number. *)
Definition sameNumber (a b : jsnum) : Prop :=
  match a, b with
  | Num x, Num y => x == y
  | Infinity s, Infinity s' => s = s'
  | NaN, NaN => True
  | _, _ => False
  end.

Definition isNaN (a : jsnum) : bool :=
  match a with NaN => true | _ => false end.

Definition jmul (a b : jsnum) : jsnum :=
  match a, b with
  | NaN, _ | _, NaN => NaN
  | Num x, Num y => Num (x * y)
  | Infinity s, Num y | Num y, Infinity s =>
      if Qeq_bool y 0 then NaN else Infinity (xorb s (Qltb y 0))
  | Infinity s, Infinity s' => Infinity (xorb s s')
  end.

(** Division; the code divides only by a number it has tested to differ
    from 0. *)
Definition jdiv (a b : jsnum) : jsnum :=
  match a, b with
  | NaN, _ | _, NaN => NaN
  | Num x, Num y => if Qeq_bool y 0 then NaN else Num (x / y)
  | Infinity s, Num y => Infinity (xorb s (Qltb y 0))
  | Num _, Infinity _ => Num 0
  | Infinity _, Infinity _ => NaN
  end.

(** The value of a spreadsheet cell as the script receives it: a number, a
    text (an empty cell is the empty text), a boolean, or [undefined] for
    an index past the end of a column. *)
Inductive Cell :=
| CUndef
| CNum (q : Q)
| CStr (s : string)
| CBool (b : bool).

(** Truthiness of a cell. *)
Definition truthy (c : Cell) : bool :=
  match c with
  | CUndef => false
  | CNum q => negb (Qeq_bool q 0)
  | CStr s => negb (String.eqb s "")
  | CBool b => b
  end.

(** *** Characters *)

Definition bytes (l : list nat) : string :=
  fold_right (fun n s => String (ascii_of_nat n) s) EmptyString l.

(** The euro, pound and dollar signs, in UTF-8. *)
Definition euro : string := bytes [226; 130; 172]%nat.
Definition pound : string := bytes [194; 163]%nat.
Definition dollar : string := "$".

(** The characters matched by [\s], in UTF-8: the ASCII blanks, U+00A0,
    U+1680, U+2000 to U+200A, U+2028, U+2029, U+202F, U+205F, U+3000 and
    U+FEFF. *)
Definition whitespace : list string :=
  map bytes
    [ [9]; [10]; [11]; [12]; [13]; [32]; [194; 160]; [225; 154; 128];
      [226; 128; 128]; [226; 128; 129]; [226; 128; 130]; [226; 128; 131];
      [226; 128; 132]; [226; 128; 133]; [226; 128; 134]; [226; 128; 135];
      [226; 128; 136]; [226; 128; 137]; [226; 128; 138];
      [226; 128; 168]; [226; 128; 169]; [226; 128; 175]; [226; 129; 159];
      [227; 128; 128]; [239; 187; 191] ]%nat.

(** The length of the first of [seqs] that starts [s]. *)
Fixpoint findPrefix (seqs : list string) (s : string) : option nat :=
  match seqs with
  | [] => None
  | q :: rest => if startsWith q s then Some (String.length q) else findPrefix rest s
  end.

(** [s.replace(/[...]/g, "")] for a class of characters given by their
    encodings; [skip] counts the bytes of a match still to drop. *)
Fixpoint removeAll (seqs : list string) (s : string) (skip : nat) : string :=
  match s with
  | EmptyString => EmptyString
  | String c r =>
      match skip with
      | S k => removeAll seqs r k
      | O =>
          match findPrefix seqs s with
          | Some n => removeAll seqs r (pred n)
          | None => String c (removeAll seqs r 0)
          end
      end
  end.

(** [s.replace(",", ".")]: the first comma only. *)
Fixpoint replaceFirstComma (s : string) : string :=
  match s with
  | EmptyString => EmptyString
  | String c r =>
      if Ascii.eqb c ","%char then String "."%char r else String c (replaceFirstComma r)
  end.

(** Leading white space, dropped by [parseFloat] and by [trim]. *)
Fixpoint trimStart (s : string) (skip : nat) : string :=
  match s with
  | EmptyString => EmptyString
  | String c r =>
      match skip with
      | S k => trimStart r k
      | O =>
          match findPrefix whitespace s with
          | Some n => trimStart r (pred n)
          | None => s
          end
      end
  end.

Definition allWhitespace (s : string) : bool :=
  String.eqb (removeAll whitespace s 0) "".

Fixpoint trimEnd (s : string) : string :=
  match s with
  | EmptyString => EmptyString
  | String c r => if allWhitespace s then EmptyString else String c (trimEnd r)
  end.

Definition trim (s : string) : string := trimEnd (trimStart s 0).

Definition lower_ascii (c : ascii) : ascii :=
  let n := nat_of_ascii c in
  if (65 <=? n)%nat && (n <=? 90)%nat then ascii_of_nat (n + 32) else c.

Fixpoint toLowerCase (s : string) : string :=
  match s with
  | EmptyString => EmptyString
  | String c r => String (lower_ascii c) (toLowerCase r)
  end.

(** *** [parseFloat] *)

Definition digitOf (c : ascii) : option Z :=
  let n := nat_of_ascii c in
  if (48 <=? n)%nat && (n <=? 57)%nat then Some (Z.of_nat (n - 48)) else None.

(** Reads a run of decimal digits: its value on top of [acc], the number of
    digits read on top of [n], and the rest of the string. *)
Fixpoint scanDigits (s : string) (acc : Z) (n : nat) : Z * nat * string :=
  match s with
  | EmptyString => (acc, n, s)
  | String c r =>
      match digitOf c with
      | Some d => scanDigits r (acc * 10 + d)%Z (S n)
      | None => (acc, n, s)
      end
  end.

(** An exponent part [e], [e+] or [e-] followed by digits; 0 if the string
    does not start with one. *)
Definition scanExponent (s : string) : Z :=
  match s with
  | String c r =>
      if Ascii.eqb c "e"%char || Ascii.eqb c "E"%char then
        let '(neg, r) :=
          match r with
          | String "-"%char r' => (true, r')
          | String "+"%char r' => (false, r')
          | _ => (false, r)
          end in
        let '(e, n, _) := scanDigits r 0 0 in
        match n with
        | O => 0%Z
        | S _ => if neg then (- e)%Z else e
        end
      else 0%Z
  | EmptyString => 0%Z
  end.

(** [10^n] as a rational. *)
Definition tenTo (n : nat) : Q := inject_Z (10 ^ Z.of_nat n).

(** The unsigned decimal literal at the start of a string, if any:
    digits, an optional fraction, an optional exponent. *)
Definition scanDecimal (s : string) : option Q :=
  let '(ip, ni, r1) := scanDigits s 0 0 in
  let '(fp, nf, r2) :=
    match r1 with
    | String "."%char r => scanDigits r 0 0
    | _ => (0%Z, O, r1)
    end in
  match (ni + nf)%nat with
  | O => None
  | S _ =>
      Some ((inject_Z ip + inject_Z fp / tenTo nf) * Qpower 10 (scanExponent r2))
  end.

(** [parseFloat(s)]: leading white space is skipped, then the longest
    prefix that is a decimal literal is converted; trailing text is
    ignored. *)
Definition parseFloat (s : string) : jsnum :=
  let s := trimStart s 0 in
  let '(neg, s) :=
    match s with
    | String "-"%char r => (true, r)
    | String "+"%char r => (false, r)
    | _ => (false, s)
    end in
  if startsWith "Infinity" s then Infinity neg
  else
    match scanDecimal s with
    | Some q => Num (if neg then - q else q)
    | None => NaN
    end.

(** [value.toString()] for a text or a boolean. *)
Definition cellText (c : Cell) : string :=
  match c with
  | CStr s => s
  | CBool true => "true"
  | CBool false => "false"
  | _ => ""
  end.

(** *** [parseMyFloat] ([Sheets_TaxOptimization.js]) *)

(** The text handed to [parseFloat]: euro signs, white space and dots
    removed, then the first comma turned into a dot. *)
Definition cleanStr (text : string) : string :=
  let cleanStr := removeAll ["."] (removeAll (euro :: whitespace) text 0) 0 in
  replaceFirstComma cleanStr.

Definition parseMyFloat (value : Cell) : jsnum :=
  match value with
  | CNum q => Num q
  | _ =>
      if negb (truthy value) then Num 0
      else
        let num := parseFloat (cleanStr (cellText value)) in
        if isNaN num then Num 0 else num
  end.

(** *** [cleanNumber] ([Sheets_Taxes & RealGains.js]) *)

(** The characters of the class of [cleanNumber] besides white space, as
    the file holds the regular expression: U+00E2, U+201A, U+00AC, the
    dollar sign, U+00C2 and U+00A3 (the pound sign), in UTF-8.  The euro
    sign U+20AC is not among them. *)
Definition currencySigns : list string :=
  [ bytes [195; 162]; bytes [226; 128; 154]; bytes [194; 172]; dollar;
    bytes [195; 130]; pound ]%nat.

Definition cleanNumber (value : Cell) : jsnum :=
  if negb (truthy value) then Num 0
  else
    match value with
    | CNum q => Num q
    | _ =>
        let str := trim (cellText value) in
        if String.eqb str "" || String.eqb (toLowerCase str) "x" then Num 0
        else
          let str := removeAll (currencySigns ++ whitespace) str 0 in
          let str :=
            if includes str "." && includes str "," then
              replaceFirstComma (removeAll ["."] str 0)
            else if includes str "," then replaceFirstComma str
            else str in
          let num := parseFloat str in
          if isNaN num then Num 0 else num
    end.

End Parse.

(** ** Written numbers

    The Italian way of writing a number, used to state what [parseMyFloat]
    reads: groups of digits separated by dots, a comma, the decimals; the
    euro sign and blanks may come before and after. *)

Module NumberFormat.
Import Parse.
Local Open Scope Q_scope.

Definition digitChar (d : nat) : ascii := ascii_of_nat (48 + d).

Fixpoint digits (ds : list nat) : string :=
  match ds with
  | [] => EmptyString
  | d :: r => String (digitChar d) (digits r)
  end.

(** The number a list of decimal digits denotes, on top of [acc]. *)
Fixpoint valueFrom (acc : Z) (ds : list nat) : Z :=
  match ds with
  | [] => acc
  | d :: r => valueFrom (acc * 10 + Z.of_nat d)%Z r
  end.

Definition valueOf (ds : list nat) : Z := valueFrom 0 ds.

(** Groups of digits joined by dots. *)
Fixpoint grouped (groups : list (list nat)) : string :=
  match groups with
  | [] => EmptyString
  | [g] => digits g
  | g :: rest => digits g +:+ String "."%char (grouped rest)
  end.

(** Text made of euro signs and white space only. *)
Inductive Padding : string -> Prop :=
| padding_nil : Padding EmptyString
| padding_cons (c s : string) : In c (euro :: whitespace) -> Padding s -> Padding (c +:+ s).

Definition italian (negative : bool) (groups : list (list nat)) (decimals : list nat) : string :=
  (if negative then "-" else "") +:+ grouped groups +:+ String ","%char (digits decimals).

(** The number written. *)
Definition written (negative : bool) (groups : list (list nat)) (decimals : list nat) : Q :=
  let v := inject_Z (valueOf (concat groups))
           + inject_Z (valueOf decimals) / tenTo (length decimals) in
  if negative then - v else v.

Definition isDigits (ds : list nat) : Prop := Forall (fun d => (d < 10)%nat) ds.

End NumberFormat.

(** ** [Sheets_Taxes & RealGains.js]: normalizer and reporting engines *)

Module Fiscal.
Import Parse.
Local Open Scope Q_scope.

(** The canonical trade record pushed by [normalizeData]; [N] is the type
    of its numbers. *)
Record TradeOf (N : Type) := mkTrade {
  date : Date;
  ticker : string;
  action : string;
  qty : N;
  unitPrice : N;
  totalSpent : N;
  type : string
}.
Arguments mkTrade {N}.
Arguments date {N}.
Arguments ticker {N}.
Arguments action {N}.
Arguments qty {N}.
Arguments unitPrice {N}.
Arguments totalSpent {N}.
Arguments type {N}.

(** A trade whose numbers are finite; the engines compute on these. *)
Abbreviation Trade := (TradeOf Q).

Definition finiteNum (a : jsnum) : option Q :=
  match a with Num q => Some q | _ => None end.

Definition finiteTrade (t : TradeOf jsnum) : option Trade :=
  match finiteNum (qty t), finiteNum (unitPrice t), finiteNum (totalSpent t) with
  | Some q, Some u, Some s => Some (mkTrade (date t) (ticker t) (action t) q u s (type t))
  | _, _, _ => None
  end.

(** *** Sorting by date *)

(** [arr.sort((a, b) => a.date - b.date)]: a stable sort by date. *)
Fixpoint insertByDate {N} (x : TradeOf N) (l : list (TradeOf N)) : list (TradeOf N) :=
  match l with
  | [] => [x]
  | y :: r =>
      if date_leb (date x) (date y) then x :: y :: r else y :: insertByDate x r
  end.

Definition sortByDate {N} (l : list (TradeOf N)) : list (TradeOf N) :=
  fold_right insertByDate [] l.

(** *** [normalizeData] *)

(** [parseDate]; [now] is the value of [new Date()]. *)
Definition parseDate (now : Date) (dateVal : option Date) : Date :=
  default now dateVal.

(** Element [i] of a flattened column; [undefined] past its end. *)
Definition cellAt (col : list Cell) (i : nat) : Cell := default CUndef (col !! i).

(** Element [i] of a column of texts when it is truthy. *)
Definition textAt (col : list string) (i : nat) : option string :=
  match col !! i with
  | Some s => if String.eqb s "" then None else Some s
  | None => None
  end.

Definition isCashTicker (ticker : string) : bool :=
  includes (toUpperCase ticker) "CASH" || includes (toUpperCase ticker) "EUR".

Definition isDividend (action : string) : bool :=
  String.eqb action "Dividend" || String.eqb action "Dividends".

(** The body of the [for] loop at index [i]: [None] when the row is
    skipped.  The columns are the flattened arguments, an absent ([null])
    column being the empty list; [flatSec[i]] is [sec].  The security,
    action and type columns hold texts, an empty cell being the empty
    text. *)
Definition normalizeRow (now : Date) (flatDates : list (option Date))
    (flatAct : list string) (flatQty flatPriceUnit flatSpent : list Cell)
    (flatType : list string) (isCryptoMode : bool) (i : nat) (sec : string)
  : option (TradeOf jsnum) :=
  if String.eqb sec "" then None else
  let ticker := sec in
  if isCashTicker ticker then None else
  let action := default "Buy" (textAt flatAct i) in
  let qty := cleanNumber (cellAt flatQty i) in
  let date := parseDate now (mjoin (flatDates !! i)) in
  let unitPrice := cleanNumber (cellAt flatPriceUnit i) in
  if isCryptoMode then
    let rawSpent := cleanNumber (cellAt flatSpent i) in
    let unitPrice :=
      if jeqb unitPrice (Num 0) && negb (jeqb qty (Num 0)) && negb (jeqb rawSpent (Num 0))
      then jdiv rawSpent qty else unitPrice in
    let totalSpent :=
      if jeqb rawSpent (Num 0) && negb (jeqb qty (Num 0)) && negb (jeqb unitPrice (Num 0))
      then jmul qty unitPrice else rawSpent in
    Some (mkTrade date ticker action qty unitPrice totalSpent "Crypto")
  else
    let assetType := default "Stock" (textAt flatType i) in
    let totalSpent := jmul unitPrice qty in
    if isDividend action then
      Some (mkTrade date ticker action (Num 0) unitPrice unitPrice assetType)
    else
      Some (mkTrade date ticker action qty unitPrice totalSpent assetType).

Definition normalizeData (now : Date) (dates : list (option Date))
    (security actions : list string) (quantity priceCol spentCol : list Cell)
    (typeCol : list string) (isCryptoMode : bool) : list (TradeOf jsnum) :=
  let cleanData :=
    omap (fun x => x)
      (imap (normalizeRow now dates actions quantity priceCol spentCol typeCol isCryptoMode)
            security) in
  sortByDate cleanData.

(** *** Buy-class actions *)

(** [["Buy", "DRIP", "REWARD", "STAKING", "MINING", "MINT"].includes(a)
    || a.toUpperCase().includes("BUY")]. *)
Definition isBuyAction (a : string) : bool :=
  (String.eqb a "Buy" || String.eqb a "DRIP" || String.eqb a "REWARD"
   || String.eqb a "STAKING" || String.eqb a "MINING" || String.eqb a "MINT")
  || includes (toUpperCase a) "BUY".

Definition precisionOf (t : Trade) : nat :=
  if String.eqb (type t) "Crypto" then 8%nat else 5%nat.

(** *** Engine A: [calculatePortfolioStats] *)

Record Lot := mkLot { shares : Q; price : Q; ldate : Date }.

Definition setShares (l : Lot) (s : Q) : Lot :=
  {| shares := s; price := price l; ldate := ldate l |}.

(** The statistics object of a ticker; [minBuyPrice] is [None] while it is
    [Infinity]. *)
Record Stats := mkStats {
  stype : string;
  tradingPnL : Q;
  dividends : Q;
  totalInvestedHistorical : Q;
  firstBuyDate : option Date;
  firstBuyPrice : Q;
  minBuyPrice : option Q;
  maxBuyPrice : Q;
  maxSellPrice : Q;
  totalSoldShares : Q;
  totalSoldRevenue : Q;
  tradeCount : Z;
  lastActionDate : option Date
}.

Definition newStats (type : string) : Stats :=
  mkStats type 0 0 0 None 0 None 0 0 0 0 0 None.

(** [s.lastActionDate = trade.date; s.tradeCount += 1]. *)
Definition touch (s : Stats) (t : Trade) : Stats :=
  mkStats (stype s) (tradingPnL s) (dividends s) (totalInvestedHistorical s)
    (firstBuyDate s) (firstBuyPrice s) (minBuyPrice s) (maxBuyPrice s)
    (maxSellPrice s) (totalSoldShares s) (totalSoldRevenue s)
    (tradeCount s + 1) (Some (date t)).

Definition addDividend (s : Stats) (t : Trade) : Stats :=
  mkStats (stype s) (tradingPnL s) (dividends s + totalSpent t) (totalInvestedHistorical s)
    (firstBuyDate s) (firstBuyPrice s) (minBuyPrice s) (maxBuyPrice s)
    (maxSellPrice s) (totalSoldShares s) (totalSoldRevenue s)
    (tradeCount s) (lastActionDate s).

(** The updates of the [Buy Handling] branch. *)
Definition recordBuy (s : Stats) (t : Trade) : Stats :=
  let first := Qeq_bool (totalInvestedHistorical s) 0 in
  let positive := Qltb 0 (unitPrice t) in
  mkStats (stype s) (tradingPnL s) (dividends s)
    (totalInvestedHistorical s + totalSpent t)
    (if first then Some (date t) else firstBuyDate s)
    (if first then unitPrice t else firstBuyPrice s)
    (if positive then
       match minBuyPrice s with
       | None => Some (unitPrice t)
       | Some m => if Qltb (unitPrice t) m then Some (unitPrice t) else Some m
       end
     else minBuyPrice s)
    (if positive && Qltb (maxBuyPrice s) (unitPrice t) then unitPrice t else maxBuyPrice s)
    (maxSellPrice s) (totalSoldShares s) (totalSoldRevenue s)
    (tradeCount s) (lastActionDate s).

(** The updates of the [SELL METRICS LOGIC]. *)
Definition recordSell (s : Stats) (t : Trade) : Stats :=
  mkStats (stype s) (tradingPnL s) (dividends s) (totalInvestedHistorical s)
    (firstBuyDate s) (firstBuyPrice s) (minBuyPrice s) (maxBuyPrice s)
    (if Qltb (maxSellPrice s) (unitPrice t) then unitPrice t else maxSellPrice s)
    (totalSoldShares s + qty t) (totalSoldRevenue s + qty t * unitPrice t)
    (tradeCount s) (lastActionDate s).

Definition setTradingPnL (s : Stats) (pnl : Q) : Stats :=
  mkStats (stype s) pnl (dividends s) (totalInvestedHistorical s)
    (firstBuyDate s) (firstBuyPrice s) (minBuyPrice s) (maxBuyPrice s)
    (maxSellPrice s) (totalSoldShares s) (totalSoldRevenue s)
    (tradeCount s) (lastActionDate s).

(** The [FIFO Loop to close lots]: the queue, [sharesToSell] and
    [s.tradingPnL] after at most [fuel] iterations. *)
Fixpoint closeLots (fuel : nat) (precision : nat) (salePrice : Q)
    (sharesToSell : Q) (activeTrades : list Lot) (pnl : Q) : list Lot * Q * Q :=
  match fuel with
  | O => (activeTrades, sharesToSell, pnl)
  | S fuel =>
      match activeTrades with
      | [] => (activeTrades, sharesToSell, pnl)
      | oldestTrade :: rest =>
          if Qltb 0 sharesToSell then
            let availableShares := toFixed precision (shares oldestTrade) in
            let sharesTaken :=
              if Qle_bool availableShares sharesToSell then availableShares else sharesToSell in
            let oldestTrade :=
              setShares oldestTrade (toFixed precision (shares oldestTrade - sharesTaken)) in
            let sharesToSell := toFixed precision (sharesToSell - sharesTaken) in
            let activeTrades :=
              if Qeq_bool (shares oldestTrade) 0 then rest else oldestTrade :: rest in
            let costBasis := sharesTaken * price oldestTrade in
            let revenue := sharesTaken * salePrice in
            closeLots fuel precision salePrice sharesToSell activeTrades
                      (pnl + (revenue - costBasis))
          else (activeTrades, sharesToSell, pnl)
      end
  end.

(** Iterations that always suffice: a lot is dropped or the loop ends by
    the second iteration on it. *)
Definition loopFuel (activeTrades : list Lot) : nat := (2 * length activeTrades)%nat.

(** The state of phase 1: the lot queues and the statistics. *)
Record Book := mkBook {
  portfolio : gmap string (list Lot);
  stats : gmap string Stats
}.

(** One iteration of the [PHASE 1] loop. *)
Definition processTrade (b : Book) (trade : Trade) : Book :=
  let ticker := ticker trade in
  let precision := precisionOf trade in
  let s := default (newStats (type trade)) (stats b !! ticker) in
  let s := touch s trade in
  if isDividend (action trade) then
    mkBook (portfolio b) (<[ticker := addDividend s trade]> (stats b))
  else if isBuyAction (action trade) then
    let s := recordBuy s trade in
    let lot := mkLot (qty trade) (unitPrice trade) (date trade) in
    let lots :=
      match portfolio b !! ticker with
      | None => [lot]
      | Some lots => lots ++ [lot]
      end in
    mkBook (<[ticker := lots]> (portfolio b)) (<[ticker := s]> (stats b))
  else if String.eqb (action trade) "Sell" then
    let s := recordSell s trade in
    match portfolio b !! ticker with
    | None => mkBook (portfolio b) (<[ticker := s]> (stats b))
    | Some activeTrades =>
        let sharesToSell := toFixed precision (qty trade) in
        let '(activeTrades, _, pnl) :=
          closeLots (loopFuel activeTrades) precision (unitPrice trade)
                    sharesToSell activeTrades (tradingPnL s) in
        let s := setTradingPnL s pnl in
        let portfolio :=
          match activeTrades with
          | [] => delete ticker (portfolio b)
          | _ :: _ => <[ticker := activeTrades]> (portfolio b)
          end in
        mkBook portfolio (<[ticker := s]> (stats b))
    end
  else mkBook (portfolio b) (<[ticker := s]> (stats b)).

(** [PHASE 1: PROCESS TRANSACTIONS]. *)
Definition processTransactions (allData : list Trade) : Book :=
  fold_left processTrade (sortByDate allData) (mkBook ∅ ∅).

(** [PHASE 2]: the totals of a ticker over its open lots. *)
Definition currentShares (lots : list Lot) : Q :=
  fold_left (fun acc lot => acc + shares lot) lots 0.

Definition currentBookValue (lots : list Lot) : Q :=
  fold_left (fun acc lot => acc + shares lot * price lot) lots 0.

Record TickerValue := mkTickerValue {
  tvShares : Q;
  bookVal : Q;
  activeSince : option Date
}.

Definition tickerValue (p : gmap string (list Lot)) (ticker : string) : TickerValue :=
  match p !! ticker with
  | Some lots =>
      mkTickerValue (currentShares lots) (currentBookValue lots)
                    (match lots with [] => None | l :: _ => Some (ldate l) end)
  | None => mkTickerValue 0 0 None
  end.

(** [tickerBookValues]: one entry per ticker of [stats]. *)
Definition tickerBookValues (b : Book) : gmap string TickerValue :=
  map_imap (fun ticker _ => Some (tickerValue (portfolio b) ticker)) (stats b).

End Fiscal.

(** ** [Sheets_TaxOptimization.js]: the scanner and the tax bill *)

Module TaxOptimization.
Import Parse Fiscal.
Local Open Scope Q_scope.

(** *** Arithmetic on conversion outcomes *)

Definition jadd (a b : jsnum) : jsnum :=
  match a, b with
  | NaN, _ | _, NaN => NaN
  | Num x, Num y => Num (x + y)
  | Infinity s, Num _ | Num _, Infinity s => Infinity s
  | Infinity s, Infinity s' => if Bool.eqb s s' then Infinity s else NaN
  end.

Definition jsub (a b : jsnum) : jsnum :=
  match a, b with
  | NaN, _ | _, NaN => NaN
  | Num x, Num y => Num (x - y)
  | Infinity s, Num _ => Infinity s
  | Num _, Infinity s => Infinity (negb s)
  | Infinity s, Infinity s' => if Bool.eqb s s' then NaN else Infinity s
  end.

(** [a < b] and [a <= b]; a comparison with NaN is false. *)
Definition jlt (a b : jsnum) : bool :=
  match a, b with
  | NaN, _ | _, NaN => false
  | Num x, Num y => Qltb x y
  | Num _, Infinity s => negb s
  | Infinity s, Num _ => s
  | Infinity s, Infinity s' => s && negb s'
  end.

Definition jle (a b : jsnum) : bool :=
  match a, b with
  | NaN, _ | _, NaN => false
  | Num x, Num y => Qle_bool x y
  | Num _, Infinity s => negb s
  | Infinity s, Num _ => s
  | Infinity s, Infinity s' => s || negb s'
  end.

(** [Math.abs]. *)
Definition jabs (a : jsnum) : jsnum :=
  match a with
  | Num x => Num (Qabs x)
  | Infinity _ => Infinity false
  | NaN => NaN
  end.

(** [a.toFixed(p)], as the number the text denotes; NaN and the
    infinities print as themselves. *)
Definition jtoFixed (p : nat) (a : jsnum) : jsnum :=
  match a with
  | Num x => Num (toFixed p x)
  | _ => a
  end.

(** *** [TAX_HARVESTING_SCANNER] *)

(** A row of the report: the ticker cell, the quantity, the unrealized P&L
    and the potential loss as printed by [toFixed(2)], the amount the note
    quotes, printed by [toFixed(0)], and whether the note ends in
    [(Valid for Basket)].  A printed number is held as the number its text
    denotes. *)
Record LoserRow := mkLoserRow {
  loserTicker : Cell;
  loserQty : jsnum;
  printedPnl : jsnum;
  printedMinus : jsnum;
  noteAmount : jsnum;
  validForBasket : bool
}.

(** [assetType === "ETF"]. *)
Definition isETF (assetType : Cell) : bool :=
  match assetType with
  | CStr s => String.eqb s "ETF"
  | _ => false
  end.

(** The body of the loop at index [i], [t] being [flatTickers[i]]: the row
    pushed and the [potentialMinus] added to the total, or [None] when the
    position is skipped. *)
Definition scanRow (assetType : Cell) (flatQty flatAvg flatCur : list Cell)
    (i : nat) (t : Cell) : option (LoserRow * jsnum) :=
  let q := parseMyFloat (cellAt flatQty i) in
  let avg := parseMyFloat (cellAt flatAvg i) in
  let cur := parseMyFloat (cellAt flatCur i) in
  if negb (truthy t) || jle q (Num 0.00001) then None
  else
    let invested := jmul q avg in
    let currentVal := jmul q cur in
    let pnl := jsub currentVal invested in
    if jlt pnl (Num 0) then
      let potentialMinus := jabs pnl in
      Some (mkLoserRow t q (jtoFixed 2 pnl) (jtoFixed 2 potentialMinus)
                       (jtoFixed 0 potentialMinus) (isETF assetType),
            potentialMinus)
    else None.

(** The loop from index [i] on, over the tickers left: the rows pushed
    after the header and the running total, which adds the losses before
    they are rounded. *)
Fixpoint scanFrom (assetType : Cell) (flatQty flatAvg flatCur : list Cell)
    (i : nat) (flatTickers : list Cell) (report : list LoserRow)
    (totalPotentialLoss : jsnum) : list LoserRow * jsnum :=
  match flatTickers with
  | [] => (report, totalPotentialLoss)
  | t :: rest =>
      match scanRow assetType flatQty flatAvg flatCur i t with
      | Some (row, potentialMinus) =>
          scanFrom assetType flatQty flatAvg flatCur (S i) rest (report ++ [row])
                   (jadd totalPotentialLoss potentialMinus)
      | None =>
          scanFrom assetType flatQty flatAvg flatCur (S i) rest report totalPotentialLoss
      end
  end.

(** The report: the single message row, or the rows of the losing
    positions followed by the total row, whose amount is printed by
    [toFixed(2)]. *)
Inductive ScanReport :=
| NoLosingPositions
| LosingPositions (rows : list LoserRow) (totalPotentialLoss : jsnum).

(** The columns are the flattened arguments, an absent column being the
    empty list. *)
Definition TAX_HARVESTING_SCANNER (tickers quantities avgPrices currentPrices : list Cell)
    (assetType : Cell) : ScanReport :=
  let '(report, totalPotentialLoss) :=
    scanFrom assetType quantities avgPrices currentPrices 0 tickers [] (Num 0) in
  match report with
  | [] => NoLosingPositions
  | _ :: _ => LosingPositions report (jtoFixed 2 totalPotentialLoss)
  end.

(** *** [ESTIMATE_TAX_BILL] *)

(** The values of the table, each printed by [toFixed(2)] and held as the
    number its text denotes. *)
Record TaxBill := mkTaxBill {
  gain : jsnum;
  loss : jsnum;
  netPosition : jsnum;
  zainetto : jsnum;
  taxableBase : jsnum;
  estimatedTax : jsnum;
  remainingZainetto : jsnum;
  newZainettoGenerated : jsnum
}.

Definition ESTIMATE_TAX_BILL (realizedGainsYTD availableZainetto realizedLossesYTD : Cell)
  : TaxBill :=
  let gain := parseMyFloat realizedGainsYTD in
  let zainetto := parseMyFloat availableZainetto in
  let loss := parseMyFloat realizedLossesYTD in
  let netPosition := jsub gain loss in
  let '(taxableBase, remainingZainetto, newZainettoGenerated) :=
    if jlt (Num 0) netPosition then
      if jle netPosition zainetto then (Num 0, jsub zainetto netPosition, Num 0)
      else (jsub netPosition zainetto, Num 0, Num 0)
    else (Num 0, zainetto, jabs netPosition) in
  let estimatedTax := jmul taxableBase (Num 0.26) in
  mkTaxBill (jtoFixed 2 gain) (jtoFixed 2 loss) (jtoFixed 2 netPosition)
            (jtoFixed 2 zainetto) (jtoFixed 2 taxableBase) (jtoFixed 2 estimatedTax)
            (jtoFixed 2 remainingZainetto) (jtoFixed 2 newZainettoGenerated).

End TaxOptimization.

Module Reports.
Import Fiscal.
Local Open Scope Q_scope.

(** *** Engine B: [calculateFiscalReportDetails] *)

(** The lot of the fiscal report: [{ shares, price }]. *)
Record FLot := mkFLot { fshares : Q; fprice : Q }.

Definition setFShares (l : FLot) (s : Q) : FLot :=
  {| fshares := s; fprice := fprice l |}.

(** A row of the report (the header row is not modelled). *)
Record SaleRow := mkSaleRow {
  saleDate : Date;
  saleYear : Z;
  saleTicker : string;
  saleType : string;
  soldQty : Q;
  sellPrice : Q;
  loadPrice : Q;
  salePnl : Q;
  saleTax : Q;
  capitalLoss : Q
}.

(** The [while] loop of the sell branch: the queue, [sharesToSell],
    [totalCost] and [sharesSold] after at most [fuel] iterations. *)
Fixpoint matchLots (fuel : nat) (precision : nat) (sharesToSell : Q)
    (activeTrades : list FLot) (totalCost sharesSold : Q) : list FLot * Q * Q * Q :=
  match fuel with
  | O => (activeTrades, sharesToSell, totalCost, sharesSold)
  | S fuel =>
      match activeTrades with
      | [] => (activeTrades, sharesToSell, totalCost, sharesSold)
      | oldestTrade :: rest =>
          if Qltb 0 sharesToSell then
            let availableShares := toFixed precision (fshares oldestTrade) in
            let sharesTaken :=
              if Qle_bool availableShares sharesToSell then availableShares else sharesToSell in
            let oldestTrade :=
              setFShares oldestTrade (toFixed precision (fshares oldestTrade - sharesTaken)) in
            let sharesToSell := toFixed precision (sharesToSell - sharesTaken) in
            let activeTrades :=
              if Qeq_bool (fshares oldestTrade) 0 then rest else oldestTrade :: rest in
            matchLots fuel precision sharesToSell activeTrades
                      (totalCost + sharesTaken * fprice oldestTrade) (sharesSold + sharesTaken)
          else (activeTrades, sharesToSell, totalCost, sharesSold)
      end
  end.

(** One iteration of the loop over the trades: the lot queues and the rows
    reported so far. *)
Definition fiscalStep (st : gmap string (list FLot) * list SaleRow) (trade : Trade)
  : gmap string (list FLot) * list SaleRow :=
  let '(portfolio, report) := st in
  let ticker := ticker trade in
  let precision := precisionOf trade in
  if isBuyAction (action trade) then
    let lot := mkFLot (qty trade) (unitPrice trade) in
    match portfolio !! ticker with
    | None => (<[ticker := [lot]]> portfolio, report)
    | Some lots => (<[ticker := lots ++ [lot]]> portfolio, report)
    end
  else if String.eqb (action trade) "Sell" then
    match portfolio !! ticker with
    | None => (portfolio, report)
    | Some activeTrades =>
        let sharesToSell := toFixed precision (qty trade) in
        let salePrice := unitPrice trade in
        let '(activeTrades, _, totalCost, sharesSold) :=
          matchLots (2 * length activeTrades) precision sharesToSell activeTrades 0 0 in
        let report :=
          if Qltb 0 sharesSold then
            let revenue := sharesSold * salePrice in
            let pnl := revenue - totalCost in
            let tax := if Qltb 0 pnl then pnl * 0.26 else 0 in
            let minus := if Qltb pnl 0 then Qabs pnl else 0 in
            let year := yearOf (date trade) in
            let avgBuy := totalCost / sharesSold in
            report ++ [mkSaleRow (date trade) year ticker (type trade) sharesSold
                                 salePrice avgBuy pnl tax minus]
          else report in
        let portfolio :=
          match activeTrades with
          | [] => delete ticker portfolio
          | _ :: _ => <[ticker := activeTrades]> portfolio
          end in
        (portfolio, report)
    end
  else (portfolio, report).

(** The loop of [calculateFiscalReportDetails] over the sorted trades, with
    the lot queues it ends with. *)
Definition fiscalRun (allData : list Trade) : gmap string (list FLot) * list SaleRow :=
  fold_left fiscalStep (sortByDate allData) (∅, []).

Definition calculateFiscalReportDetails (allData : list Trade) : list SaleRow :=
  snd (fiscalRun allData).

(** *** Engine C: [calculateZainettoReport] *)

Record YearStats := mkYearStats {
  gainCompensabile : Q;
  gainNonCompensabile : Q;
  lossAnno : Q
}.

(** The advisory notes; an amount is the number printed with
    [toFixed(0)]. *)
Inductive Note :=
| Urgent (amount : Q)
| Inefficient
| TaxOnEtfDiv
| ExpiredNote (amount : Q)
| Recovered (amount : Q)
| BasketActive (amount : Q)
| NoResidual
| CryptoExcluded.

(** A row of the basket report (the header row is not modelled). *)
Record BasketRow := mkBasketRow {
  rowYear : Z;
  usefulGain : Q;
  uselessGain : Q;
  newLosses : Q;
  basketUsed : Q;
  basketExpired : Q;
  netTaxable : Q;
  taxDue : Q;
  residualBasket : Q;
  notes : list Note
}.

Definition INCLUDE_CRYPTO_IN_TAX_BASKET : bool := false.

(** Step 2: dividends per year. *)
Definition addYearDividend (m : gmap Z Q) (d : Trade) : gmap Z Q :=
  if isDividend (action d) then
    let y := yearOf (date d) in
    <[y := default 0 (m !! y) + totalSpent d]> m
  else m.

Definition yearlyDividendsOf (allData : list Trade) : gmap Z Q :=
  fold_left addYearDividend allData ∅.

(** Step 3: profit and loss per year. *)
Definition addYearPnl (m : gmap Z YearStats) (t : SaleRow) : gmap Z YearStats :=
  let year := saleYear t in
  let s := default (mkYearStats 0 0 0) (m !! year) in
  let s :=
    if Qle_bool 0 (salePnl t) then
      if String.eqb (saleType t) "ETF"
      then mkYearStats (gainCompensabile s) (gainNonCompensabile s + salePnl t) (lossAnno s)
      else mkYearStats (gainCompensabile s + salePnl t) (gainNonCompensabile s) (lossAnno s)
    else mkYearStats (gainCompensabile s) (gainNonCompensabile s)
                     (lossAnno s + Qabs (salePnl t)) in
  <[year := s]> m.

(** Years that only have dividends. *)
Definition addDividendYear (m : gmap Z YearStats) (year : Z) : gmap Z YearStats :=
  match m !! year with
  | Some _ => m
  | None => <[year := mkYearStats 0 0 0]> m
  end.

(** The keys of a map, sorted with [(a, b) => a - b]. *)
Definition sortedKeys {A} (m : gmap Z A) : list Z :=
  merge_sort Z.le (map fst (map_to_list m)).

Definition yearlyStatsOf (trades : list SaleRow) (yearlyDividends : gmap Z Q)
  : gmap Z YearStats :=
  fold_left addDividendYear (map fst (map_to_list yearlyDividends))
            (fold_left addYearPnl trades ∅).

(** Part A, the loop over the years of the basket, oldest first: the
    basket, [usedZainetto] and [remainingGain] at its end. *)
Fixpoint useBasket (year : Z) (availableYears : list Z) (minusBucket : gmap Z Q)
    (usedZainetto remainingGain : Q) : gmap Z Q * Q * Q :=
  match availableYears with
  | [] => (minusBucket, usedZainetto, remainingGain)
  | pastYear :: rest =>
      if (4 <? year - pastYear)%Z then
        useBasket year rest minusBucket usedZainetto remainingGain
      else
        match minusBucket !! pastYear with
        | Some available =>
            let take := Qmin available remainingGain in
            let minusBucket := <[pastYear := available - take]> minusBucket in
            let usedZainetto := usedZainetto + take in
            let remainingGain := remainingGain - take in
            let minusBucket :=
              if Qeq_bool (available - take) 0 then delete pastYear minusBucket
              else minusBucket in
            if Qeq_bool remainingGain 0 then (minusBucket, usedZainetto, remainingGain)
            else useBasket year rest minusBucket usedZainetto remainingGain
        | None => useBasket year rest minusBucket usedZainetto remainingGain
        end
  end.

(** The sum of the entries of the basket. *)
Definition basketTotal (minusBucket : gmap Z Q) : Q :=
  map_fold (fun _ amount acc => acc + amount) 0 minusBucket.

(** The sum of the entries that expire at the end of [year]. *)
Definition nextExpiry (year : Z) (minusBucket : gmap Z Q) : Q :=
  map_fold (fun yOrigin amount acc =>
              if (4 - (year - yOrigin) =? 0)%Z then acc + amount else acc) 0 minusBucket.

(** One iteration of the loop over the years: the basket after the year and
    the row reported for it. *)
Definition yearStep (minusBucket : gmap Z Q) (year : Z) (s : YearStats) (divs : Q)
  : gmap Z Q * BasketRow :=
  let gainNoComp := gainNonCompensabile s + divs in
  let tradingGain := gainCompensabile s in
  let expiryYearLimit := (year - 4)%Z in
  (* A. use basket *)
  let '(minusBucket, usedZainetto, taxableBase) :=
    if Qltb 0 tradingGain then
      let '(b, used, remainingGain) :=
        useBasket year (sortedKeys minusBucket) minusBucket 0 tradingGain in
      (b, used, gainNoComp + remainingGain)
    else (minusBucket, 0, gainNoComp) in
  (* B. new losses *)
  let netAnnual := gainCompensabile s - lossAnno s in
  let '(minusBucket, usedZainetto, taxableBase) :=
    if Qltb 0 (lossAnno s) && Qltb netAnnual 0 then
      (<[year := Qabs netAnnual]> minusBucket, 0, gainNoComp)
    else (minusBucket, usedZainetto, taxableBase) in
  (* C. clean expired losses *)
  let '(minusBucket, expiredAmount) :=
    match minusBucket !! expiryYearLimit with
    | Some amount => (delete expiryYearLimit minusBucket, amount)
    | None => (minusBucket, 0)
    end in
  (* D. strategic analysis *)
  let totalResiduo := basketTotal minusBucket in
  let nextExpiryAmount := nextExpiry year minusBucket in
  let notes :=
    (if Qltb 0 nextExpiryAmount then [Urgent (toFixed 0 nextExpiryAmount)] else [])
    ++ (if Qltb 0 gainNoComp && Qltb 0 totalResiduo then [Inefficient]
        else if Qltb 0 gainNoComp then [TaxOnEtfDiv] else [])
    ++ (if Qltb 0 expiredAmount then [ExpiredNote (toFixed 0 expiredAmount)] else [])
    ++ (if Qltb 0 usedZainetto then [Recovered (toFixed 0 (usedZainetto * 0.26))] else []) in
  let notes :=
    match notes with
    | [] => if Qltb 0 totalResiduo then [BasketActive (toFixed 0 totalResiduo)]
            else [NoResidual]
    | _ :: _ => notes
    end in
  let notes :=
    if negb INCLUDE_CRYPTO_IN_TAX_BASKET then notes ++ [CryptoExcluded] else notes in
  let estimatedTax := taxableBase * 0.26 in
  (minusBucket,
   mkBasketRow year (gainCompensabile s) gainNoComp
     (if Qltb (gainCompensabile s) (lossAnno s) then lossAnno s - gainCompensabile s else 0)
     usedZainetto expiredAmount taxableBase estimatedTax totalResiduo notes).

(** The loop over the sorted years. *)
Fixpoint yearLoop (yearlyStats : gmap Z YearStats) (yearlyDividends : gmap Z Q)
    (years : list Z) (minusBucket : gmap Z Q) : gmap Z Q * list BasketRow :=
  match years with
  | [] => (minusBucket, [])
  | year :: rest =>
      let s := default (mkYearStats 0 0 0) (yearlyStats !! year) in
      let divs := default 0 (yearlyDividends !! year) in
      let '(minusBucket, row) := yearStep minusBucket year s divs in
      let '(final, rows) := yearLoop yearlyStats yearlyDividends rest minusBucket in
      (final, row :: rows)
  end.

(** The report with the basket it ends with. *)
Definition zainettoRun (allData : list Trade) : gmap Z Q * list BasketRow :=
  let trades := calculateFiscalReportDetails allData in
  let yearlyDividends := yearlyDividendsOf (sortByDate allData) in
  let yearlyStats := yearlyStatsOf trades yearlyDividends in
  yearLoop yearlyStats yearlyDividends (sortedKeys yearlyStats) ∅.

Definition calculateZainettoReport (allData : list Trade) : list BasketRow :=
  snd (zainettoRun allData).

(** *** [PORTFOLIO_EVOLUZIONE]: holdings at a cutoff date *)

Record Holding := mkHolding { hqty : Q; invested : Q; htype : string }.

(** One iteration of the loop over [historicMoves]. *)
Definition holdStep (holdings : gmap string Holding) (trade : Trade) : gmap string Holding :=
  let t := ticker trade in
  let h := default (mkHolding 0 0 (type trade)) (holdings !! t) in
  let h :=
    if isBuyAction (action trade) then
      mkHolding (hqty h + qty trade) (invested h + totalSpent trade) (htype h)
    else if String.eqb (action trade) "Sell" then
      if Qltb 0 (hqty h) then
        let avgCost := invested h / hqty h in
        mkHolding (hqty h - qty trade) (invested h - qty trade * avgCost) (htype h)
      else h
    else if String.eqb (action trade) "Split" then
      mkHolding (hqty h + qty trade) (invested h) (htype h)
    else h in
  <[t := h]> holdings.

(** The holdings computed for one cutoff date from the sorted trades. *)
Definition holdingsAt (cutoffDate : Date) (allData : list Trade) : gmap string Holding :=
  let historicMoves := filter (fun d => date_leb (date d) cutoffDate = true) allData in
  fold_left holdStep historicMoves ∅.

(** A row of the evolution table. *)
Record SnapshotRow := mkSnapshotRow {
  snapYear : Z;
  snapDate : Date;
  snapTicker : string;
  snapType : string;
  ownedQty : Q;
  histInvested : Q
}.

(** The rows written for one year; within a year they follow the iteration
    order of the map. *)
Definition yearRows (year : Z) (cutoffDate : Date) (holdings : gmap string Holding)
  : list SnapshotRow :=
  omap (fun '(ticker, data) =>
          if Qltb 0.000001 (hqty data)
          then Some (mkSnapshotRow year cutoffDate ticker (htype data) (hqty data) (invested data))
          else None)
       (map_to_list holdings).

(** The table from the merged trades; [today] is [new Date()], and [None]
    stands for the single row ["No data found"]. *)
Definition PORTFOLIO_EVOLUZIONE (today : Date) (allData : list Trade)
  : option (list SnapshotRow) :=
  match sortByDate allData with
  | [] => None
  | (first :: _) as sorted =>
      let startYear := yearOf (date first) in
      let endYear := yearOf today in
      Some (flat_map
              (fun k =>
                 let year := (startYear + Z.of_nat k)%Z in
                 let cutoffDate := if (year =? endYear)%Z then today else mkDate year 12 31 in
                 yearRows year cutoffDate (holdingsAt cutoffDate sorted))
              (seq 0 (Z.to_nat (endYear - startYear + 1))))
  end.

End Reports.

(** ** Comparing the holdings replay with the live matcher *)

Module Agreement.
Import Fiscal Reports.
Local Open Scope Q_scope.

(** Quantity and invested capital the replay holds for a ticker; nothing
    for a ticker it has not seen. *)
Definition heldQty (holdings : gmap string Holding) (ticker : string) : Q :=
  match holdings !! ticker with Some h => hqty h | None => 0 end.

Definition heldInvested (holdings : gmap string Holding) (ticker : string) : Q :=
  match holdings !! ticker with Some h => invested h | None => 0 end.

(** Shares and book value of the open lots of a ticker in the live
    matcher. *)
Definition openShares (b : Book) (ticker : string) : Q :=
  tvShares (tickerValue (portfolio b) ticker).

Definition openBookValue (b : Book) (ticker : string) : Q :=
  bookVal (tickerValue (portfolio b) ticker).

(** A trade that both engines read alike: dated up to the cutoff, not a
    split, with a quantity of no more decimals than [decimals] gives for
    its ticker, which are no more than the precision the matcher uses for
    the trade, and, for a sell, not negative. *)
Definition plainTrade (cutoff : Date) (decimals : string -> nat) (t : Trade) : Prop :=
  date_leb (date t) cutoff = true
  /\ action t <> "Split"
  /\ atPrecision (decimals (ticker t)) (qty t)
  /\ (decimals (ticker t) <= precisionOf t)%nat
  /\ (action t = "Sell" -> 0 <= qty t).

(** A buy whose total is its quantity times its unit price. *)
Definition buyAtCost (t : Trade) : Prop :=
  isBuyAction (action t) = true -> totalSpent t == qty t * unitPrice t.

(** Every sell of the run finds at least its quantity in open lots. *)
Fixpoint sellsCovered (b : Book) (trades : list Trade) : bool :=
  match trades with
  | [] => true
  | t :: rest =>
      (if String.eqb (action t) "Sell"
       then Qle_bool (qty t) (openShares b (ticker t)) else true)
      && sellsCovered (processTrade b t) rest
  end.

(** Whether a trade takes its shares out of the open lots of its ticker at
    their average cost: the book value of the lots falls by the quantity
    times the book value per share. *)
Definition atAverageCost (b : Book) (t : Trade) : bool :=
  Qeq_bool (openBookValue (processTrade b t) (ticker t))
           (openBookValue b (ticker t)
            - qty t * (openBookValue b (ticker t) / openShares b (ticker t))).

(** Every sell of the run is at average cost. *)
Fixpoint sellsAtAverage (b : Book) (trades : list Trade) : bool :=
  match trades with
  | [] => true
  | t :: rest =>
      (if String.eqb (action t) "Sell" then atAverageCost b t else true)
      && sellsAtAverage (processTrade b t) rest
  end.

(** Lots that all have the unit cost of the first. *)
Definition oneCost (lots : list Lot) : bool :=
  match lots with
  | [] => true
  | l :: rest => forallb (fun x => Qeq_bool (price x) (price l)) rest
  end.

(** Every sell of the run finds the open lots of its ticker at one unit
    cost. *)
Fixpoint sellsAtOneCost (b : Book) (trades : list Trade) : bool :=
  match trades with
  | [] => true
  | t :: rest =>
      (if String.eqb (action t) "Sell"
       then oneCost (default [] (portfolio b !! ticker t)) else true)
      && sellsAtOneCost (processTrade b t) rest
  end.

End Agreement.

(** ** Invariants and auxiliary notions of the proofs *)

Module TradingInv.
Import Trading.
Local Open Scope Q_scope.

(** A lot whose shares are non-negative and on the precision grid. *)
Definition lotOk (p : nat) (l : TradeObj) : Prop :=
  0 <= shares l /\ atPrecision p (shares l).

(** A property of every lot of every queue. *)
Definition allLots (P : TradeObj -> Prop) (portfolio : gmap string (list TradeObj)) : Prop :=
  forall t lots, portfolio !! t = Some lots -> Forall P lots.

(** Whether the deletion logic removes the entry of a queue that a sell
    row leaves empty: always for crypto, and for stocks when the row is
    dated before the cut-off date. *)
Definition dropsEntry (keepRows : bool) (r : Row) : bool :=
  if keepRows then date_ltb (default (mkDate 1900 1 1) (r_date r)) CUTOFF_DATE else true.

(** A sell row without cover: its ticker has no queue, an empty queue, or
    a queue of non-negative lots whose available shares are below the
    quantity sold. *)
Definition uncovered (precision : nat) (portfolio : gmap string (list TradeObj)) (r : Row)
  : Prop :=
  match portfolio !! r_security r with
  | None => True
  | Some lots =>
      lots = []
      \/ (Forall (fun l => 0 <= shares l) lots
          /\ availableShares precision lots < toFixed precision (r_quantity r))
  end.

End TradingInv.

Module ParseInv.
Import Parse.

(** Characters that none of the removed classes touches. *)
Definition plainChar (c : ascii) : bool :=
  match digitOf c with
  | Some _ => true
  | None => Ascii.eqb c "."%char || Ascii.eqb c ","%char || Ascii.eqb c "-"%char
  end.

(** Case analysis on a decimal digit. *)
Ltac digit_cases_with d tac :=
  do 10 (destruct d as [|d]; [tac|]); exfalso; lia.

Ltac digit_cases d H := digit_cases_with d ltac:(reflexivity).

End ParseInv.

Module EngineInv.
Import Fiscal Reports.
Local Open Scope Q_scope.

(** Whether the first lot of a queue is on the precision grid. *)
Definition headOnGrid {A} (sharesOf : A -> Q) (p : nat) (lots : list A) : bool :=
  match lots with
  | [] => false
  | l :: _ => Qeq_bool (toFixed p (sharesOf l)) (sharesOf l)
  end.

(** A bound on the iterations the matching loops still make: two per lot,
    one for a first lot already on the grid. *)
Definition iterationsLeft {A} (sharesOf : A -> Q) (p : nat) (lots : list A) : nat :=
  (2 * length lots - (if headOnGrid sharesOf p lots then 1 else 0))%nat.

(** The loop condition is false in a returned state. *)
Definition closeLotsExited (r : list Lot * Q * Q) : Prop :=
  Qltb 0 (snd (fst r)) = false \/ fst (fst r) = [].

Definition matchLotsExited (r : list FLot * Q * Q * Q) : Prop :=
  Qltb 0 (snd (fst (fst r))) = false \/ fst (fst (fst r)) = [].

(** A basket without negative entries. *)
Definition nonnegBasket (minusBucket : gmap Z Q) : Prop :=
  map_Forall (fun _ amount => 0 <= amount) minusBucket.

(** What every row of the report satisfies. *)
Definition taxedInFull (row : BasketRow) : Prop :=
  uselessGain row <= netTaxable row
  /\ (usefulGain row <= 0 -> netTaxable row == uselessGain row)
  /\ taxDue row == netTaxable row * (26 # 100).

End EngineInv.

Module AgreementInv.
Import Fiscal Reports Agreement.
Local Open Scope Q_scope.

(** A lot with non-negative shares of at most 5 decimals. *)
Definition lotFine (l : Lot) : Prop := 0 <= shares l /\ atPrecision 5 (shares l).

(** A precision whose grid contains the grid of 5 decimals. *)
Definition fineGrid (p : nat) : Prop := forall x, atPrecision 5 x -> atPrecision p x.

Definition fineBook (b : Book) : Prop :=
  forall t lots, portfolio b !! t = Some lots -> Forall lotFine lots.

(** A lot whose shares have at most [g] decimals. *)
Definition lotOnGrid (g : nat) (l : Lot) : Prop := atPrecision g (shares l).

(** Every lot of a ticker has at most the decimals given for the ticker. *)
Definition gridBook (decimals : string -> nat) (b : Book) : Prop :=
  forall t lots, portfolio b !! t = Some lots -> Forall (lotOnGrid (decimals t)) lots.

(** The holding a trade leaves for its ticker. *)
Definition updatedHolding (h : Holding) (trade : Trade) : Holding :=
  if isBuyAction (action trade) then
    mkHolding (hqty h + qty trade) (invested h + totalSpent trade) (htype h)
  else if String.eqb (action trade) "Sell" then
    if Qltb 0 (hqty h) then
      mkHolding (hqty h - qty trade) (invested h - qty trade * (invested h / hqty h)) (htype h)
    else h
  else if String.eqb (action trade) "Split" then
    mkHolding (hqty h + qty trade) (invested h) (htype h)
  else h.

End AgreementInv.

(** ** Notions used to state further properties *)

Module NormalizerMoreDefs.
Import Parse Fiscal.

(** Dates in ascending order. *)
Definition byDate {N} (a b : TradeOf N) : Prop :=
  (dateValue (date a) <= dateValue (date b))%Z.

(** The trades of one date. *)
Definition onDate {N} (v : Z) (l : list (TradeOf N)) : list (TradeOf N) :=
  filter (fun t => dateValue (date t) = v) l.

(** The rows that [normalizeData] keeps, in sheet order, before they are
    sorted. *)
Definition keptRows (now : Date) (dates : list (option Date))
    (security actions : list string) (quantity priceCol spentCol : list Cell)
    (typeCol : list string) (isCryptoMode : bool) : list (TradeOf jsnum) :=
  omap (fun x => x)
    (imap (normalizeRow now dates actions quantity priceCol spentCol typeCol isCryptoMode)
          security).

End NormalizerMoreDefs.

Module EngineMoreDefs.
Import Fiscal Reports.
Local Open Scope Q_scope.

(** The lot of the fiscal report that corresponds to a lot of the
    dashboard: the same shares and price, without the date. *)
Definition forgetDate (l : Lot) : FLot := mkFLot (shares l) (price l).

(** The P&L column of the fiscal report, summed over the rows of a
    ticker. *)
Definition reportPnl (ticker : string) (report : list SaleRow) : Q :=
  fold_right (fun r acc => if String.eqb (saleTicker r) ticker then salePnl r + acc else acc)
             0 report.

(** The statistics of a ticker, those of a ticker not yet seen being all
    zero. *)
Definition statsOf (b : Book) (ticker : string) : Stats :=
  default (newStats "") (stats b !! ticker).

(** A quantity that is a non-negative number of at most 5 decimals. *)
Definition fineQty (t : Trade) : Prop := 0 <= qty t /\ atPrecision 5 (qty t).

(** What a row of the fiscal report takes from the sell it reports. *)
Definition reports (row : SaleRow) (t : Trade) : Prop :=
  action t = "Sell"
  /\ saleDate row = date t /\ saleYear row = yearOf (date t)
  /\ saleTicker row = ticker t /\ saleType row = type t
  /\ sellPrice row = unitPrice t.

(** The arithmetic of a row: a positive quantity, the P&L as quantity
    times the difference of sale and load price, tax at 26% on a gain and
    the loss carried as a positive amount. *)
Definition rowArithmetic (row : SaleRow) : Prop :=
  0 < soldQty row
  /\ salePnl row == soldQty row * (sellPrice row - loadPrice row)
  /\ (0 < salePnl row -> saleTax row == salePnl row * (26 # 100) /\ capitalLoss row == 0)
  /\ (salePnl row <= 0 -> saleTax row == 0 /\ capitalLoss row == - salePnl row).

(** Rows in ascending order of date. *)
Definition rowsByDate (a b : SaleRow) : Prop :=
  (dateValue (saleDate a) <= dateValue (saleDate b))%Z.

(** The report while trades [rest] are still to come: its rows obey the
    row arithmetic, each reports a sell of [allData], they are in date
    order, and none is dated after a trade still to come. *)
Definition reportInv (allData : list Trade) (report : list SaleRow) (rest : list Trade) : Prop :=
  Forall (fun row => rowArithmetic row /\ exists t, In t allData /\ reports row t) report
  /\ StronglySorted rowsByDate report
  /\ Forall (fun row =>
               Forall (fun t => (dateValue (saleDate row) <= dateValue (date t))%Z) rest) report.

(** A statistic summed over the trades of a ticker that [sel] selects. *)
Definition sumOver (sel : Trade -> bool) (f : Trade -> Q) (ticker : string)
    (trades : list Trade) : Q :=
  fold_right (fun t acc => if String.eqb (Fiscal.ticker t) ticker && sel t then f t + acc else acc)
             0 trades.

Definition dividendTrade (t : Trade) : bool := isDividend (action t).

Definition buyTrade (t : Trade) : bool :=
  negb (isDividend (action t)) && isBuyAction (action t).

Definition sellTrade (t : Trade) : bool :=
  negb (isDividend (action t)) && negb (isBuyAction (action t)) && String.eqb (action t) "Sell".

(** Proof steps for the statistics a trade writes: [written] rewrites the
    lookup after the write, [start] relates the statistics the trade starts
    from to those of the book. *)
Ltac totals_case written start t k :=
  rewrite written;
  destruct (String.eqb_spec (ticker t) k) as [<-|Hne];
  cbn [andb negb dividends totalInvestedHistorical totalSoldShares totalSoldRevenue
       addDividend recordBuy recordSell setTradingPnL touch];
  [destruct start as (S1 & S2 & S3 & S4); cbv zeta in S1, S2, S3, S4;
   rewrite ?S1, ?S2, ?S3, ?S4|];
  (split; [|split; [|split]]); ring.

Ltac range_case written start t k H :=
  rewrite written;
  destruct (String.eqb_spec (ticker t) k) as [<-|Hne]; [|exact H];
  apply start in H; destruct H as (m & Hm & H1 & H2);
  exists m; split; [exact Hm | split; assumption].

(** A price between the lowest and the highest buy price recorded. *)
Definition withinBuyRange (s : Stats) (p : Q) : Prop :=
  exists m, minBuyPrice s = Some m /\ m <= p /\ p <= maxBuyPrice s.

(** [grandTotalBookValue] of phase 2: the book values of all tickers
    summed. *)
Definition grandTotalBookValue (b : Book) : Q :=
  map_fold (fun _ tv acc => acc + bookVal tv) 0 (tickerBookValues b).

(** [allocationPct] of phase 3. *)
Definition allocationPct (grandTotal : Q) (tv : TickerValue) : Q :=
  if Qltb 0 grandTotal then bookVal tv / grandTotal else 0.

(** The allocation column summed over all tickers. *)
Definition totalAllocation (b : Book) : Q :=
  map_fold (fun _ tv acc => acc + allocationPct (grandTotalBookValue b) tv) 0
           (tickerBookValues b).

End EngineMoreDefs.

Module BasketMoreDefs.
Import Fiscal Reports.
Local Open Scope Q_scope.

(** The amounts of a row of the basket report: none is negative, the
    basket is never drawn for more than the compensable gain, and in a year
    without new losses the taxable base is what the basket leaves of the
    gains. *)
Definition rowBalance (row : BasketRow) : Prop :=
  0 <= usefulGain row
  /\ 0 <= basketUsed row /\ basketUsed row <= usefulGain row
  /\ 0 <= newLosses row /\ 0 <= basketExpired row /\ 0 <= residualBasket row
  /\ (newLosses row == 0 ->
      netTaxable row == uselessGain row + usefulGain row - basketUsed row).

(** The residual basket carried from row to row, starting from [carried]:
    in a year without compensable gain or without new losses it is the
    residual of the year before plus the new losses, less what was used and
    what expired. *)
Fixpoint ledger (carried : Q) (rows : list BasketRow) : Prop :=
  match rows with
  | [] => True
  | row :: rest =>
      (usefulGain row <= 0 \/ newLosses row == 0 ->
       residualBasket row
       == carried + newLosses row - basketUsed row - basketExpired row)
      /\ ledger (residualBasket row) rest
  end.

(** A year with a reported sale or with a dividend. *)
Definition activeYear (allData : list Trade) (y : Z) : Prop :=
  (exists row, In row (calculateFiscalReportDetails allData) /\ saleYear row = y)
  \/ (exists d, In d allData /\ isDividend (action d) = true /\ yearOf (date d) = y).

(** Yearly statistics without negative gains or losses. *)
Definition nonnegStats (s : YearStats) : Prop :=
  0 <= gainCompensabile s /\ 0 <= lossAnno s.

(** Every entry of the basket is of a year before [year]. *)
Definition olderThan (year : Z) (minusBucket : gmap Z Q) : Prop :=
  map_Forall (fun k _ => (k < year)%Z) minusBucket.

(** A column of the fiscal report summed over the rows of a year that
    [sel] selects. *)
Definition sumRows (sel : SaleRow -> bool) (f : SaleRow -> Q) (y : Z)
    (rows : list SaleRow) : Q :=
  fold_right (fun r acc => if (saleYear r =? y)%Z && sel r then f r + acc else acc) 0 rows.

(** Sales at a profit (or at par) of anything but an ETF, of an ETF, and
    sales at a loss. *)
Definition stockGain (r : SaleRow) : bool :=
  Qle_bool 0 (salePnl r) && negb (String.eqb (saleType r) "ETF").

Definition etfGain (r : SaleRow) : bool :=
  Qle_bool 0 (salePnl r) && String.eqb (saleType r) "ETF".

Definition lossRow (r : SaleRow) : bool := negb (Qle_bool 0 (salePnl r)).

(** The dividends of a year. *)
Definition sumDividends (y : Z) (trades : list Trade) : Q :=
  fold_right (fun d acc =>
                if isDividend (action d) && (yearOf (date d) =? y)%Z
                then totalSpent d + acc else acc) 0 trades.

(** The statistics of a year, those of a year without entry being zero. *)
Definition statsOfYear (m : gmap Z YearStats) (y : Z) : YearStats :=
  default (mkYearStats 0 0 0) (m !! y).

End BasketMoreDefs.

Module EvoluzioneDefs.
Import Fiscal Reports.
Local Open Scope Q_scope.

(** The trades dated up to a cutoff, in their order. *)
Definition upTo (cutoff : Date) (l : list Trade) : list Trade :=
  filter (fun d => date_leb (date d) cutoff = true) l.

(** The snapshot date of a year: today for the current year, the 31st of
    December otherwise. *)
Definition snapshotDate (today : Date) (year : Z) : Date :=
  if (year =? yearOf today)%Z then today else mkDate year 12 31.

(** A row of the evolution table for trades [sorted] that start in
    [startYear]: a year of the range, its snapshot date, and a ticker held
    at that date with more than 0.000001 units, with the quantity, invested
    capital and type of the holding. *)
Definition snapshotRowOf (today : Date) (startYear : Z) (sorted : list Trade)
    (row : SnapshotRow) : Prop :=
  (startYear <= snapYear row <= yearOf today)%Z
  /\ snapDate row = snapshotDate today (snapYear row)
  /\ 0.000001 < ownedQty row
  /\ holdingsAt (snapDate row) sorted !! snapTicker row
     = Some (mkHolding (ownedQty row) (histInvested row) (snapType row)).

End EvoluzioneDefs.

(** ** [Sheets_Trading.js]: the formatted output *)

Module TradingMoreDefs.
Import Str Trading.
Local Open Scope Q_scope.

(** [totalShares > 0 ? totalCost / totalShares : 0]. *)
Definition avgPrice (lots : list TradeObj) : Q :=
  if Qltb 0 (totalShares lots) then totalCost lots / totalShares lots else 0.

(** [formatPortfolioOutput]: one row [[ticker, totalShares, avgPrice]] per
    entry of the map.  The rows are listed in the order of the finite map,
    not in the insertion order of the JavaScript [Map]: the properties
    below are about which rows there are. *)
Definition formatPortfolioOutput (portfolioMap : gmap string (list TradeObj))
  : list (string * Q * Q) :=
  map (fun '(ticker, trades) => (ticker, totalShares trades, avgPrice trades))
      (map_to_list portfolioMap).

(** The lot a buy row pushes. *)
Definition lotOfRow (r : Row) : TradeObj :=
  createTradeObject (r_quantity r) (r_price r) (r_action r).

(** Whether a row takes the buy branch for a ticker. *)
Definition buysFor (t : string) (r : Row) : bool :=
  negb (String.eqb (r_security r) "") && String.eqb (r_security r) t && isBuy (r_action r).

(** The buy rows of a ticker, in sheet order. *)
Definition buysOf (t : string) (rows : list Row) : list Row := List.filter (buysFor t) rows.

(** A sell of a ticker that is not dated before the cut-off date. *)
Definition lateSell (t : string) (r : Row) : Prop :=
  r_security r = t /\ r_action r = "Sell"
  /\ date_ltb (default (mkDate 1900 1 1) (r_date r)) CUTOFF_DATE = false.

(** A queue made of the latest of the given buys: its prices are the prices
    of the last buys, and its lots after the first are those buys
    unchanged. *)
Definition latestOf (buys : list Row) (queue : list TradeObj) : Prop :=
  suffix (map price queue) (map r_price buys)
  /\ suffix (tail queue) (map lotOfRow buys).

End TradingMoreDefs.

Module TaxOptimizationDefs.
Import Parse Fiscal TaxOptimization.
Local Open Scope Q_scope.

(** The number a conversion outcome holds when it is finite. *)
Definition numberIn (a : jsnum) : Q := match a with Num q => q | _ => 0 end.

Definition isFinite (a : jsnum) : bool := match a with Num _ => true | _ => false end.

(** The rows of a report. *)
Definition rowsOf (report : ScanReport) : list LoserRow :=
  match report with
  | NoLosingPositions => []
  | LosingPositions rows _ => rows
  end.

(** Position [i] of numeric columns is listed by the scanner: its ticker
    cell is not blank, its quantity is above 0.00001 and its current price
    is below its average price. *)
Definition underWater (tickers : list Cell) (qs avgs curs : list Q) (i : nat) (t : Cell)
  : Prop :=
  tickers !! i = Some t /\ truthy t = true
  /\ 0.00001 < nth i qs 0 /\ nth i curs 0 < nth i avgs 0.

Definition listed (tickers : list Cell) (qs avgs curs : list Q) (i : nat) : bool :=
  truthy (cellAt tickers i) && Qltb 0.00001 (nth i qs 0)
  && Qltb (nth i curs 0) (nth i avgs 0).

(** The positions under water, in the order of the columns. *)
Definition losers (tickers : list Cell) (qs avgs curs : list Q) : list nat :=
  List.filter (listed tickers qs avgs curs) (seq 0 (length tickers)).

(** The loss of position [i]: the quantity times the fall of the price. *)
Definition lossAt (qs avgs curs : list Q) (i : nat) : Q :=
  nth i qs 0 * (nth i avgs 0 - nth i curs 0).

(** A row that lists position [i]: the ticker and the quantity of the
    position; as P&L the quantity times the change of the price, rounded to
    cents, which is not positive; as potential loss the loss rounded to
    cents, which is the P&L with its sign changed; in the note the loss
    rounded to units. *)
Definition listsPosition (qs avgs curs : list Q) (assetType : Cell) (i : nat) (t : Cell)
    (row : LoserRow) : Prop :=
  loserTicker row = t /\ loserQty row = Num (nth i qs 0)
  /\ validForBasket row = isETF assetType
  /\ printedPnl row = Num (toFixed 2 (nth i qs 0 * (nth i curs 0 - nth i avgs 0)))
  /\ printedMinus row = Num (toFixed 2 (lossAt qs avgs curs i))
  /\ noteAmount row = Num (toFixed 0 (lossAt qs avgs curs i))
  /\ numberIn (printedPnl row) <= 0
  /\ numberIn (printedMinus row) == - numberIn (printedPnl row).

(** The sum of the losses of some positions, before any rounding. *)
Definition sumLosses (qs avgs curs : list Q) (positions : list nat) : Q :=
  fold_right (fun i acc => lossAt qs avgs curs i + acc) 0 positions.

(** [x] when it is positive, 0 otherwise. *)
Definition positivePart (x : Q) : Q := if Qltb 0 x then x else 0.

End TaxOptimizationDefs.

Module ParseMoreDefs.
Import Parse ParseInv.

(** Text made of digits, dots, commas and minus signs only. *)
Fixpoint plainText (s : string) : bool :=
  match s with
  | EmptyString => true
  | String c r => plainChar c && plainText r
  end.

(** The UTF-8 encoding of a character of the basic multilingual plane,
    given by its code point. *)
Definition utf8 (codepoint : nat) : string :=
  if (codepoint <? 128)%nat then bytes [codepoint]
  else if (codepoint <? 2048)%nat then
    bytes [192 + codepoint / 64; 128 + codepoint mod 64]%nat
  else
    bytes [224 + codepoint / 4096; 128 + (codepoint / 64) mod 64;
           128 + codepoint mod 64]%nat.

(** The three branches of [cleanNumber] on the separators of a text. *)
Definition separatorsRead (str : string) : string :=
  if includes str "." && includes str "," then replaceFirstComma (removeAll ["."] str 0)
  else if includes str "," then replaceFirstComma str
  else str.

End ParseMoreDefs.
(** * Verification

    Facts about the definitions above, then the properties of the
    specification. *)

(** *** Facts about [toFixed] *)

Section ToFixedFacts.
Local Open Scope Q_scope.

Lemma Qltb_lt x y : Qltb x y = true <-> x < y.
Proof.
  unfold Qltb. rewrite negb_true_iff. split.
  - intros H. apply Qnot_le_lt. intros Hle. apply Qle_bool_iff in Hle. congruence.
  - intros H. destruct (Qle_bool y x) eqn:E; [|reflexivity].
    apply Qle_bool_iff in E. exfalso. apply (Qlt_not_le _ _ H E).
Qed.

Lemma Qltb_ge x y : Qltb x y = false <-> y <= x.
Proof.
  unfold Qltb. rewrite negb_false_iff. apply Qle_bool_iff.
Qed.

Lemma Qle_bool_gt x y : Qle_bool x y = false <-> y < x.
Proof.
  rewrite <- Qltb_lt. unfold Qltb. destruct (Qle_bool x y); simpl; intuition congruence.
Qed.

Lemma Qfloor_half (n : Z) : Qfloor (inject_Z n + (1 # 2)) = n.
Proof.
  unfold Qfloor, Qplus, inject_Z. simpl.
  symmetry. apply (Z.div_unique _ _ n 1); lia.
Qed.

Lemma sgn_Qeq x y : x == y -> Z.sgn (Qnum x) = Z.sgn (Qnum y).
Proof.
  destruct x as [a b], y as [c d]. unfold Qeq. simpl. intros H.
  destruct a, c; simpl; try reflexivity; lia.
Qed.

Lemma toFixed_Qeq p x y : x == y -> toFixed p x = toFixed p y.
Proof.
  intros H. unfold toFixed. rewrite (sgn_Qeq x y H).
  assert (E : Qabs x * inject_Z (Z.pos (scale p)) + (1 # 2)
              == Qabs y * inject_Z (Z.pos (scale p)) + (1 # 2)) by (rewrite H; reflexivity).
  rewrite (Qfloor_comp _ _ E). reflexivity.
Qed.

#[global] Instance toFixed_proper p : Proper (Qeq ==> Qeq) (toFixed p).
Proof. intros x y H. rewrite (toFixed_Qeq p x y H). reflexivity. Qed.

(** The result of [toFixed p] lies on the grid of multiples of [10^-p]. *)
Lemma toFixed_grid p x : exists k : Z, toFixed p x == k # scale p.
Proof.
  unfold toFixed. eexists. apply Qred_correct.
Qed.

(** Numbers on the grid are left unchanged. *)
Lemma toFixed_on_grid p (k : Z) : toFixed p (k # scale p) == k # scale p.
Proof.
  unfold toFixed. rewrite Qred_correct.
  assert (E : Qabs (k # scale p) * inject_Z (Z.pos (scale p)) + (1 # 2)
              == inject_Z (Z.abs k) + (1 # 2)).
  { apply Qplus_comp; [|reflexivity]. unfold Qabs, Qmult, Qeq, inject_Z. simpl. lia. }
  rewrite (Qfloor_comp _ _ E), Qfloor_half. simpl Qnum.
  replace (Z.sgn k * Z.abs k)%Z with k by (destruct k; simpl; lia).
  reflexivity.
Qed.

Lemma atPrecision_grid p x : atPrecision p x <-> exists k : Z, x == k # scale p.
Proof.
  unfold atPrecision. split.
  - intros H. destruct (toFixed_grid p x) as [k Hk]. exists k. rewrite <- H. exact Hk.
  - intros [k Hk]. rewrite Hk. apply toFixed_on_grid.
Qed.

Lemma atPrecision_toFixed p x : atPrecision p (toFixed p x).
Proof. apply atPrecision_grid, toFixed_grid. Qed.

Lemma atPrecision_0 p : atPrecision p 0.
Proof. apply atPrecision_grid. exists 0%Z. reflexivity. Qed.

Lemma atPrecision_plus p x y : atPrecision p x -> atPrecision p y -> atPrecision p (x + y).
Proof.
  rewrite !atPrecision_grid. intros [a Ha] [b Hb]. exists (a + b)%Z.
  rewrite Ha, Hb. unfold Qplus, Qeq. simpl. nia.
Qed.

Lemma atPrecision_minus p x y : atPrecision p x -> atPrecision p y -> atPrecision p (x - y).
Proof.
  rewrite !atPrecision_grid. intros [a Ha] [b Hb]. exists (a - b)%Z.
  rewrite Ha, Hb. unfold Qminus, Qplus, Qopp, Qeq. simpl. nia.
Qed.

Lemma atPrecision_Qeq p x y : x == y -> atPrecision p x -> atPrecision p y.
Proof. unfold atPrecision. intros H Hx. rewrite <- H. exact Hx. Qed.

(** A coarser grid is contained in a finer one. *)
Lemma atPrecision_S p x : atPrecision p x -> atPrecision (S p) x.
Proof.
  rewrite !atPrecision_grid. intros [a Ha]. exists (10 * a)%Z.
  rewrite Ha. unfold Qeq. simpl. lia.
Qed.

Lemma atPrecision_5_8 x : atPrecision 5 x -> atPrecision 8 x.
Proof. intros H. do 3 apply atPrecision_S. exact H. Qed.

Lemma toFixed_nonneg p x : 0 <= x -> 0 <= toFixed p x.
Proof.
  intros Hx. unfold toFixed. rewrite Qred_correct.
  unfold Qle. simpl. rewrite Z.mul_1_r.
  apply Z.mul_nonneg_nonneg.
  - destruct x as [a b]. unfold Qle in Hx. simpl in *. lia.
  - assert (H : 0 <= Qabs x * inject_Z (Z.pos (scale p)) + (1 # 2)).
    { pose proof (Qabs_nonneg x).
      assert (0 <= inject_Z (Z.pos (scale p))) by (unfold Qle; simpl; lia).
      assert (0 <= Qabs x * inject_Z (Z.pos (scale p))) by (apply Qmult_le_0_compat; assumption).
      lra. }
    apply Qfloor_resp_le in H. exact H.
Qed.

End ToFixedFacts.

Example toFixed_half_up : toFixed 0 (5 # 2) = 3%Q /\ toFixed 0 (- (5 # 2)) = (-3)%Q.
Proof. split; reflexivity. Qed.

Example toFixed_dust : toFixed 5 (1000004 # 1000000) = 1%Q.
Proof. reflexivity. Qed.

Example upper_buy : toUpperCase "Rebuy (auto)" = "REBUY (AUTO)".
Proof. reflexivity. Qed.

Example includes_buy : includes (toUpperCase "Rebuy (auto)") "BUY" = true
                       /\ includes (toUpperCase "Sell") "BUY" = false.
Proof. split; reflexivity. Qed.


(** ** The live positions matcher *)

Module TradingFacts.
Import Trading TradingInv.
Local Open Scope Q_scope.

Lemma fold_shares_acc (lots : list TradeObj) (a : Q) :
  fold_left (fun acc t => acc + shares t) lots a == a + totalShares lots.
Proof.
  unfold totalShares. revert a. induction lots as [|l lots IH]; intros a; simpl.
  - lra.
  - rewrite IH, (IH (0 + shares l)). lra.
Qed.

Lemma totalShares_cons l (lots : list TradeObj) :
  totalShares (l :: lots) == shares l + totalShares lots.
Proof. unfold totalShares at 1. simpl. rewrite fold_shares_acc. lra. Qed.

Lemma totalShares_snoc (lots : list TradeObj) l :
  totalShares (lots ++ [l]) == totalShares lots + shares l.
Proof.
  induction lots as [|x lots IH]; simpl.
  - rewrite totalShares_cons. unfold totalShares. simpl. lra.
  - rewrite !totalShares_cons, IH. lra.
Qed.

Lemma totalShares_nonneg (lots : list TradeObj) :
  Forall (fun l => 0 <= shares l) lots -> 0 <= totalShares lots.
Proof.
  induction 1 as [|l lots Hl _ IH].
  - unfold totalShares. simpl. lra.
  - rewrite totalShares_cons. lra.
Qed.

(** A buy action is never the action ["Sell"]. *)
Lemma isBuy_not_Sell a : isBuy a = true -> String.eqb a "Sell" = false.
Proof.
  intros H. destruct (String.eqb a "Sell") eqn:E; [|reflexivity].
  apply String.eqb_eq in E. subst a. discriminate H.
Qed.

(** *** The sell loop *)

(** Lots stay non-negative. *)
Lemma sellLoop_nonneg p (lots : list TradeObj) : forall s,
  Forall (fun l => 0 <= shares l) lots ->
  Forall (fun l => 0 <= shares l) (fst (sellLoop p s lots)).
Proof.
  induction lots as [|l lots IH]; intros s H; simpl.
  - constructor.
  - inversion H as [|? ? Hl Hlots]; subst.
    destruct (Qltb 0 s) eqn:Es; [|exact H].
    destruct (Qle_bool (toFixed p (shares l)) s) eqn:Ea.
    + apply IH, Hlots.
    + simpl. constructor; [|exact Hlots]. simpl.
      apply Qle_bool_gt in Ea. apply toFixed_nonneg. lra.
Qed.

(** Conservation through the sell loop: what leaves the lots is what leaves
    [sharesToSell]. *)
Lemma sellLoop_conserves p (lots : list TradeObj) : forall s,
  Forall (lotOk p) lots -> 0 <= s -> atPrecision p s ->
  Forall (lotOk p) (fst (sellLoop p s lots))
  /\ 0 <= snd (sellLoop p s lots)
  /\ atPrecision p (snd (sellLoop p s lots))
  /\ totalShares (fst (sellLoop p s lots))
     == totalShares lots - (s - snd (sellLoop p s lots)).
Proof.
  induction lots as [|l lots IH]; intros s H Hs Hp; simpl.
  - split; [constructor|]. split; [exact Hs|]. split; [exact Hp|]. lra.
  - inversion H as [|? ? [Hl0 Hlp] Hlots]; subst.
    destruct (Qltb 0 s) eqn:Es.
    + assert (Ea : toFixed p (shares l) == shares l) by exact Hlp.
      destruct (Qle_bool (toFixed p (shares l)) s) eqn:Ec.
      * apply Qle_bool_iff in Ec.
        assert (Hd : atPrecision p (s - toFixed p (shares l))).
        { apply atPrecision_minus; [exact Hp | apply atPrecision_toFixed]. }
        assert (Es' : toFixed p (s - toFixed p (shares l)) == s - shares l).
        { unfold atPrecision in Hd. rewrite Hd, Ea. reflexivity. }
        destruct (IH (toFixed p (s - toFixed p (shares l))) Hlots) as (I1 & I2 & I3 & I4).
        { rewrite Es'. lra. }
        { apply atPrecision_toFixed. }
        split; [exact I1|]. split; [exact I2|]. split; [exact I3|].
        rewrite I4, totalShares_cons. lra.
      * apply Qle_bool_gt in Ec. simpl.
        assert (Hd : atPrecision p (toFixed p (shares l) - s)).
        { apply atPrecision_minus; [apply atPrecision_toFixed | exact Hp]. }
        split; [|split; [|split]].
        -- constructor; [|exact Hlots]. split; simpl.
           ++ apply toFixed_nonneg. lra.
           ++ apply atPrecision_toFixed.
        -- lra.
        -- apply atPrecision_0.
        -- unfold atPrecision in Hd. rewrite !totalShares_cons. simpl. lra.
    + apply Qltb_ge in Es. simpl.
      split; [exact H|]. split; [exact Hs|]. split; [exact Hp|]. lra.
Qed.

(** A sell that exceeds the rounded shares of the queue empties it. *)
Lemma sellLoop_excess p (lots : list TradeObj) : forall s,
  Forall (fun l => 0 <= shares l) lots -> atPrecision p s ->
  availableShares p lots < s ->
  fst (sellLoop p s lots) = [].
Proof.
  unfold availableShares.
  induction lots as [|l lots IH]; intros s H Hp Hlt; simpl.
  - reflexivity.
  - inversion H as [|? ? Hl Hlots]; subst.
    simpl in Hlt. rewrite totalShares_cons in Hlt. simpl in Hlt.
    assert (Hr : 0 <= toFixed p (shares l)) by (apply toFixed_nonneg; exact Hl).
    assert (Ht : 0 <= totalShares (map (fun l => setShares l (toFixed p (shares l))) lots)).
    { apply totalShares_nonneg. apply Forall_map. simpl.
      eapply Forall_impl; [exact Hlots|]. intros x Hx. apply toFixed_nonneg, Hx. }
    assert (Es : Qltb 0 s = true) by (apply Qltb_lt; lra).
    rewrite Es.
    assert (Ec : Qle_bool (toFixed p (shares l)) s = true) by (apply Qle_bool_iff; lra).
    rewrite Ec.
    assert (Hd : atPrecision p (s - toFixed p (shares l))).
    { apply atPrecision_minus; [exact Hp | apply atPrecision_toFixed]. }
    apply IH; [exact Hlots | apply atPrecision_toFixed |].
    unfold atPrecision in Hd. rewrite Hd. lra.
Qed.

(** *** One row *)

Lemma allLots_empty P : allLots P ∅.
Proof. intros t lots H. rewrite lookup_empty in H. discriminate. Qed.

Lemma allLots_insert P portfolio t lots :
  allLots P portfolio -> Forall P lots -> allLots P (<[t := lots]> portfolio).
Proof.
  intros Hp Hl t' lots' H. destruct (decide (t = t')) as [->|Hne].
  - rewrite lookup_insert_eq in H. congruence.
  - rewrite lookup_insert_ne in H by exact Hne. eapply Hp, H.
Qed.

Lemma allLots_delete P portfolio t :
  allLots P portfolio -> allLots P (delete t portfolio).
Proof.
  intros Hp t' lots' H. destruct (decide (t = t')) as [->|Hne].
  - rewrite lookup_delete_eq in H. discriminate.
  - rewrite lookup_delete_ne in H by exact Hne. eapply Hp, H.
Qed.

(** A row preserves a property of lots that the new lot has and that the
    sell loop preserves. *)
Lemma processRow_allLots (P : TradeObj -> Prop) p keepRows portfolio r :
  (forall s lots, Forall P lots -> Forall P (fst (sellLoop p s lots))) ->
  P (createTradeObject (r_quantity r) (r_price r) (r_action r)) ->
  allLots P portfolio -> allLots P (processRow p keepRows portfolio r).
Proof.
  intros Hloop Hnew Hp. unfold processRow.
  destruct (String.eqb (r_security r) ""); [exact Hp|].
  set (portfolio1 := if isBuy (r_action r) then _ else _).
  assert (H1 : allLots P portfolio1).
  { subst portfolio1. destruct (isBuy (r_action r)); [|exact Hp].
    destruct (portfolio !! r_security r) as [lots|] eqn:E.
    - apply allLots_insert; [exact Hp|]. apply Forall_app. split; [eapply Hp, E|].
      constructor; [exact Hnew | constructor].
    - apply allLots_insert; [exact Hp|]. constructor; [exact Hnew | constructor]. }
  destruct (String.eqb (r_action r) "Sell"); [|exact H1].
  destruct (portfolio1 !! r_security r) as [lots|] eqn:E; [|exact H1].
  assert (H2 : Forall P (fst (sellLoop p (toFixed p (shares
                 (createTradeObject (r_quantity r) (r_price r) (r_action r)))) lots))).
  { apply Hloop. eapply H1, E. }
  assert (H3 : allLots P (<[r_security r := fst (sellLoop p (toFixed p (shares
                 (createTradeObject (r_quantity r) (r_price r) (r_action r)))) lots)]> portfolio1)).
  { apply allLots_insert; assumption. }
  destruct (fst (sellLoop p _ lots)); [|exact H3].
  destruct keepRows; [destruct (date_ltb _ _)|]; try exact H3; apply allLots_delete, H3.
Qed.

Lemma held_insert portfolio t lots : held (<[t := lots]> portfolio) t = totalShares lots.
Proof. unfold held, lotsOf. rewrite lookup_insert_eq. reflexivity. Qed.

Lemma held_delete portfolio t : held (delete t portfolio) t = 0.
Proof. unfold held, lotsOf. rewrite lookup_delete_eq. reflexivity. Qed.

(** The balance of one row on its ticker. *)
Lemma processRow_balance p keepRows portfolio r :
  allLots (lotOk p) portfolio ->
  0 <= r_quantity r -> atPrecision p (r_quantity r) ->
  held (processRow p keepRows portfolio r) (r_security r)
  == held portfolio (r_security r) + boughtBy r - consumedBy p portfolio r.
Proof.
  intros Hp Hq Hg. unfold processRow, boughtBy, consumedBy.
  destruct (String.eqb (r_security r) ""); [lra|].
  destruct (isBuy (r_action r)) eqn:Eb.
  - rewrite (isBuy_not_Sell _ Eb).
    unfold held at 2. unfold lotsOf.
    destruct (portfolio !! r_security r) as [lots|] eqn:E; rewrite held_insert; simpl.
    + rewrite totalShares_snoc. simpl. lra.
    + rewrite totalShares_cons. unfold totalShares. simpl. lra.
  - destruct (String.eqb (r_action r) "Sell"); [|lra].
    unfold held at 2. unfold lotsOf.
    destruct (portfolio !! r_security r) as [lots|] eqn:E; simpl; [|unfold held, lotsOf; rewrite ?E; simpl; lra].
    destruct (sellLoop_conserves p lots (toFixed p (r_quantity r))) as (_ & _ & _ & Hc).
    { eapply Hp, E. }
    { apply toFixed_nonneg, Hq. }
    { apply atPrecision_toFixed. }
    destruct (fst (sellLoop p (toFixed p (r_quantity r)) lots)) as [|x rest] eqn:El.
    + assert (H0 : totalShares [] == 0) by reflexivity.
      destruct keepRows; [destruct (date_ltb _ _)|];
        rewrite ?held_delete, ?held_insert; lra.
    + rewrite held_insert. lra.
Qed.

Lemma lotOk_new p r :
  0 <= r_quantity r -> atPrecision p (r_quantity r) ->
  lotOk p (createTradeObject (r_quantity r) (r_price r) (r_action r)).
Proof. intros H1 H2. split; assumption. Qed.

(** Whatever the amount sold, the sell loop keeps lots on the grid. *)
Lemma sellLoop_lotOk p (lots : list TradeObj) : forall s,
  Forall (lotOk p) lots -> Forall (lotOk p) (fst (sellLoop p s lots)).
Proof.
  induction lots as [|l lots IH]; intros s Hl; simpl; [constructor|].
  inversion Hl as [|? ? [Hl0 Hlp] Hlots]; subst.
  destruct (Qltb 0 s); [|exact Hl].
  destruct (Qle_bool (toFixed p (shares l)) s) eqn:Ec.
  - apply IH, Hlots.
  - simpl. constructor; [|exact Hlots]. apply Qle_bool_gt in Ec. split; simpl.
    + apply toFixed_nonneg. lra.
    + apply atPrecision_toFixed.
Qed.

Lemma processRow_lotOk p keepRows portfolio r :
  0 <= r_quantity r -> atPrecision p (r_quantity r) ->
  allLots (lotOk p) portfolio -> allLots (lotOk p) (processRow p keepRows portfolio r).
Proof.
  intros H1 H2. apply processRow_allLots; [|apply lotOk_new; assumption].
  intros s lots Hl. apply sellLoop_lotOk, Hl.
Qed.

Lemma processRow_nonneg p keepRows portfolio r :
  0 <= r_quantity r ->
  allLots (fun l => 0 <= shares l) portfolio ->
  allLots (fun l => 0 <= shares l) (processRow p keepRows portfolio r).
Proof.
  intros H1. apply processRow_allLots; [|exact H1].
  intros s lots Hl. apply sellLoop_nonneg, Hl.
Qed.

Lemma held_nonneg portfolio t :
  allLots (fun l => 0 <= shares l) portfolio -> 0 <= held portfolio t.
Proof.
  intros Hp. unfold held, lotsOf. destruct (portfolio !! t) as [lots|] eqn:E; simpl.
  - apply totalShares_nonneg. eapply Hp, E.
  - unfold totalShares. simpl. lra.
Qed.

(** *** A run of rows *)

Lemma processFifoFrom_nonneg p keepRows rows : forall portfolio,
  Forall (fun r => 0 <= r_quantity r) rows ->
  allLots (fun l => 0 <= shares l) portfolio ->
  allLots (fun l => 0 <= shares l) (processFifoFrom p keepRows portfolio rows).
Proof.
  induction rows as [|r rows IH]; intros portfolio Hr Hp; simpl; [exact Hp|].
  inversion Hr; subst. apply IH; [assumption|]. apply processRow_nonneg; assumption.
Qed.

Lemma processFifoFrom_balance p keepRows t rows : forall portfolio,
  Forall (fun r => r_security r = t /\ 0 <= r_quantity r
                   /\ atPrecision p (r_quantity r)) rows ->
  allLots (lotOk p) portfolio ->
  held (processFifoFrom p keepRows portfolio rows) t
  == held portfolio t + totalBought rows - totalConsumedFrom p keepRows portfolio rows.
Proof.
  induction rows as [|r rows IH]; intros portfolio Hr Hp.
  - unfold processFifoFrom. simpl fold_left. simpl totalBought.
    simpl totalConsumedFrom. lra.
  - inversion Hr as [|? ? (Ht & Hq & Hg) Hrows]. subst x l.
    change (processFifoFrom p keepRows portfolio (r :: rows))
      with (processFifoFrom p keepRows (processRow p keepRows portfolio r) rows).
    pose proof (IH (processRow p keepRows portfolio r) Hrows
                  (processRow_lotOk p keepRows portfolio r Hq Hg Hp)) as E1.
    pose proof (processRow_balance p keepRows portfolio r Hp Hq Hg) as E2.
    rewrite Ht in E2.
    change (totalBought (r :: rows)) with (boughtBy r + totalBought rows).
    change (totalConsumedFrom p keepRows portfolio (r :: rows))
      with (consumedBy p portfolio r
            + totalConsumedFrom p keepRows (processRow p keepRows portfolio r) rows).
    lra.
Qed.

End TradingFacts.

Module TradingClaims.
Import Trading TradingInv TradingFacts.
Local Open Scope Q_scope.

(** C7 (as amended).  For every sequence of rows on one ticker whose
    quantities are non-negative, at every point of processing (after every
    prefix of the rows) the sum of the shares of the ticker's remaining lots
    is non-negative; and when the quantities processed so far are on the
    grid of the matcher's precision ([toFixed] leaves them unchanged), that
    sum equals the total shares bought minus the total shares the sells
    consumed from the lots. *)
Theorem fifo_share_balance (precision : nat) (keepRows : bool) (t : string)
    (rows : list Row) :
  Forall (fun r => r_security r = t /\ 0 <= r_quantity r) rows ->
  forall n : nat,
    0 <= held (processFifo (take n rows) precision keepRows) t
    /\ (Forall (fun r => atPrecision precision (r_quantity r)) (take n rows) ->
        held (processFifo (take n rows) precision keepRows) t
        == totalBought (take n rows) - totalConsumed (take n rows) precision keepRows).
Proof.
  intros Hrows n.
  assert (Hpre : Forall (fun r => r_security r = t /\ 0 <= r_quantity r) (take n rows))
    by (apply Forall_take, Hrows).
  split.
  - apply held_nonneg. unfold processFifo. apply processFifoFrom_nonneg.
    + eapply Forall_impl; [exact Hpre|]. intros r [_ Hq]. exact Hq.
    + apply allLots_empty.
  - intros Hgrid. unfold processFifo, totalConsumed.
    rewrite (processFifoFrom_balance precision keepRows t (take n rows) ∅).
    + unfold held, lotsOf. rewrite lookup_empty. unfold totalShares. simpl. lra.
    + revert Hpre Hgrid. generalize (take n rows). intros l H1 H2.
      induction H1 as [|r l [Ht Hq] _ IH]; [constructor|].
      inversion H2; subst. constructor; [|apply IH; assumption].
      split; [reflexivity|]. split; assumption.
    + apply allLots_empty.
Qed.

(** The scenario of three trades on one ticker, at its end. *)
Lemma fifo_share_balance_witness :
  let rows := [ mkRow "ACME" "Buy" 10 100 (Some (mkDate 2023 1 1));
                mkRow "ACME" "Buy" 10 120 (Some (mkDate 2023 6 1));
                mkRow "ACME" "Sell" 15 150 (Some (mkDate 2024 1 1)) ] in
  Forall (fun r => r_security r = "ACME" /\ 0 <= r_quantity r) rows
  /\ 0 <= held (processFifo (take 3 rows) 5 true) "ACME"
  /\ held (processFifo (take 3 rows) 5 true) "ACME"
     == totalBought (take 3 rows) - totalConsumed (take 3 rows) 5 true.
Proof.
  intros rows.
  assert (H : Forall (fun r => r_security r = "ACME" /\ 0 <= r_quantity r) rows)
    by (repeat constructor; unfold Qle; simpl; lia).
  destruct (fifo_share_balance 5 true "ACME" rows H 3) as [H1 H2].
  split; [exact H|]. split; [exact H1|].
  apply H2. repeat constructor; vm_compute; reflexivity.
Defined.

(** C7 as stated fails on a quantity finer than the precision: the lot of
    1.000004 shares is read as 1.00000, a sell of 1 share removes it whole,
    and 0.000004 shares are neither left in a lot nor counted as sold. *)
Lemma fifo_share_balance_dust :
  let rows := [ mkRow "ACME" "Buy" (1000004 # 1000000) 10 (Some (mkDate 2023 1 1));
                mkRow "ACME" "Sell" 1 12 (Some (mkDate 2023 6 1)) ] in
  Forall (fun r => r_security r = "ACME" /\ 0 <= r_quantity r) rows
  /\ ~ (held (processFifo rows 5 true) "ACME"
        == totalBought rows - totalConsumed rows 5 true).
Proof.
  intros rows. split.
  - repeat constructor; unfold Qle; simpl; lia.
  - vm_compute. discriminate.
Qed.




End TradingClaims.

(** ** Numeric parsing *)

Module ParseFacts.
Import Parse.
Local Open Scope Q_scope.

Example parseFloat_samples :
  sameNumber (parseFloat "1234.56") (Num 1234.56)
  /\ sameNumber (parseFloat "  -12.5e1abc") (Num (-125))
  /\ sameNumber (parseFloat ".5") (Num 0.5)
  /\ sameNumber (parseFloat "7.") (Num 7)
  /\ parseFloat "abc" = NaN
  /\ parseFloat "." = NaN
  /\ parseFloat "-Infinity" = Infinity true
  /\ sameNumber (parseFloat "1e") (Num 1)
  /\ sameNumber (parseFloat "2e-2") (Num 0.02).
Proof. vm_compute. repeat split. Qed.

Example parseMyFloat_samples :
  sameNumber (parseMyFloat (CStr "1.234,56")) (Num 1234.56)
  /\ sameNumber (parseMyFloat (CStr ("1.250,50 " +:+ euro))) (Num 1250.5)
  /\ sameNumber (parseMyFloat (CStr "1,234.56")) (Num 1.23456)
  /\ sameNumber (parseMyFloat (CStr "abc")) (Num 0)
  /\ sameNumber (parseMyFloat (CStr "$5")) (Num 0)
  /\ sameNumber (parseMyFloat CUndef) (Num 0)
  /\ sameNumber (parseMyFloat (CNum 3.5)) (Num 3.5).
Proof. vm_compute. repeat split. Qed.

Example cleanNumber_samples :
  sameNumber (cleanNumber (CStr "1.234,56")) (Num 1234.56)
  /\ sameNumber (cleanNumber (CStr " x ")) (Num 0)
  /\ sameNumber (cleanNumber (CStr "$ 5,5")) (Num 5.5)
  /\ sameNumber (cleanNumber (CStr "1,234.56")) (Num 1.23456)
  /\ sameNumber (cleanNumber (CStr "12.5")) (Num 12.5)
  /\ sameNumber (cleanNumber (CStr (pound +:+ "5,5"))) (Num 5.5)
  /\ sameNumber (cleanNumber (CStr (euro +:+ " 1.234,56"))) (Num 0).
Proof. vm_compute. repeat split. Qed.

End ParseFacts.

Module FormatFacts.
Import Parse NumberFormat ParseInv.
Local Open Scope Q_scope.

Example italian_sample :
  italian false [[1]; [2; 5; 0]]%nat [5; 0]%nat = "1.250,50"
  /\ written false [[1]; [2; 5; 0]]%nat [5; 0]%nat == 1250.5.
Proof. split; reflexivity. Qed.

Lemma removeAll_plain (c : ascii) (s : string) :
  plainChar c = true ->
  removeAll (euro :: whitespace) (String c s) 0
  = String c (removeAll (euro :: whitespace) s 0).
Proof.
  destruct c as [[] [] [] [] [] [] [] []]; intros H; try discriminate H; reflexivity.
Qed.

Lemma app_nil (t : string) : "" +:+ t = t.
Proof. reflexivity. Qed.

Lemma app_cons (c : ascii) (s t : string) : String c s +:+ t = String c (s +:+ t).
Proof. reflexivity. Qed.

Lemma app_assoc (s t u : string) : (s +:+ t) +:+ u = s +:+ (t +:+ u).
Proof.
  induction s as [|c s IH]; [reflexivity|].
  rewrite !app_cons, IH. reflexivity.
Qed.

Lemma removeAll_padding (pad s : string) :
  Padding pad ->
  removeAll (euro :: whitespace) (pad +:+ s) 0 = removeAll (euro :: whitespace) s 0.
Proof.
  induction 1 as [|c pad Hc _ IH]; [reflexivity|].
  rewrite app_assoc.
  cbv in Hc.
  repeat (destruct Hc as [<- | Hc]; [exact IH|]).
  destruct Hc.
Qed.


Lemma app_empty_r (s : string) : s +:+ "" = s.
Proof.
  induction s as [|c s IH]; [reflexivity|]. rewrite app_cons, IH. reflexivity.
Qed.

Lemma removeAll_only_padding (pad : string) :
  Padding pad -> removeAll (euro :: whitespace) pad 0 = "".
Proof.
  intros H. rewrite <- (app_empty_r pad). rewrite removeAll_padding by exact H. reflexivity.
Qed.

(** *** Digits *)

Lemma digitOf_digitChar (d : nat) : (d < 10)%nat -> digitOf (digitChar d) = Some (Z.of_nat d).
Proof. intros H. digit_cases d H. Qed.

Lemma plainChar_digitChar (d : nat) : (d < 10)%nat -> plainChar (digitChar d) = true.
Proof. intros H. unfold plainChar. rewrite digitOf_digitChar by exact H. reflexivity. Qed.

Lemma digitChar_not_dot (d : nat) :
  (d < 10)%nat -> startsWith "." (String (digitChar d) "") = false.
Proof. intros H. digit_cases d H. Qed.

Lemma digitChar_not_comma (d : nat) :
  (d < 10)%nat -> Ascii.eqb (digitChar d) ","%char = false.
Proof. intros H. digit_cases d H. Qed.

Lemma digits_app (a b : list nat) : digits (a ++ b) = digits a +:+ digits b.
Proof.
  induction a as [|d a IH]; [reflexivity|]. simpl. rewrite IH. reflexivity.
Qed.

(** *** The three replacements on a written number *)

Lemma strip_digits (ds : list nat) (s : string) :
  isDigits ds ->
  removeAll (euro :: whitespace) (digits ds +:+ s) 0
  = digits ds +:+ removeAll (euro :: whitespace) s 0.
Proof.
  induction 1 as [|d ds Hd _ IH]; [reflexivity|].
  simpl digits. rewrite !app_cons, removeAll_plain by (apply plainChar_digitChar, Hd).
  rewrite IH. reflexivity.
Qed.

Lemma strip_grouped (groups : list (list nat)) (s : string) :
  Forall isDigits groups ->
  removeAll (euro :: whitespace) (grouped groups +:+ s) 0
  = grouped groups +:+ removeAll (euro :: whitespace) s 0.
Proof.
  induction 1 as [|g groups Hg Hgs IH]; [reflexivity|].
  destruct groups as [|g' groups].
  - simpl grouped. apply strip_digits, Hg.
  - change (grouped (g :: g' :: groups))
      with (digits g +:+ String "."%char (grouped (g' :: groups))).
    rewrite !app_assoc, strip_digits by exact Hg.
    rewrite !app_cons, removeAll_plain by reflexivity.
    rewrite IH. reflexivity.
Qed.

Lemma undot_digits (ds : list nat) (s : string) :
  isDigits ds ->
  removeAll ["."] (digits ds +:+ s) 0 = digits ds +:+ removeAll ["."] s 0.
Proof.
  induction 1 as [|d ds Hd _ IH]; [reflexivity|].
  simpl digits. rewrite !app_cons.
  assert (E : forall r, removeAll ["."] (String (digitChar d) r) 0
                        = String (digitChar d) (removeAll ["."] r 0)).
  { intros r. clear IH. digit_cases d Hd. }
  rewrite E, IH. reflexivity.
Qed.

Lemma undot_grouped (groups : list (list nat)) (s : string) :
  Forall isDigits groups ->
  removeAll ["."] (grouped groups +:+ s) 0
  = digits (concat groups) +:+ removeAll ["."] s 0.
Proof.
  induction 1 as [|g groups Hg Hgs IH]; [reflexivity|].
  destruct groups as [|g' groups].
  - simpl grouped. simpl concat. rewrite app_nil_r. apply undot_digits, Hg.
  - change (grouped (g :: g' :: groups))
      with (digits g +:+ String "."%char (grouped (g' :: groups))).
    rewrite !app_assoc, undot_digits by exact Hg.
    rewrite !app_cons.
    change (removeAll ["."] (String "."%char (grouped (g' :: groups) +:+ s)) 0)
      with (removeAll ["."] (grouped (g' :: groups) +:+ s) 0).
    rewrite IH. change (concat (g :: g' :: groups)) with (g ++ concat (g' :: groups)).
    rewrite digits_app, app_assoc. reflexivity.
Qed.

Lemma replaceFirstComma_cons (c : ascii) (r : string) :
  replaceFirstComma (String c r)
  = if Ascii.eqb c ","%char then String "."%char r else String c (replaceFirstComma r).
Proof. reflexivity. Qed.

Lemma scanDigits_cons (c : ascii) (r : string) (acc : Z) (n : nat) :
  scanDigits (String c r) acc n
  = match digitOf c with
    | Some d => scanDigits r (acc * 10 + d)%Z (S n)
    | None => (acc, n, String c r)
    end.
Proof. reflexivity. Qed.

Lemma comma_after_digits (ds : list nat) (s : string) :
  isDigits ds ->
  replaceFirstComma (digits ds +:+ String ","%char s) = digits ds +:+ String "."%char s.
Proof.
  induction 1 as [|d ds Hd _ IH]; [reflexivity|].
  simpl digits. rewrite !app_cons. rewrite replaceFirstComma_cons.
  rewrite digitChar_not_comma by exact Hd. rewrite IH. reflexivity.
Qed.

(** *** Reading digits *)

Lemma scanDigits_digits (ds : list nat) : forall (s : string) (acc : Z) (n : nat),
  isDigits ds ->
  scanDigits (digits ds +:+ s) acc n = scanDigits s (valueFrom acc ds) (n + length ds).
Proof.
  induction ds as [|d ds IH]; intros s acc n H.
  - simpl. rewrite Nat.add_0_r. reflexivity.
  - inversion H as [|? ? Hd Hds]; subst. simpl digits. rewrite app_cons, scanDigits_cons.
    rewrite digitOf_digitChar by exact Hd. rewrite IH by exact Hds.
    cbn [valueFrom length]. f_equal. lia.
Qed.

Lemma scanDecimal_written (ip fp : list nat) :
  isDigits ip -> isDigits fp -> ip <> [] ->
  exists q, scanDecimal (digits ip +:+ String "."%char (digits fp)) = Some q
            /\ q == inject_Z (valueOf ip) + inject_Z (valueOf fp) / tenTo (length fp).
Proof.
  intros Hi Hf Hne. unfold scanDecimal.
  rewrite scanDigits_digits by exact Hi.
  change (scanDigits (String "."%char (digits fp)) (valueFrom 0 ip) (0 + length ip))
    with (valueFrom 0 ip, (0 + length ip)%nat, String "."%char (digits fp)).
  rewrite <- (app_empty_r (digits fp)), scanDigits_digits by exact Hf.
  change (scanDigits "" (valueFrom 0 fp) (0 + length fp))
    with (valueFrom 0 fp, (0 + length fp)%nat, "").
  destruct ip as [|d ip]; [congruence|]. simpl plus.
  eexists. split; [reflexivity|].
  change (scanExponent "") with 0%Z. change (Qpower 10 0) with 1.
  unfold valueOf. lra.
Qed.

Lemma parseFloat_written (negative : bool) (ip fp : list nat) :
  isDigits ip -> isDigits fp -> ip <> [] ->
  exists q,
    parseFloat ((if negative then "-" else "") +:+ digits ip +:+ String "."%char (digits fp))
    = Num q
    /\ q == (let v := inject_Z (valueOf ip) + inject_Z (valueOf fp) / tenTo (length fp) in
             if negative then - v else v).
Proof.
  intros Hi Hf Hne.
  destruct (scanDecimal_written ip fp Hi Hf Hne) as (q & Hq & Eq).
  assert (Hd : exists d ip', ip = d :: ip' /\ (d < 10)%nat).
  { destruct ip as [|d ip']; [congruence|]. inversion Hi; subst. eauto. }
  destruct Hd as (d & ip' & -> & Hd).
  assert (Hstart : forall r,
             trimStart (String (digitChar d) r) 0 = String (digitChar d) r
             /\ startsWith "Infinity" (String (digitChar d) r) = false
             /\ (let '(neg, s) :=
                    match String (digitChar d) r with
                    | String "-"%char r' => (true, r')
                    | String "+"%char r' => (false, r')
                    | _ => (false, String (digitChar d) r)
                    end in (neg, s)) = (false, String (digitChar d) r)).
  { intros r. clear Hq Hi Hne. digit_cases_with d ltac:(repeat split). }
  destruct negative.
  - exists (- q). split; [|simpl; rewrite Eq; reflexivity].
    rewrite app_cons, app_nil. unfold parseFloat.
    change (trimStart (String "-"%char (digits (d :: ip') +:+ String "."%char (digits fp))) 0)
      with (String "-"%char (digits (d :: ip') +:+ String "."%char (digits fp))).
    cbv iota beta. simpl digits. rewrite app_cons.
    destruct (Hstart (digits ip' +:+ String "."%char (digits fp))) as (_ & -> & _).
    simpl digits in Hq. rewrite app_cons in Hq. rewrite Hq. reflexivity.
  - exists q. split; [|simpl; exact Eq].
    rewrite app_nil. unfold parseFloat. simpl digits. rewrite app_cons.
    destruct (Hstart (digits ip' +:+ String "."%char (digits fp))) as (-> & Hinf & Hsign).
    simpl digits in Hq. rewrite app_cons in Hq.
    revert Hsign.
    destruct (match String (digitChar d) (digits ip' +:+ String "."%char (digits fp)) with
              | String "-"%char r' => (true, r')
              | String "+"%char r' => (false, r')
              | _ => (false, String (digitChar d) (digits ip' +:+ String "."%char (digits fp)))
              end) as [neg s'].
    intros [= -> ->]. rewrite Hinf, Hq. reflexivity.
Qed.

End FormatFacts.

Module ParseClaims.
Import Parse NumberFormat FormatFacts.
Local Open Scope Q_scope.

Lemma italian_not_empty negative groups decimals pre post :
  String.eqb (pre +:+ italian negative groups decimals +:+ post) "" = false.
Proof.
  apply String.eqb_neq. intros H.
  assert (E : forall a b : string, a +:+ b = "" -> b = "").
  { intros a b. destruct a; [intros Hb; exact Hb | discriminate]. }
  apply E in H. unfold italian in H. rewrite !app_assoc in H.
  apply E in H. apply E in H. discriminate H.
Qed.

Lemma cleanStr_italian negative groups decimals pre post :
  Forall isDigits groups -> isDigits decimals -> Padding pre -> Padding post ->
  cleanStr (pre +:+ italian negative groups decimals +:+ post)
  = (if negative then "-" else "") +:+ digits (concat groups)
    +:+ String "."%char (digits decimals).
Proof.
  intros Hg Hd Hpre Hpost. unfold cleanStr, italian.
  rewrite removeAll_padding by exact Hpre.
  rewrite !app_assoc.
  assert (E1 : removeAll (euro :: whitespace)
                 ((if negative then "-" else "") +:+ grouped groups
                  +:+ String ","%char (digits decimals) +:+ post) 0
               = (if negative then "-" else "") +:+ grouped groups
                 +:+ String ","%char (digits decimals)).
  { assert (T : removeAll (euro :: whitespace)
                  (grouped groups +:+ String ","%char (digits decimals) +:+ post) 0
                = grouped groups +:+ String ","%char (digits decimals)).
    { rewrite strip_grouped by exact Hg.
      rewrite app_cons, removeAll_plain by reflexivity.
      rewrite strip_digits by exact Hd.
      rewrite removeAll_only_padding by exact Hpost. rewrite app_empty_r. reflexivity. }
    destruct negative.
    - rewrite app_cons, app_nil, removeAll_plain by reflexivity. rewrite T. reflexivity.
    - rewrite !app_nil. exact T. }
  rewrite E1.
  assert (T2 : removeAll ["."] (grouped groups +:+ String ","%char (digits decimals)) 0
               = digits (concat groups) +:+ String ","%char (digits decimals)).
  { rewrite undot_grouped by exact Hg.
    change (removeAll ["."] (String ","%char (digits decimals)) 0)
      with (String ","%char (removeAll ["."] (digits decimals) 0)).
    rewrite <- (app_empty_r (digits decimals)) at 1.
    rewrite undot_digits by exact Hd. rewrite app_empty_r. reflexivity. }
  assert (Hc : isDigits (concat groups)).
  { clear -Hg. induction Hg as [|g gs H1 _ IH]; [constructor|].
    simpl. apply Forall_app. split; assumption. }
  destruct negative.
  - rewrite !app_cons, !app_nil.
    change (removeAll ["."] (String "-"%char (grouped groups
              +:+ String ","%char (digits decimals))) 0)
      with (String "-"%char (removeAll ["."] (grouped groups
              +:+ String ","%char (digits decimals)) 0)).
    rewrite T2. simpl replaceFirstComma. rewrite comma_after_digits by exact Hc.
    reflexivity.
  - rewrite !app_nil, T2. apply comma_after_digits, Hc.
Qed.

(** C5 (as amended).  [parseMyFloat] reads a number written the Italian
    way, with dots between groups of digits and a comma before the
    decimals, to the number written, whatever euro signs and white space
    surround it; it returns a numeric cell unchanged; it never returns NaN,
    and a text that [parseFloat] cannot read after the clean-up gives 0. *)
Theorem parseMyFloat_reads_italian (negative : bool) (groups : list (list nat))
    (decimals : list nat) (pre post : string) (value : Cell) :
  Forall isDigits groups -> isDigits decimals -> concat groups <> [] ->
  Padding pre -> Padding post ->
  sameNumber (parseMyFloat (CStr (pre +:+ italian negative groups decimals +:+ post)))
             (Num (written negative groups decimals))
  /\ (forall q, value = CNum q -> parseMyFloat value = Num q)
  /\ parseMyFloat value <> NaN
  /\ (forall s, value = CStr s -> parseFloat (cleanStr s) = NaN ->
        parseMyFloat value = Num 0).
Proof.
  intros Hg Hd Hne Hpre Hpost. split; [|split; [|split]].
  - unfold parseMyFloat. cbn [truthy cellText].
    rewrite italian_not_empty. cbn [negb].
    rewrite cleanStr_italian by assumption.
    assert (Hc : isDigits (concat groups)).
    { clear -Hg. induction Hg as [|g gs H1 _ IH]; [constructor|].
      simpl. apply Forall_app. split; assumption. }
    destruct (parseFloat_written negative (concat groups) decimals Hc Hd Hne) as (q & -> & Eq).
    cbn [isNaN sameNumber]. exact Eq.
  - intros q ->. reflexivity.
  - unfold parseMyFloat. destruct value as [|q|s|b]; try discriminate.
    + destruct (negb (truthy (CStr s))); [discriminate|].
      destruct (parseFloat (cleanStr (cellText (CStr s)))); discriminate.
    + destruct (negb (truthy (CBool b))); [discriminate|].
      destruct (parseFloat (cleanStr (cellText (CBool b)))); discriminate.
  - intros s -> Hnan. unfold parseMyFloat. cbn [cellText].
    destruct (negb (truthy (CStr s))); [reflexivity|]. rewrite Hnan. reflexivity.
Qed.

(** The amount of the source's own example, [1.250,50] followed by a blank
    and the euro sign. *)
Lemma parseMyFloat_reads_italian_witness :
  sameNumber
    (parseMyFloat (CStr ("" +:+ italian false [[1]; [2; 5; 0]]%nat [5; 0]%nat
                          +:+ (" " +:+ euro +:+ ""))))
    (Num (written false [[1]; [2; 5; 0]]%nat [5; 0]%nat))
  /\ written false [[1]; [2; 5; 0]]%nat [5; 0]%nat == 1250.5
  /\ parseMyFloat (CStr "n/a") = Num 0.
Proof.
  destruct (parseMyFloat_reads_italian false [[1]; [2; 5; 0]]%nat [5; 0]%nat
              "" (" " +:+ euro +:+ "") (CStr "n/a")) as (H1 & _ & _ & H4).
  - repeat constructor.
  - repeat constructor.
  - discriminate.
  - constructor.
  - apply padding_cons; [vm_compute; tauto|].
    apply padding_cons; [left; reflexivity|]. constructor.
  - split; [exact H1|]. split; [reflexivity|].
    apply (H4 "n/a"); reflexivity.
Defined.

(** C5 as stated fails on the US format: the dot of [1,234.56] is removed
    as a thousands separator and the comma becomes the decimal point, so
    the text is read as 1.23456. *)
Lemma parseMyFloat_us_format :
  sameNumber (parseMyFloat (CStr "1,234.56")) (Num 1.23456)
  /\ ~ sameNumber (parseMyFloat (CStr "1,234.56")) (Num 1234.56).
Proof.
  split.
  - vm_compute. reflexivity.
  - vm_compute. discriminate.
Qed.

End ParseClaims.

(** ** The normalizer *)

Module NormalizerFacts.
Import Parse Fiscal.
Local Open Scope Q_scope.

Lemma In_insertByDate {N} (x y : TradeOf N) l :
  In y (insertByDate x l) <-> y = x \/ In y l.
Proof.
  induction l as [|z l IH]; simpl.
  - intuition.
  - destruct (date_leb (date x) (date z)); simpl; [intuition|].
    rewrite IH. intuition.
Qed.

(** Sorting keeps the elements. *)
Lemma In_sortByDate {N} (y : TradeOf N) l : In y (sortByDate l) <-> In y l.
Proof.
  induction l as [|x l IH]; simpl; [reflexivity|].
  rewrite In_insertByDate, IH. intuition.
Qed.

Lemma Forall_sortByDate {N} (P : TradeOf N -> Prop) l :
  Forall P l -> Forall P (sortByDate l).
Proof.
  rewrite !List.Forall_forall. intros H x Hx. apply H, In_sortByDate, Hx.
Qed.

(** A row that is not skipped is in the output. *)
Lemma normalizeData_row now dates security actions quantity priceCol spentCol typeCol
    isCryptoMode (i : nat) (sec : string) (tr : TradeOf jsnum) :
  security !! i = Some sec ->
  normalizeRow now dates actions quantity priceCol spentCol typeCol isCryptoMode i sec
    = Some tr ->
  In tr (normalizeData now dates security actions quantity priceCol spentCol typeCol
           isCryptoMode).
Proof.
  intros Hi Hr. unfold normalizeData. apply In_sortByDate.
  apply list_elem_of_In. apply list_elem_of_omap.
  exists (Some tr). split; [|reflexivity].
  apply list_elem_of_lookup. exists i.
  rewrite list_lookup_imap, Hi. simpl. rewrite Hr. reflexivity.
Qed.

Lemma textAt_blank (col : list string) (i : nat) :
  col !! i = None \/ col !! i = Some "" -> textAt col i = None.
Proof. unfold textAt. intros [-> | ->]; reflexivity. Qed.

(** The record a row with a blank action becomes. *)
Lemma normalizeRow_blank_action now dates actions quantity priceCol spentCol typeCol
    isCryptoMode (i : nat) (sec : string) :
  sec <> "" -> isCashTicker sec = false ->
  actions !! i = None \/ actions !! i = Some "" ->
  exists tr,
    normalizeRow now dates actions quantity priceCol spentCol typeCol isCryptoMode i sec
      = Some tr
    /\ ticker tr = sec /\ action tr = "Buy".
Proof.
  intros Hsec Hcash Hact. unfold normalizeRow.
  apply String.eqb_neq in Hsec. rewrite Hsec, Hcash, (textAt_blank _ _ Hact). simpl.
  destruct isCryptoMode; eexists; split; try reflexivity; split; reflexivity.
Qed.

End NormalizerFacts.

(** ** The matching loops of the reporting engines *)

Module EngineFacts.
Import Parse Fiscal Reports EngineInv.
Local Open Scope Q_scope.

Lemma toFixed_residue p x : atPrecision p x -> Qeq_bool (toFixed p (x - toFixed p x)) 0 = true.
Proof.
  intros H. unfold atPrecision in H. apply Qeq_bool_iff.
  assert (E : x - toFixed p x == 0) by lra.
  rewrite (toFixed_Qeq p _ _ E). apply atPrecision_0.
Qed.

Lemma toFixed_self_difference p s : Qltb 0 (toFixed p (s - s)) = false.
Proof.
  apply Qltb_ge. assert (E : s - s == 0) by lra.
  rewrite (toFixed_Qeq p _ _ E). pose proof (atPrecision_0 p) as H.
  unfold atPrecision in H. lra.
Qed.

(** *** Termination of the loops

    The loop condition is false in the state returned: the fuel given by
    the callers, twice the length of the queue, is never exhausted. *)

Lemma closeLots_idle fuel p salePrice s lots pnl :
  Qltb 0 s = false -> closeLots fuel p salePrice s lots pnl = (lots, s, pnl).
Proof.
  intros Hs. destruct fuel; simpl; [reflexivity|].
  destruct lots; [reflexivity|]. rewrite Hs. reflexivity.
Qed.

Lemma closeLots_exits p salePrice : forall fuel lots s pnl,
  (iterationsLeft shares p lots <= fuel)%nat ->
  closeLotsExited (closeLots fuel p salePrice s lots pnl).
Proof.
  induction fuel as [|fuel IH]; intros lots s pnl Hfuel.
  - destruct lots as [|l lots]; simpl; [right; reflexivity|].
    exfalso. unfold iterationsLeft in Hfuel. simpl in Hfuel.
    destruct (Qeq_bool _ _); lia.
  - destruct lots as [|l lots]; [right; reflexivity|].
    simpl. destruct (Qltb 0 s) eqn:Es; [|left; exact Es].
    destruct (Qle_bool (toFixed p (shares l)) s) eqn:Ec.
    + simpl. destruct (Qeq_bool (toFixed p (shares l - toFixed p (shares l))) 0) eqn:Ez.
      * apply IH. unfold iterationsLeft in *. simpl in *.
        destruct (headOnGrid shares p lots), (Qeq_bool (toFixed p (shares l)) (shares l)); lia.
      * apply IH. unfold iterationsLeft in *. simpl in *.
        destruct (Qeq_bool (toFixed p (shares l)) (shares l)) eqn:Eg.
        -- apply Qeq_bool_iff in Eg. rewrite (toFixed_residue p (shares l) Eg) in Ez.
           discriminate.
        -- assert (Hg : Qeq_bool (toFixed p (toFixed p (shares l - toFixed p (shares l))))
                                 (toFixed p (shares l - toFixed p (shares l))) = true)
             by (apply Qeq_bool_iff, atPrecision_toFixed).
           rewrite Hg. lia.
    + rewrite closeLots_idle by apply toFixed_self_difference.
      left. apply toFixed_self_difference.
Qed.

Lemma closeLots_fuel p salePrice lots s pnl :
  closeLotsExited (closeLots (loopFuel lots) p salePrice s lots pnl).
Proof.
  apply closeLots_exits. unfold iterationsLeft, loopFuel. lia.
Qed.

Lemma matchLots_idle fuel p s lots totalCost sharesSold :
  Qltb 0 s = false ->
  matchLots fuel p s lots totalCost sharesSold = (lots, s, totalCost, sharesSold).
Proof.
  intros Hs. destruct fuel; simpl; [reflexivity|].
  destruct lots; [reflexivity|]. rewrite Hs. reflexivity.
Qed.

Lemma matchLots_exits p : forall fuel lots s totalCost sharesSold,
  (iterationsLeft fshares p lots <= fuel)%nat ->
  matchLotsExited (matchLots fuel p s lots totalCost sharesSold).
Proof.
  induction fuel as [|fuel IH]; intros lots s totalCost sharesSold Hfuel.
  - destruct lots as [|l lots]; simpl; [right; reflexivity|].
    exfalso. unfold iterationsLeft in Hfuel. simpl in Hfuel.
    destruct (Qeq_bool _ _); lia.
  - destruct lots as [|l lots]; [right; reflexivity|].
    simpl. destruct (Qltb 0 s) eqn:Es; [|left; exact Es].
    destruct (Qle_bool (toFixed p (fshares l)) s) eqn:Ec.
    + simpl. destruct (Qeq_bool (toFixed p (fshares l - toFixed p (fshares l))) 0) eqn:Ez.
      * apply IH. unfold iterationsLeft in *. simpl in *.
        destruct (headOnGrid fshares p lots), (Qeq_bool (toFixed p (fshares l)) (fshares l)); lia.
      * apply IH. unfold iterationsLeft in *. simpl in *.
        destruct (Qeq_bool (toFixed p (fshares l)) (fshares l)) eqn:Eg.
        -- apply Qeq_bool_iff in Eg. rewrite (toFixed_residue p (fshares l) Eg) in Ez.
           discriminate.
        -- assert (Hg : Qeq_bool (toFixed p (toFixed p (fshares l - toFixed p (fshares l))))
                                 (toFixed p (fshares l - toFixed p (fshares l))) = true)
             by (apply Qeq_bool_iff, atPrecision_toFixed).
           rewrite Hg. lia.
    + rewrite matchLots_idle by apply toFixed_self_difference.
      left. apply toFixed_self_difference.
Qed.

Lemma matchLots_fuel p lots s totalCost sharesSold :
  matchLotsExited (matchLots (2 * length lots) p s lots totalCost sharesSold).
Proof.
  apply matchLots_exits. unfold iterationsLeft. lia.
Qed.

(** *** Buy-class actions in the engines *)

Lemma isDividend_not_buy a : isDividend a = true -> isBuyAction a = false.
Proof.
  unfold isDividend. intros H. apply orb_true_iff in H.
  destruct H as [H|H]; apply String.eqb_eq in H; subst a; reflexivity.
Qed.

Lemma isBuyAction_not_dividend a : isBuyAction a = true -> isDividend a = false.
Proof.
  intros H. destruct (isDividend a) eqn:E; [|reflexivity].
  apply isDividend_not_buy in E. congruence.
Qed.

(** [calculatePortfolioStats]: a buy-class trade appends the lot
    [{shares: qty, price: unitPrice, date}] to the tail of the ticker's
    queue, creating the queue on the first buy, and adds [totalSpent] to the
    invested capital. *)
Lemma processTrade_buy (b : Book) (t : Trade) :
  isBuyAction (action t) = true ->
  portfolio (processTrade b t) !! ticker t
  = Some (default [] (portfolio b !! ticker t) ++ [mkLot (qty t) (unitPrice t) (date t)])
  /\ exists s,
       stats (processTrade b t) !! ticker t = Some s
       /\ totalInvestedHistorical s
          == totalInvestedHistorical (default (newStats (type t)) (stats b !! ticker t))
             + totalSpent t.
Proof.
  intros Hb. unfold processTrade. rewrite (isBuyAction_not_dividend _ Hb), Hb. simpl.
  rewrite !lookup_insert_eq. split.
  - destruct (portfolio b !! ticker t); reflexivity.
  - eexists. split; [reflexivity|]. simpl. reflexivity.
Qed.

(** [calculateFiscalReportDetails]: the same, with the lot
    [{shares: qty, price: unitPrice}]. *)
Lemma fiscalStep_buy (p : gmap string (list FLot)) (report : list SaleRow) (t : Trade) :
  isBuyAction (action t) = true ->
  fst (fiscalStep (p, report) t) !! ticker t
  = Some (default [] (p !! ticker t) ++ [mkFLot (qty t) (unitPrice t)])
  /\ snd (fiscalStep (p, report) t) = report.
Proof.
  intros Hb. unfold fiscalStep. rewrite Hb.
  destruct (p !! ticker t); simpl; rewrite lookup_insert_eq; split; reflexivity.
Qed.

End EngineFacts.

Module EngineClaims.
Import Parse Fiscal Reports NormalizerFacts EngineFacts.
Local Open Scope Q_scope.

(** C1.  On the trades Buy 10 at 100 (2023-01-01), Buy 10 at 120
    (2023-06-01), Sell 15 at 150 (2024-01-01) of one ticker, the FIFO
    matcher of the fiscal report records one sale of 15 shares with a
    realized profit of 650 and is left with one lot of 5 shares at unit
    cost 120; the matcher of the portfolio dashboard accumulates a trading
    P&L of 650 and is left with the same lot. *)
Theorem fifo_scenario_650 :
  let trades : list Trade :=
    [ mkTrade (mkDate 2023 1 1) "ACME" "Buy" 10 100 1000 "Stock";
      mkTrade (mkDate 2023 6 1) "ACME" "Buy" 10 120 1200 "Stock";
      mkTrade (mkDate 2024 1 1) "ACME" "Sell" 15 150 2250 "Stock" ] in
  map (fun r => (soldQty r, salePnl r)) (calculateFiscalReportDetails trades) = [(15, 650)]
  /\ fst (fiscalRun trades) = {[ "ACME" := [mkFLot 5 120] ]}
  /\ tradingPnL <$> (stats (processTransactions trades) !! "ACME") = Some 650
  /\ portfolio (processTransactions trades)
     = {[ "ACME" := [mkLot 5 120 (mkDate 2023 6 1)] ]}.
Proof.
  repeat (split; [vm_compute; reflexivity|]). vm_compute. reflexivity.
Qed.

(** C10.  A row with a non-empty ticker that is not a cash placeholder and
    with an empty or missing action cell is emitted as a trade whose action
    is ["Buy"]; downstream, such a trade (its numbers being finite) appends
    a lot to its ticker's queue and adds its [totalSpent] to the invested
    capital. *)
Theorem blank_action_is_buy (now : Date) (dates : list (option Date))
    (security actions : list string) (quantity priceCol spentCol : list Cell)
    (typeCol : list string) (isCryptoMode : bool) (i : nat) (sec : string) :
  security !! i = Some sec ->
  sec <> "" ->
  isCashTicker sec = false ->
  actions !! i = None \/ actions !! i = Some "" ->
  exists tr : TradeOf jsnum,
    In tr (normalizeData now dates security actions quantity priceCol spentCol typeCol
             isCryptoMode)
    /\ ticker tr = sec
    /\ action tr = "Buy"
    /\ forall (t : Trade) (b : Book),
         finiteTrade tr = Some t ->
         portfolio (processTrade b t) !! sec
         = Some (default [] (portfolio b !! sec) ++ [mkLot (qty t) (unitPrice t) (date t)])
         /\ exists s,
              stats (processTrade b t) !! sec = Some s
              /\ totalInvestedHistorical s
                 == totalInvestedHistorical (default (newStats (type t)) (stats b !! sec))
                    + totalSpent t.
Proof.
  intros Hi Hsec Hcash Hact.
  destruct (normalizeRow_blank_action now dates actions quantity priceCol spentCol typeCol
              isCryptoMode i sec Hsec Hcash Hact) as (tr & Hrow & Htick & Hbuy).
  exists tr. split; [eapply normalizeData_row; eassumption|].
  split; [exact Htick|]. split; [exact Hbuy|].
  intros t b Hfin.
  assert (Ht : ticker t = sec /\ action t = "Buy").
  { unfold finiteTrade in Hfin.
    destruct (finiteNum (qty tr)), (finiteNum (unitPrice tr)), (finiteNum (totalSpent tr));
      try discriminate.
    injection Hfin as <-. simpl. split; assumption. }
  destruct Ht as [Ht Ha]. rewrite <- Ht. apply processTrade_buy. rewrite Ha. reflexivity.
Qed.

(** A stock row "ACME", 3 shares at 20, with an empty action cell. *)
Lemma blank_action_is_buy_witness :
  exists tr : TradeOf jsnum,
    In tr (normalizeData (mkDate 2025 1 1) [Some (mkDate 2024 5 2)] ["ACME"] [""]
             [CNum 3] [CNum 20] [] ["Stock"] false)
    /\ ticker tr = "ACME"
    /\ action tr = "Buy"
    /\ forall (t : Trade) (b : Book),
         finiteTrade tr = Some t ->
         portfolio (processTrade b t) !! "ACME"
         = Some (default [] (portfolio b !! "ACME") ++ [mkLot (qty t) (unitPrice t) (date t)])
         /\ exists s,
              stats (processTrade b t) !! "ACME" = Some s
              /\ totalInvestedHistorical s
                 == totalInvestedHistorical (default (newStats (type t)) (stats b !! "ACME"))
                    + totalSpent t.
Proof.
  apply (blank_action_is_buy (mkDate 2025 1 1) [Some (mkDate 2024 5 2)] ["ACME"] [""]
           [CNum 3] [CNum 20] [] ["Stock"] false 0 "ACME").
  - reflexivity.
  - discriminate.
  - reflexivity.
  - right. reflexivity.
Defined.

(** C8, on the live positions matcher.  [processFifo] takes the buy branch
    only for ["Buy"] and, in any letter case, ["DRIP"] and ["REWARD"]: a
    ["STAKING"], ["MINING"] or ["MINT"] row, or one whose action contains
    "BUY" without being ["Buy"], appends no lot, while the engines that
    consume the normalized trades append one for the same row. *)
Theorem processFifo_skips_buy_class_actions :
  let day := mkDate 2024 3 1 in
  Trading.myCryptoPositions [Trading.mkRow "ETH" "STAKING" 2 1500 (Some day)] = ∅
  /\ Trading.myCryptoPositions [Trading.mkRow "ETH" "MINING" 2 1500 (Some day)] = ∅
  /\ Trading.myCryptoPositions [Trading.mkRow "ETH" "MINT" 2 1500 (Some day)] = ∅
  /\ Trading.myStockPositions [Trading.mkRow "ACME" "BUY" 2 1500 (Some day)] = ∅
  /\ portfolio (processTransactions [mkTrade day "ETH" "STAKING" 2 1500 3000 "Crypto"])
     = {[ "ETH" := [mkLot 2 1500 day] ]}
  /\ fst (fiscalRun [mkTrade day "ETH" "STAKING" 2 1500 3000 "Crypto"])
     = {[ "ETH" := [mkFLot 2 1500] ]}.
Proof.
  repeat (split; [vm_compute; reflexivity|]). vm_compute. reflexivity.
Qed.

End EngineClaims.

(** ** The tax-credit basket *)

Module BasketFacts.
Import Fiscal Reports EngineInv.
Local Open Scope Q_scope.

Lemma Qmin_bounds a r : 0 <= a -> 0 <= r -> 0 <= Qmin a r /\ Qmin a r <= a /\ Qmin a r <= r.
Proof.
  intros Ha Hr. unfold Qmin. destruct (Qle_bool a r) eqn:E.
  - apply Qle_bool_iff in E. repeat split; lra.
  - apply Qle_bool_gt in E. repeat split; lra.
Qed.

(** Drawing on the basket keeps its entries and the gain left over
    non-negative. *)
Lemma useBasket_nonneg year (availableYears : list Z) :
  forall (minusBucket : gmap Z Q) used remaining,
  nonnegBasket minusBucket -> 0 <= remaining ->
  nonnegBasket (fst (fst (useBasket year availableYears minusBucket used remaining)))
  /\ 0 <= snd (useBasket year availableYears minusBucket used remaining).
Proof.
  induction availableYears as [|pastYear rest IH]; intros b used remaining Hb Hr; simpl.
  - split; assumption.
  - destruct (4 <? year - pastYear)%Z; [apply IH; assumption|].
    destruct (b !! pastYear) as [available|] eqn:E; [|apply IH; assumption].
    assert (Ha : 0 <= available) by (apply (Hb pastYear available E)).
    destruct (Qmin_bounds available remaining Ha Hr) as (M1 & M2 & M3).
    assert (Hb' : nonnegBasket
              (if Qeq_bool (available - Qmin available remaining) 0
               then delete pastYear (<[pastYear := available - Qmin available remaining]> b)
               else <[pastYear := available - Qmin available remaining]> b)).
    { assert (Hi : nonnegBasket (<[pastYear := available - Qmin available remaining]> b)).
      { apply map_Forall_insert_2; [lra | exact Hb]. }
      destruct (Qeq_bool _ 0); [apply map_Forall_delete|]; exact Hi. }
    destruct (Qeq_bool (remaining - Qmin available remaining) 0).
    + simpl. split; [exact Hb' | lra].
    + apply IH; [exact Hb' | lra].
Qed.

Lemma yearStep_taxes (minusBucket : gmap Z Q) year s divs :
  nonnegBasket minusBucket ->
  nonnegBasket (fst (yearStep minusBucket year s divs))
  /\ rowYear (snd (yearStep minusBucket year s divs)) = year
  /\ uselessGain (snd (yearStep minusBucket year s divs)) = gainNonCompensabile s + divs
  /\ taxedInFull (snd (yearStep minusBucket year s divs)).
Proof.
  intros Hb. unfold yearStep.
  set (gainNoComp := gainNonCompensabile s + divs).
  (* A *)
  set (partA := if Qltb 0 (gainCompensabile s) then _ else _).
  assert (HA : nonnegBasket (fst (fst partA))
               /\ gainNoComp <= snd partA
               /\ (gainCompensabile s <= 0 -> snd partA == gainNoComp)).
  { subst partA. destruct (Qltb 0 (gainCompensabile s)) eqn:Eg.
    - apply Qltb_lt in Eg.
      destruct (useBasket_nonneg year (sortedKeys minusBucket) minusBucket 0
                  (gainCompensabile s) Hb) as [H1 H2]; [lra|].
      destruct (useBasket year (sortedKeys minusBucket) minusBucket 0 (gainCompensabile s))
        as [[b used] remaining]. cbn [fst snd] in *.
      split; [exact H1|]. split; [lra|]. intros Hle. lra.
    - cbn [fst snd]. split; [exact Hb|]. split; [lra|]. intros _. lra. }
  destruct partA as [[bA usedA] baseA]. cbn [fst snd] in HA. destruct HA as (HA1 & HA2 & HA3).
  (* B *)
  set (partB := if Qltb 0 (lossAnno s) && Qltb (gainCompensabile s - lossAnno s) 0
                then _ else _).
  assert (HB : nonnegBasket (fst (fst partB))
               /\ gainNoComp <= snd partB
               /\ (gainCompensabile s <= 0 -> snd partB == gainNoComp)).
  { subst partB. destruct (Qltb 0 (lossAnno s) && Qltb (gainCompensabile s - lossAnno s) 0).
    - cbn [fst snd]. split; [|split; [lra | intros _; lra]].
      apply map_Forall_insert_2; [apply Qabs_nonneg | exact HA1].
    - cbn [fst snd]. split; [exact HA1|]. split; assumption. }
  destruct partB as [[bB usedB] baseB]. cbn [fst snd] in HB. destruct HB as (HB1 & HB2 & HB3).
  (* C *)
  set (partC := match bB !! (year - 4)%Z with Some _ => _ | None => _ end).
  assert (HC : nonnegBasket (fst partC)).
  { subst partC. destruct (bB !! (year - 4)%Z); cbn [fst snd];
      [apply map_Forall_delete|]; exact HB1. }
  destruct partC as [bC expired]. cbn [fst snd] in HC. cbn [fst snd rowYear uselessGain].
  split; [exact HC|]. split; [reflexivity|]. split; [reflexivity|].
  unfold taxedInFull. cbn [netTaxable uselessGain usefulGain taxDue]. fold gainNoComp.
  split; [exact HB2|]. split; [exact HB3|].
  apply Qmult_comp; reflexivity.
Qed.

Lemma yearLoop_taxes (yearlyStats : gmap Z YearStats) (yearlyDividends : gmap Z Q)
    (years : list Z) : forall minusBucket row,
  nonnegBasket minusBucket ->
  In row (snd (yearLoop yearlyStats yearlyDividends years minusBucket)) ->
  uselessGain row
  = gainNonCompensabile (default (mkYearStats 0 0 0) (yearlyStats !! rowYear row))
    + default 0 (yearlyDividends !! rowYear row)
  /\ taxedInFull row.
Proof.
  induction years as [|year rest IH]; intros b row Hb Hin; simpl in Hin.
  - destruct Hin.
  - pose proof (yearStep_taxes b year
                  (default (mkYearStats 0 0 0) (yearlyStats !! year))
                  (default 0 (yearlyDividends !! year)) Hb) as (H1 & H2 & H3 & H4).
    destruct (yearStep b year _ _) as [b' r]. simpl in *.
    specialize (IH b' row H1).
    destruct (yearLoop yearlyStats yearlyDividends rest b') as [final rows]. simpl in *.
    destruct Hin as [<- | Hin].
    + rewrite H2. split; assumption.
    + apply IH, Hin.
Qed.

(** A profit on an ETF sale goes to the non-compensable gains of its
    year. *)
Lemma addYearPnl_etf (m : gmap Z YearStats) (t : SaleRow) :
  saleType t = "ETF" -> 0 <= salePnl t ->
  exists s, addYearPnl m t !! saleYear t = Some s
    /\ gainNonCompensabile s
       == gainNonCompensabile (default (mkYearStats 0 0 0) (m !! saleYear t)) + salePnl t
    /\ gainCompensabile s = gainCompensabile (default (mkYearStats 0 0 0) (m !! saleYear t))
    /\ lossAnno s = lossAnno (default (mkYearStats 0 0 0) (m !! saleYear t)).
Proof.
  intros Ht Hp. unfold addYearPnl. rewrite lookup_insert_eq. eexists. split; [reflexivity|].
  apply Qle_bool_iff in Hp. rewrite Hp, Ht. simpl. split; [reflexivity|]. split; reflexivity.
Qed.

(** The clean-up of a year removes the entry that is four years old, so
    the amount of the urgent-expiry note, the sum of the entries four years
    old at the end of the year, is always 0. *)
Lemma nextExpiry_without_fourth_year (year : Z) (minusBucket : gmap Z Q) :
  minusBucket !! (year - 4)%Z = None -> nextExpiry year minusBucket = 0.
Proof.
  unfold nextExpiry.
  apply (map_fold_weak_ind
           (fun r (m : gmap Z Q) => m !! (year - 4)%Z = None -> r = 0)).
  - reflexivity.
  - intros i x m r Hi IH Hnone.
    destruct (decide (i = (year - 4)%Z)) as [->|Hne].
    + rewrite lookup_insert_eq in Hnone. discriminate.
    + rewrite lookup_insert_ne in Hnone by exact Hne.
      replace (4 - (year - i) =? 0)%Z with false by (symmetry; apply Z.eqb_neq; lia).
      apply IH, Hnone.
Qed.

Lemma yearStep_no_urgent_amount (minusBucket : gmap Z Q) year s divs :
  nextExpiry year (fst (yearStep minusBucket year s divs)) = 0.
Proof.
  apply nextExpiry_without_fourth_year. unfold yearStep.
  destruct (if Qltb 0 (gainCompensabile s) then _ else _) as [[bA usedA] baseA].
  destruct (if Qltb 0 (lossAnno s) && Qltb (gainCompensabile s - lossAnno s) 0
            then _ else _) as [[bB usedB] baseB].
  destruct (bB !! (year - 4)%Z) eqn:E; cbn [fst].
  - apply lookup_delete_eq.
  - exact E.
Qed.

End BasketFacts.

Module BasketClaims.
Import Fiscal Reports EngineInv BasketFacts.
Local Open Scope Q_scope.

(** C2, on a history with a gap.  A stock loss of 1000 is realized in 2020
    and the next realized trade is a gain of 500 in 2026.  In 2026 the entry
    of 2020 is six years old: it is not used (the whole gain is taxed), yet
    it is neither counted as expired nor removed, and the residual basket
    reported for 2026 still holds it.  The clean-up deletes only the entry
    of the year [year - 4]. *)
Theorem stale_basket_entry_survives_gap :
  let trades : list Trade :=
    [ mkTrade (mkDate 2020 1 1) "ACME" "Buy" 10 200 2000 "Stock";
      mkTrade (mkDate 2020 6 1) "ACME" "Sell" 10 100 1000 "Stock";
      mkTrade (mkDate 2026 1 1) "BOLT" "Buy" 10 100 1000 "Stock";
      mkTrade (mkDate 2026 6 1) "BOLT" "Sell" 10 150 1500 "Stock" ] in
  map (fun r => (rowYear r, basketUsed r, basketExpired r, netTaxable r, residualBasket r))
      (calculateZainettoReport trades)
  = [ (2020%Z, 0, 0, 0, 1000); (2026%Z, 0, 0, 500, 1000) ]
  /\ fst (zainettoRun trades) = {[ 2020%Z := 1000 ]}.
Proof.
  repeat (split; [vm_compute; reflexivity|]). vm_compute. reflexivity.
Qed.

(** Without a gap: the loss of 1000 from 2020 is drawn on in its fourth
    year, 2024, for the gain of 300; the 700 left are reported as expired in
    the row of 2024 itself, whose residual basket is 0. *)
Lemma basket_entry_in_its_fourth_year :
  let trades : list Trade :=
    [ mkTrade (mkDate 2020 1 1) "ACME" "Buy" 10 200 2000 "Stock";
      mkTrade (mkDate 2020 6 1) "ACME" "Sell" 10 100 1000 "Stock";
      mkTrade (mkDate 2021 5 1) "BOLT" "Dividend" 0 5 5 "Stock";
      mkTrade (mkDate 2022 5 1) "BOLT" "Dividend" 0 5 5 "Stock";
      mkTrade (mkDate 2023 5 1) "BOLT" "Dividend" 0 5 5 "Stock";
      mkTrade (mkDate 2024 1 1) "CORE" "Buy" 10 100 1000 "Stock";
      mkTrade (mkDate 2024 6 1) "CORE" "Sell" 10 130 1300 "Stock" ] in
  map (fun r => (rowYear r, basketUsed r, basketExpired r, netTaxable r, residualBasket r))
      (calculateZainettoReport trades)
  = [ (2020%Z, 0, 0, 0, 1000); (2021%Z, 0, 0, 5, 1000); (2022%Z, 0, 0, 5, 1000);
      (2023%Z, 0, 0, 5, 1000); (2024%Z, 300, 700, 0, 0) ].
Proof.
  vm_compute. reflexivity.
Qed.

(** C3, on a net-loss year with some compensable gain.  The basket holds
    1000 from 2020; in 2021 stock sales gain 100 and lose 300.  The year
    opens an entry of 200, reports no basket used and a taxable base of 0,
    but the entry of 2020 has been drawn down by the 100 of gain: it is left
    at 900 and the residual basket is 1100. *)
Theorem net_loss_year_draws_down_basket :
  let trades : list Trade :=
    [ mkTrade (mkDate 2020 1 1) "ACME" "Buy" 10 200 2000 "Stock";
      mkTrade (mkDate 2020 6 1) "ACME" "Sell" 10 100 1000 "Stock";
      mkTrade (mkDate 2021 1 1) "BOLT" "Buy" 10 100 1000 "Stock";
      mkTrade (mkDate 2021 2 1) "BOLT" "Sell" 10 110 1100 "Stock";
      mkTrade (mkDate 2021 3 1) "CORE" "Buy" 10 100 1000 "Stock";
      mkTrade (mkDate 2021 4 1) "CORE" "Sell" 10 70 700 "Stock" ] in
  map (fun r => (rowYear r, newLosses r, basketUsed r, netTaxable r, residualBasket r))
      (calculateZainettoReport trades)
  = [ (2020%Z, 1000, 0, 0, 1000); (2021%Z, 200, 0, 0, 1100) ]
  /\ fst (zainettoRun trades) = {[ 2020%Z := 900; 2021%Z := 200 ]}
  /\ fst (yearStep {[ 2020%Z := 1000 ]} 2021 (mkYearStats 100 0 300) 0)
     = {[ 2020%Z := 900; 2021%Z := 200 ]}.
Proof.
  repeat (split; [vm_compute; reflexivity|]). vm_compute. reflexivity.
Qed.

End BasketClaims.

(** ** The holdings replay against the live matcher *)

Module AgreementFacts.
Import Fiscal Reports Agreement EngineInv AgreementInv EngineFacts.
Local Open Scope Q_scope.

(** *** Totals of a queue *)

Lemma fold_currentShares (lots : list Lot) (a : Q) :
  fold_left (fun acc lot => acc + shares lot) lots a == a + currentShares lots.
Proof.
  unfold currentShares. revert a. induction lots as [|l lots IH]; intros a; simpl.
  - lra.
  - rewrite IH, (IH (0 + shares l)). lra.
Qed.

Lemma currentShares_cons l (lots : list Lot) :
  currentShares (l :: lots) == shares l + currentShares lots.
Proof. unfold currentShares at 1. simpl. rewrite fold_currentShares. lra. Qed.

Lemma currentShares_snoc (lots : list Lot) l :
  currentShares (lots ++ [l]) == currentShares lots + shares l.
Proof.
  induction lots as [|x lots IH]; simpl.
  - rewrite currentShares_cons. unfold currentShares. simpl. lra.
  - rewrite !currentShares_cons, IH. lra.
Qed.

Lemma fold_currentBookValue (lots : list Lot) (a : Q) :
  fold_left (fun acc lot => acc + shares lot * price lot) lots a
  == a + currentBookValue lots.
Proof.
  unfold currentBookValue. revert a. induction lots as [|l lots IH]; intros a; simpl.
  - lra.
  - rewrite IH, (IH (0 + shares l * price l)). lra.
Qed.

Lemma currentBookValue_cons l (lots : list Lot) :
  currentBookValue (l :: lots) == shares l * price l + currentBookValue lots.
Proof. unfold currentBookValue at 1. simpl. rewrite fold_currentBookValue. lra. Qed.

Lemma currentBookValue_snoc (lots : list Lot) l :
  currentBookValue (lots ++ [l]) == currentBookValue lots + shares l * price l.
Proof.
  induction lots as [|x lots IH]; simpl.
  - rewrite currentBookValue_cons. unfold currentBookValue. simpl. lra.
  - rewrite !currentBookValue_cons, IH. lra.
Qed.

(** Lots at one unit cost are worth that cost times their shares. *)
Lemma currentBookValue_oneCost (c : Q) (lots : list Lot) :
  Forall (fun l => price l == c) lots ->
  currentBookValue lots == c * currentShares lots.
Proof.
  induction 1 as [|l lots Hl _ IH].
  - unfold currentBookValue, currentShares. simpl. lra.
  - rewrite currentBookValue_cons, currentShares_cons, IH, Hl. lra.
Qed.

Lemma oneCost_Forall (lots : list Lot) :
  oneCost lots = true -> exists c, Forall (fun l => price l == c) lots.
Proof.
  destruct lots as [|l rest]; intros H.
  - exists 0. constructor.
  - exists (price l). constructor; [reflexivity|].
    simpl in H. rewrite forallb_forall in H. apply List.Forall_forall.
    intros x Hx. apply Qeq_bool_iff, H, Hx.
Qed.

(** *** The FIFO loop on a covered sell *)

Lemma fineGrid_precisionOf (t : Trade) : fineGrid (precisionOf t).
Proof.
  unfold precisionOf. destruct (String.eqb (type t) "Crypto"); intros x Hx.
  - apply atPrecision_5_8, Hx.
  - exact Hx.
Qed.

Lemma closeLots_nil fuel p salePrice s pnl :
  closeLots fuel p salePrice s [] pnl = ([], s, pnl).
Proof. destruct fuel; reflexivity. Qed.

Lemma closeLots_covered p salePrice (lots : list Lot) : forall fuel s pnl,
  fineGrid p ->
  Forall lotFine lots -> 0 <= s -> atPrecision 5 s -> s <= currentShares lots ->
  (length lots <= fuel)%nat ->
  Forall lotFine (fst (fst (closeLots fuel p salePrice s lots pnl)))
  /\ currentShares (fst (fst (closeLots fuel p salePrice s lots pnl)))
     == currentShares lots - s
  /\ (forall c, Forall (fun l => price l == c) lots ->
        Forall (fun l => price l == c) (fst (fst (closeLots fuel p salePrice s lots pnl)))).
Proof.
  induction lots as [|l lots IH]; intros fuel s pnl Hp Hl Hs Hg Hle Hfuel.
  - rewrite closeLots_nil. cbn [fst]. split; [constructor|]. split; [|intros; constructor].
    unfold currentShares in *. simpl in *. lra.
  - destruct fuel as [|fuel]; [simpl in Hfuel; lia|].
    inversion Hl as [|? ? [Hl0 Hl5] Hlots]; subst.
    rewrite currentShares_cons in Hle.
    assert (Hlp : toFixed p (shares l) == shares l) by (apply Hp, Hl5).
    cbn [closeLots]. destruct (Qltb 0 s) eqn:Es.
    + destruct (Qle_bool (toFixed p (shares l)) s) eqn:Ec.
      * apply Qle_bool_iff in Ec. cbn [setShares shares price].
        rewrite (toFixed_residue p (shares l) (Hp _ Hl5)).
        assert (H5 : atPrecision 5 (s - shares l)) by (apply atPrecision_minus; assumption).
        assert (Es' : toFixed p (s - toFixed p (shares l)) == s - shares l).
        { assert (E : s - toFixed p (shares l) == s - shares l) by lra.
          rewrite (toFixed_Qeq p _ _ E). apply Hp, H5. }
        destruct (IH fuel (toFixed p (s - toFixed p (shares l)))
                    (pnl + (toFixed p (shares l) * salePrice - toFixed p (shares l) * price l))
                    Hp Hlots) as (I1 & I2 & I3).
        { lra. }
        { eapply atPrecision_Qeq; [symmetry; exact Es' | exact H5]. }
        { lra. }
        { simpl in Hfuel. lia. }
        split; [exact I1|]. split.
        -- rewrite I2, currentShares_cons. lra.
        -- intros c Hc. inversion Hc; subst. apply I3. assumption.
      * apply Qle_bool_gt in Ec. cbn [setShares shares price].
        assert (H5 : atPrecision 5 (shares l - s)) by (apply atPrecision_minus; assumption).
        assert (Ex : toFixed p (shares l - s) == shares l - s) by (apply Hp, H5).
        assert (Enz : Qeq_bool (toFixed p (shares l - s)) 0 = false).
        { destruct (Qeq_bool (toFixed p (shares l - s)) 0) eqn:E; [|reflexivity].
          apply Qeq_bool_iff in E. lra. }
        rewrite Enz. rewrite closeLots_idle by apply toFixed_self_difference.
        cbn [fst]. split; [|split].
        -- constructor; [|exact Hlots]. split; unfold setShares; cbn [shares].
           ++ lra.
           ++ eapply atPrecision_Qeq; [symmetry; exact Ex | exact H5].
        -- rewrite !currentShares_cons. unfold setShares. cbn [shares]. lra.
        -- intros c Hc. inversion Hc; subst. constructor; assumption.
    + apply Qltb_ge in Es. cbn [fst]. split; [exact Hl|]. split; [|intros c Hc; exact Hc].
      rewrite !currentShares_cons. lra.
Qed.


(** *** One trade in both engines *)

Lemma openShares_lots b t : openShares b t = currentShares (default [] (portfolio b !! t)).
Proof. unfold openShares, tickerValue. destruct (portfolio b !! t); reflexivity. Qed.

Lemma openBookValue_lots b t :
  openBookValue b t = currentBookValue (default [] (portfolio b !! t)).
Proof. unfold openBookValue, tickerValue. destruct (portfolio b !! t); reflexivity. Qed.

Lemma currentShares_nonneg (lots : list Lot) : Forall lotFine lots -> 0 <= currentShares lots.
Proof.
  induction 1 as [|l lots [Hl _] _ IH].
  - unfold currentShares. simpl. lra.
  - rewrite currentShares_cons. lra.
Qed.

Lemma fineBook_lots b t : fineBook b -> Forall lotFine (default [] (portfolio b !! t)).
Proof.
  intros Hb. destruct (portfolio b !! t) as [lots|] eqn:E; simpl; [eapply Hb, E | constructor].
Qed.

Lemma holdStep_eq (holdings : gmap string Holding) (trade : Trade) :
  holdStep holdings trade
  = <[ticker trade :=
        updatedHolding (default (mkHolding 0 0 (type trade)) (holdings !! ticker trade)) trade]>
      holdings.
Proof. reflexivity. Qed.

Lemma heldQty_default holdings t ty :
  heldQty holdings t = hqty (default (mkHolding 0 0 ty) (holdings !! t)).
Proof. unfold heldQty. destruct (holdings !! t); reflexivity. Qed.

Lemma heldInvested_default holdings t ty :
  heldInvested holdings t = invested (default (mkHolding 0 0 ty) (holdings !! t)).
Proof. unfold heldInvested. destruct (holdings !! t); reflexivity. Qed.

Lemma held_after holdings trade :
  heldQty (holdStep holdings trade) (ticker trade)
  = hqty (updatedHolding (default (mkHolding 0 0 (type trade)) (holdings !! ticker trade)) trade)
  /\ heldInvested (holdStep holdings trade) (ticker trade)
     = invested (updatedHolding (default (mkHolding 0 0 (type trade))
                                          (holdings !! ticker trade)) trade).
Proof.
  rewrite holdStep_eq. unfold heldQty, heldInvested. rewrite lookup_insert_eq. split; reflexivity.
Qed.

Lemma held_elsewhere holdings trade t :
  t <> ticker trade ->
  heldQty (holdStep holdings trade) t = heldQty holdings t
  /\ heldInvested (holdStep holdings trade) t = heldInvested holdings t.
Proof.
  intros Hne. rewrite holdStep_eq. unfold heldQty, heldInvested.
  rewrite lookup_insert_ne by congruence. split; reflexivity.
Qed.

(** A trade touches the queue of its own ticker only. *)
Lemma processTrade_elsewhere b trade t :
  t <> ticker trade -> portfolio (processTrade b trade) !! t = portfolio b !! t.
Proof.
  intros Hne. unfold processTrade.
  destruct (isDividend (action trade)); [reflexivity|].
  destruct (isBuyAction (action trade)).
  { cbn [portfolio]. rewrite lookup_insert_ne by congruence. reflexivity. }
  destruct (String.eqb (action trade) "Sell"); [|reflexivity].
  destruct (portfolio b !! ticker trade) as [lots|]; [|reflexivity].
  destruct (closeLots _ _ _ _ lots _) as [[lots' s'] pnl'].
  destruct lots'; cbn [portfolio].
  - rewrite lookup_delete_ne by congruence. reflexivity.
  - rewrite lookup_insert_ne by congruence. reflexivity.
Qed.

Lemma processTrade_idle b trade :
  isBuyAction (action trade) = false -> String.eqb (action trade) "Sell" = false ->
  portfolio (processTrade b trade) = portfolio b.
Proof.
  intros Hb Hs. unfold processTrade. rewrite Hb, Hs.
  destruct (isDividend (action trade)); reflexivity.
Qed.

Lemma lotFine_app (lots : list Lot) (l : Lot) :
  Forall lotFine lots -> lotFine l -> Forall lotFine (lots ++ [l]).
Proof. intros H1 H2. apply Forall_app. split; [exact H1 | constructor; [exact H2 | constructor]]. Qed.

(** *** Covered sells on a grid of decimals *)

Lemma atPrecision_le (g p : nat) (x : Q) : (g <= p)%nat -> atPrecision g x -> atPrecision p x.
Proof.
  induction 1 as [|p _ IH]; intros Hx; [exact Hx|]. apply atPrecision_S, IH, Hx.
Qed.

(** The loop on a covered sell, for lots of at most [g] decimals read at a
    precision of at least [g]: the shares sold leave the queue, and no
    price changes. *)
Lemma closeLots_covered_at p g salePrice (lots : list Lot) : forall fuel s pnl,
  (g <= p)%nat ->
  Forall (lotOnGrid g) lots -> 0 <= s -> atPrecision g s -> s <= currentShares lots ->
  (length lots <= fuel)%nat ->
  Forall (lotOnGrid g) (fst (fst (closeLots fuel p salePrice s lots pnl)))
  /\ currentShares (fst (fst (closeLots fuel p salePrice s lots pnl)))
     == currentShares lots - s
  /\ (forall c, Forall (fun l => price l == c) lots ->
        Forall (fun l => price l == c) (fst (fst (closeLots fuel p salePrice s lots pnl)))).
Proof.
  induction lots as [|l lots IH]; intros fuel s pnl Hgp Hl Hs Hg Hle Hfuel.
  - rewrite closeLots_nil. cbn [fst]. split; [constructor|]. split; [|intros; constructor].
    unfold currentShares in *. simpl in *. lra.
  - destruct fuel as [|fuel]; [simpl in Hfuel; lia|].
    inversion Hl as [|? ? Hlg Hlots]; subst. unfold lotOnGrid in Hlg.
    rewrite currentShares_cons in Hle.
    assert (Hp : forall x, atPrecision g x -> atPrecision p x)
      by (intros x; apply atPrecision_le, Hgp).
    assert (Hlp : toFixed p (shares l) == shares l) by (apply Hp, Hlg).
    cbn [closeLots]. destruct (Qltb 0 s) eqn:Es.
    + destruct (Qle_bool (toFixed p (shares l)) s) eqn:Ec.
      * apply Qle_bool_iff in Ec. cbn [setShares shares price].
        rewrite (toFixed_residue p (shares l) (Hp _ Hlg)).
        assert (H5 : atPrecision g (s - shares l)) by (apply atPrecision_minus; assumption).
        assert (Es' : toFixed p (s - toFixed p (shares l)) == s - shares l).
        { assert (E : s - toFixed p (shares l) == s - shares l) by lra.
          rewrite (toFixed_Qeq p _ _ E). apply Hp, H5. }
        destruct (IH fuel (toFixed p (s - toFixed p (shares l)))
                    (pnl + (toFixed p (shares l) * salePrice - toFixed p (shares l) * price l))
                    Hgp Hlots) as (I1 & I2 & I3).
        { lra. }
        { eapply atPrecision_Qeq; [symmetry; exact Es' | exact H5]. }
        { lra. }
        { simpl in Hfuel. lia. }
        split; [exact I1|]. split.
        -- rewrite I2, currentShares_cons. lra.
        -- intros c Hc. inversion Hc; subst. apply I3. assumption.
      * apply Qle_bool_gt in Ec. cbn [setShares shares price].
        assert (H5 : atPrecision g (shares l - s)) by (apply atPrecision_minus; assumption).
        assert (Ex : toFixed p (shares l - s) == shares l - s) by (apply Hp, H5).
        assert (Enz : Qeq_bool (toFixed p (shares l - s)) 0 = false).
        { destruct (Qeq_bool (toFixed p (shares l - s)) 0) eqn:E; [|reflexivity].
          apply Qeq_bool_iff in E. lra. }
        rewrite Enz. rewrite closeLots_idle by apply toFixed_self_difference.
        cbn [fst]. split; [|split].
        -- constructor; [|exact Hlots]. unfold lotOnGrid, setShares. cbn [shares].
           eapply atPrecision_Qeq; [symmetry; exact Ex | exact H5].
        -- rewrite !currentShares_cons. unfold setShares. cbn [shares]. lra.
        -- intros c Hc. inversion Hc; subst. constructor; assumption.
    + apply Qltb_ge in Es. cbn [fst]. split; [exact Hl|]. split; [|intros c Hc; exact Hc].
      rewrite !currentShares_cons. lra.
Qed.

Lemma gridBook_lots decimals b t :
  gridBook decimals b -> Forall (lotOnGrid (decimals t)) (default [] (portfolio b !! t)).
Proof.
  intros Hb. destruct (portfolio b !! t) as [lots|] eqn:E; simpl; [eapply Hb, E | constructor].
Qed.

Lemma gridBook_empty decimals : gridBook decimals (mkBook ∅ ∅).
Proof. intros t lots E. cbn [portfolio] in E. rewrite lookup_empty in E. discriminate. Qed.

Lemma isBuyAction_not_Sell (a : string) :
  isBuyAction a = true -> String.eqb a "Sell" = false.
Proof.
  intros Hb. destruct (String.eqb a "Sell") eqn:E; [|reflexivity].
  apply String.eqb_eq in E. subst a. discriminate Hb.
Qed.

(** The queue a covered sell leaves for its ticker. *)
Lemma processTrade_sell decimals b trade :
  isBuyAction (action trade) = false -> String.eqb (action trade) "Sell" = true ->
  gridBook decimals b -> 0 <= qty trade ->
  atPrecision (decimals (ticker trade)) (qty trade) ->
  (decimals (ticker trade) <= precisionOf trade)%nat ->
  qty trade <= openShares b (ticker trade) ->
  let before := default [] (portfolio b !! ticker trade) in
  let after := default [] (portfolio (processTrade b trade) !! ticker trade) in
  Forall (lotOnGrid (decimals (ticker trade))) after
  /\ currentShares after == currentShares before - qty trade
  /\ (forall c, Forall (fun l => price l == c) before -> Forall (fun l => price l == c) after).
Proof.
  intros Hb Hs Hgrid Hq Hg Hgp Hle before after. subst before after.
  rewrite openShares_lots in Hle.
  unfold processTrade. rewrite Hb, Hs.
  assert (Hd : isDividend (action trade) = false).
  { apply String.eqb_eq in Hs. rewrite Hs. reflexivity. }
  rewrite Hd.
  destruct (portfolio b !! ticker trade) as [lots|] eqn:E; cbn [from_option id] in *.
  - assert (Es : toFixed (precisionOf trade) (qty trade) == qty trade)
      by (apply (atPrecision_le _ _ _ Hgp), Hg).
    destruct (closeLots_covered_at (precisionOf trade) (decimals (ticker trade))
                (unitPrice trade) lots (loopFuel lots)
                (toFixed (precisionOf trade) (qty trade))
                (tradingPnL (recordSell (touch (default (newStats (type trade))
                                                  (stats b !! ticker trade)) trade) trade))
                Hgp) as (C1 & C2 & C3).
    { eapply Hgrid, E. }
    { lra. }
    { eapply atPrecision_Qeq; [symmetry; exact Es | exact Hg]. }
    { lra. }
    { unfold loopFuel. lia. }
    destruct (closeLots _ _ _ _ lots _) as [[lots' s'] pnl']. cbn [fst] in *.
    destruct lots' as [|l' lots']; cbn [portfolio].
    + rewrite lookup_delete_eq. cbn [from_option id]. split; [constructor|]. split.
      * rewrite C2. lra.
      * intros c _. constructor.
    + rewrite lookup_insert_eq. cbn [from_option id]. split; [exact C1|]. split.
      * rewrite C2. lra.
      * exact C3.
  - cbn [portfolio]. rewrite E. cbn [from_option id].
    split; [constructor|]. split; [|intros c _; constructor].
    unfold currentShares in *. simpl in *. lra.
Qed.

(** A trade keeps the lots on their grids. *)
Lemma step_grid (today : Date) (decimals : string -> nat) (b : Book) (trade : Trade) :
  plainTrade today decimals trade ->
  (String.eqb (action trade) "Sell" = true ->
     Qle_bool (qty trade) (openShares b (ticker trade)) = true) ->
  gridBook decimals b ->
  gridBook decimals (processTrade b trade).
Proof.
  intros (_ & Hns & Hg & Hgp & Hq) Hcov Hgrid.
  assert (GridElsewhere :
            Forall (lotOnGrid (decimals (ticker trade)))
                   (default [] (portfolio (processTrade b trade) !! ticker trade)) ->
            gridBook decimals (processTrade b trade)).
  { intros Hat t lots E. destruct (decide (t = ticker trade)) as [->|Hne].
    - rewrite E in Hat. exact Hat.
    - rewrite processTrade_elsewhere in E by exact Hne. eapply Hgrid, E. }
  destruct (isBuyAction (action trade)) eqn:Hb.
  - destruct (processTrade_buy b trade Hb) as [Ep _].
    apply GridElsewhere. rewrite Ep. cbn [from_option id].
    apply Forall_app. split; [apply gridBook_lots, Hgrid|].
    constructor; [exact Hg | constructor].
  - destruct (String.eqb (action trade) "Sell") eqn:Hs.
    + specialize (Hcov eq_refl). apply Qle_bool_iff in Hcov.
      assert (Hq' : 0 <= qty trade) by (apply Hq, String.eqb_eq, Hs).
      destruct (processTrade_sell decimals b trade Hb Hs Hgrid Hq' Hg Hgp Hcov)
        as (S1 & _ & _).
      apply GridElsewhere. exact S1.
    + pose proof (processTrade_idle b trade Hb Hs) as Eidle.
      intros t lots E. rewrite Eidle in E. eapply Hgrid, E.
Qed.

(** *** One trade and a run of trades in both engines *)

(** After a trade, if the quantities agreed before it, they agree; and if
    the invested capital agreed too, it agrees for the other tickers, and
    for the ticker of the trade exactly when the trade, if it is a sell, is
    at average cost. *)
Lemma step_agreement (today : Date) (decimals : string -> nat) (b : Book)
    (holdings : gmap string Holding) (trade : Trade) :
  plainTrade today decimals trade ->
  (String.eqb (action trade) "Sell" = true ->
     Qle_bool (qty trade) (openShares b (ticker trade)) = true) ->
  gridBook decimals b ->
  (forall t, heldQty holdings t == openShares b t) ->
  gridBook decimals (processTrade b trade)
  /\ (forall t, heldQty (holdStep holdings trade) t == openShares (processTrade b trade) t)
  /\ (buyAtCost trade ->
      (forall t, heldInvested holdings t == openBookValue b t) ->
      (forall t, t <> ticker trade ->
         heldInvested (holdStep holdings trade) t == openBookValue (processTrade b trade) t)
      /\ (heldInvested (holdStep holdings trade) (ticker trade)
          == openBookValue (processTrade b trade) (ticker trade)
          <-> (String.eqb (action trade) "Sell" = true -> atAverageCost b trade = true))).
Proof.
  intros Hplain Hcov Hgrid Hqty.
  pose proof (step_grid today decimals b trade Hplain Hcov Hgrid) as G.
  destruct Hplain as (_ & Hns & Hg & Hgp & Hq).
  destruct (held_after holdings trade) as [Eq Ei].
  pose proof (Hqty (ticker trade)) as Hq0.
  rewrite (heldQty_default _ _ (type trade)) in Hq0.
  set (hd := default (mkHolding 0 0 (type trade)) (holdings !! ticker trade)) in *.
  assert (Elsewhere : forall t, t <> ticker trade ->
            (heldQty holdings t == openShares b t ->
             heldQty (holdStep holdings trade) t == openShares (processTrade b trade) t)
            /\ (heldInvested holdings t == openBookValue b t ->
                heldInvested (holdStep holdings trade) t
                == openBookValue (processTrade b trade) t)).
  { intros t Hne. destruct (held_elsewhere holdings trade t Hne) as [-> ->].
    rewrite !openShares_lots, !openBookValue_lots, (processTrade_elsewhere b trade t Hne).
    split; intros H; exact H. }
  assert (Invested : (forall t, heldInvested holdings t == openBookValue b t) ->
                     invested hd == openBookValue b (ticker trade)).
  { intros Hinv. rewrite <- (Hinv (ticker trade)).
    rewrite (heldInvested_default _ _ (type trade)). reflexivity. }
  destruct (isBuyAction (action trade)) eqn:Hb.
  - (* a buy *)
    destruct (processTrade_buy b trade Hb) as [Ep _].
    pose proof (isBuyAction_not_Sell _ Hb) as Hs.
    split; [exact G|]. split.
    + intros t. destruct (decide (t = ticker trade)) as [->|Hne];
        [|apply Elsewhere; [exact Hne | apply Hqty]].
      rewrite Eq, openShares_lots, Ep. cbn [from_option id].
      rewrite currentShares_snoc, <- openShares_lots, <- Hq0.
      unfold updatedHolding. rewrite Hb. cbn [hqty shares]. reflexivity.
    + intros Hts Hinv. split.
      * intros t Hne. apply Elsewhere; [exact Hne | apply Hinv].
      * split; [intros _ Hsell; rewrite Hs in Hsell; discriminate|]. intros _.
        rewrite Ei, openBookValue_lots, Ep. cbn [from_option id].
        rewrite currentBookValue_snoc, <- openBookValue_lots, <- (Invested Hinv).
        unfold updatedHolding. rewrite Hb. cbn [invested shares price].
        rewrite (Hts Hb). reflexivity.
  - destruct (String.eqb (action trade) "Sell") eqn:Hs.
    + (* a sell *)
      specialize (Hcov eq_refl). apply Qle_bool_iff in Hcov.
      assert (Hq' : 0 <= qty trade) by (apply Hq, String.eqb_eq, Hs).
      destruct (processTrade_sell decimals b trade Hb Hs Hgrid Hq' Hg Hgp Hcov)
        as (_ & S2 & _).
      rewrite <- !openShares_lots in S2.
      split; [exact G|]. split.
      * intros t. destruct (decide (t = ticker trade)) as [->|Hne];
          [|apply Elsewhere; [exact Hne | apply Hqty]].
        rewrite Eq, S2. unfold updatedHolding. rewrite Hb, Hs.
        destruct (Qltb 0 (hqty hd)) eqn:Epos; cbn [hqty].
        -- lra.
        -- apply Qltb_ge in Epos. lra.
      * intros _ Hinv. split.
        -- intros t Hne. apply Elsewhere; [exact Hne | apply Hinv].
        -- specialize (Invested Hinv).
           assert (Target : invested (updatedHolding hd trade)
                            == openBookValue b (ticker trade)
                               - qty trade * (openBookValue b (ticker trade)
                                              / openShares b (ticker trade))).
           { unfold updatedHolding. rewrite Hb, Hs.
             destruct (Qltb 0 (hqty hd)) eqn:Epos; cbn [invested].
             - rewrite Invested, Hq0. reflexivity.
             - apply Qltb_ge in Epos.
               assert (E0 : qty trade == 0) by lra.
               rewrite Invested, E0. ring. }
           rewrite Ei, Target. unfold atAverageCost. split.
           ++ intros H _. apply Qeq_bool_iff. symmetry. exact H.
           ++ intros H. symmetry. apply Qeq_bool_iff, H. reflexivity.
    + (* neither a buy nor a sell *)
      assert (Hsplit : String.eqb (action trade) "Split" = false)
        by (apply String.eqb_neq, Hns).
      pose proof (processTrade_idle b trade Hb Hs) as Eidle.
      split; [exact G|]. split.
      * intros t. destruct (decide (t = ticker trade)) as [->|Hne];
          [|apply Elsewhere; [exact Hne | apply Hqty]].
        rewrite Eq, openShares_lots, Eidle, <- openShares_lots.
        unfold updatedHolding. rewrite Hb, Hs, Hsplit. exact Hq0.
      * intros _ Hinv. split.
        -- intros t Hne. apply Elsewhere; [exact Hne | apply Hinv].
        -- split; [intros _ Hsell; discriminate|]. intros _.
           rewrite Ei, openBookValue_lots, Eidle, <- openBookValue_lots.
           unfold updatedHolding. rewrite Hb, Hs, Hsplit. exact (Invested Hinv).
Qed.

(** The same along a run of trades. *)
Lemma run_agreement (today : Date) (decimals : string -> nat) (trades : list Trade) :
  forall (b : Book) (holdings : gmap string Holding),
  Forall (plainTrade today decimals) trades ->
  sellsCovered b trades = true ->
  gridBook decimals b ->
  (forall t, heldQty holdings t == openShares b t) ->
  gridBook decimals (fold_left processTrade trades b)
  /\ (forall t, heldQty (fold_left holdStep trades holdings) t
                == openShares (fold_left processTrade trades b) t)
  /\ (Forall buyAtCost trades -> sellsAtAverage b trades = true ->
      (forall t, heldInvested holdings t == openBookValue b t) ->
      forall t, heldInvested (fold_left holdStep trades holdings) t
                == openBookValue (fold_left processTrade trades b) t).
Proof.
  induction trades as [|trade trades IH]; intros b holdings Hall Hcov Hgrid Hqty.
  - split; [exact Hgrid|]. split; [exact Hqty|]. intros _ _ Hinv. exact Hinv.
  - inversion Hall as [|? ? Hplain Hrest]; subst.
    cbn [sellsCovered] in Hcov. apply andb_true_iff in Hcov. destruct Hcov as [Hc1 Hc2].
    destruct (step_agreement today decimals b holdings trade Hplain) as (F1 & F2 & F3);
      [intros Hs; rewrite Hs in Hc1; exact Hc1 | exact Hgrid | exact Hqty |].
    destruct (IH (processTrade b trade) (holdStep holdings trade) Hrest Hc2 F1 F2)
      as (I0 & I1 & I2).
    cbn [fold_left]. split; [exact I0|]. split; [exact I1|].
    intros Hcost Havg Hinv. inversion Hcost as [|? ? Hc Hcs]; subst.
    cbn [sellsAtAverage] in Havg. apply andb_true_iff in Havg.
    destruct Havg as [Ha1 Ha2]. apply I2; [exact Hcs | exact Ha2|].
    destruct (F3 Hc Hinv) as [G1 G2].
    intros t. destruct (decide (t = ticker trade)) as [->|Hne]; [|apply G1, Hne].
    apply G2. intros Hs. rewrite Hs in Ha1. exact Ha1.
Qed.

Lemma sellsCovered_app (l1 l2 : list Trade) : forall b : Book,
  sellsCovered b (l1 ++ l2)
  = sellsCovered b l1 && sellsCovered (fold_left processTrade l1 b) l2.
Proof.
  induction l1 as [|t l1 IH]; intros b; [reflexivity|].
  cbn [app sellsCovered fold_left]. rewrite IH, andb_assoc. reflexivity.
Qed.

(** Lots at one unit cost are sold at average cost. *)
Lemma oneCost_average (today : Date) (decimals : string -> nat) (b : Book) (trade : Trade) :
  plainTrade today decimals trade -> String.eqb (action trade) "Sell" = true ->
  Qle_bool (qty trade) (openShares b (ticker trade)) = true ->
  gridBook decimals b ->
  oneCost (default [] (portfolio b !! ticker trade)) = true ->
  atAverageCost b trade = true.
Proof.
  intros (_ & _ & Hg & Hgp & Hq) Hs Hcov Hgrid Hone.
  apply Qle_bool_iff in Hcov.
  assert (Hq' : 0 <= qty trade) by (apply Hq, String.eqb_eq, Hs).
  assert (Hb : isBuyAction (action trade) = false).
  { apply String.eqb_eq in Hs. rewrite Hs. reflexivity. }
  destruct (processTrade_sell decimals b trade Hb Hs Hgrid Hq' Hg Hgp Hcov)
    as (_ & S2 & S3).
  destruct (oneCost_Forall _ Hone) as [c Hc].
  pose proof (currentBookValue_oneCost c _ Hc) as Bb.
  pose proof (currentBookValue_oneCost c _ (S3 c Hc)) as Ba.
  unfold atAverageCost. apply Qeq_bool_iff.
  rewrite !openBookValue_lots, !openShares_lots, Ba, S2, Bb.
  rewrite openShares_lots in Hcov.
  set (n := currentShares (default [] (portfolio b !! ticker trade))) in *.
  destruct (Qeq_dec n 0) as [E0 | Hne].
  - assert (Eq0 : qty trade == 0) by lra. rewrite Eq0, E0. ring.
  - field. exact Hne.
Qed.

Lemma sellsAtOneCost_average (today : Date) (decimals : string -> nat)
    (trades : list Trade) : forall b : Book,
  Forall (plainTrade today decimals) trades ->
  sellsCovered b trades = true -> gridBook decimals b ->
  sellsAtOneCost b trades = true -> sellsAtAverage b trades = true.
Proof.
  induction trades as [|trade trades IH]; intros b Hall Hcov Hgrid Hone; [reflexivity|].
  inversion Hall as [|? ? Hplain Hrest]; subst.
  cbn [sellsCovered] in Hcov. apply andb_true_iff in Hcov. destruct Hcov as [Hc1 Hc2].
  cbn [sellsAtOneCost] in Hone. apply andb_true_iff in Hone. destruct Hone as [Ho1 Ho2].
  cbn [sellsAtAverage]. apply andb_true_iff. split.
  - destruct (String.eqb (action trade) "Sell") eqn:Hs; [|reflexivity].
    apply (oneCost_average today decimals); assumption.
  - apply IH; try assumption.
    apply (step_grid today decimals b trade Hplain); [|exact Hgrid].
    intros Hs. rewrite Hs in Hc1. exact Hc1.
Qed.

Lemma filter_all_dated (cutoff : Date) (trades : list Trade) :
  Forall (fun d => date_leb (date d) cutoff = true) trades ->
  filter (fun d => date_leb (date d) cutoff = true) trades = trades.
Proof.
  induction 1 as [|d trades Hd _ IH]; [reflexivity|].
  rewrite filter_cons_True by exact Hd. rewrite IH. reflexivity.
Qed.

End AgreementFacts.

Module AgreementClaims.
Import Fiscal Reports Agreement AgreementInv NormalizerFacts AgreementFacts.
Local Open Scope Q_scope.

(** The rows of the last year of [PORTFOLIO_EVOLUZIONE] are those of the
    holdings replayed with the cutoff "today". *)
Lemma evoluzione_last_year (today : Date) (allData : list Trade) (first : Trade)
    (others : list Trade) :
  sortByDate allData = first :: others ->
  (yearOf (date first) <= yearOf today)%Z ->
  exists earlier,
    PORTFOLIO_EVOLUZIONE today allData
    = Some (earlier ++ yearRows (yearOf today) today
                         (holdingsAt today (sortByDate allData))).
Proof.
  intros Hsort Hle. unfold PORTFOLIO_EVOLUZIONE. rewrite Hsort.
  set (n := Z.to_nat (yearOf today - yearOf (date first))).
  replace (Z.to_nat (yearOf today - yearOf (date first) + 1)) with (S n) by (subst n; lia).
  rewrite seq_S, flat_map_app. cbn [flat_map Nat.add]. rewrite app_nil_r.
  eexists. apply f_equal. apply (f_equal (fun x => _ ++ x)). cbv zeta.
  replace (yearOf (date first) + Z.of_nat n)%Z with (yearOf today) by (subst n; lia).
  rewrite Z.eqb_refl. reflexivity.
Qed.

(** C4 (as amended).  Take trades dated up to today, without splits,
    whose quantities have no more decimals than the matcher reads for their
    ticker (5 for a stock, 8 for crypto), whose sells are not negative and
    never exceed the shares held.  Then the quantity the replay
    reconstructs for the cutoff "today" equals, for every ticker, the sum
    of the shares of the live matcher's open lots.  The reconstructed
    invested capital is an average cost.  When every buy costs quantity
    times unit price, it equals the book value of the open lots for every
    ticker if every sell is at average cost, that is, lowers the book value
    of the lots of its ticker by the quantity times the book value per
    share; sells that find the open lots of their ticker at one unit cost
    are at average cost; and after a run whose sells but the last trade are
    at average cost, the two values agree for the ticker of the last trade
    exactly when that trade, if it is a sell, is at average cost too. *)
Theorem reconstruction_matches_fifo (today : Date) (decimals : string -> nat)
    (allData : list Trade) :
  Forall (plainTrade today decimals) allData ->
  sellsCovered (mkBook ∅ ∅) (sortByDate allData) = true ->
  let holdings := holdingsAt today (sortByDate allData) in
  let live := tickerValue (portfolio (processTransactions allData)) in
  (forall t, heldQty holdings t == tvShares (live t))
  /\ (sellsAtOneCost (mkBook ∅ ∅) (sortByDate allData) = true ->
      sellsAtAverage (mkBook ∅ ∅) (sortByDate allData) = true)
  /\ (Forall buyAtCost allData ->
      (sellsAtAverage (mkBook ∅ ∅) (sortByDate allData) = true ->
       forall t, heldInvested holdings t == bookVal (live t))
      /\ (forall earlier last,
            sortByDate allData = earlier ++ [last] ->
            sellsAtAverage (mkBook ∅ ∅) earlier = true ->
            (heldInvested holdings (ticker last) == bookVal (live (ticker last))
             <-> (action last = "Sell" ->
                  atAverageCost (fold_left processTrade earlier (mkBook ∅ ∅)) last
                  = true)))).
Proof.
  intros Hall Hcov holdings live. subst holdings live.
  assert (Hsorted : Forall (plainTrade today decimals) (sortByDate allData))
    by (apply Forall_sortByDate, Hall).
  unfold holdingsAt, processTransactions.
  rewrite filter_all_dated
    by (eapply Forall_impl; [exact Hsorted | intros x Hx; apply Hx]).
  assert (Hempty : forall t,
            heldQty (∅ : gmap string Holding) t == openShares (mkBook ∅ ∅) t)
    by (intros t; reflexivity).
  assert (Hempty' : forall t,
            heldInvested (∅ : gmap string Holding) t == openBookValue (mkBook ∅ ∅) t)
    by (intros t; reflexivity).
  destruct (run_agreement today decimals (sortByDate allData) (mkBook ∅ ∅) ∅ Hsorted Hcov
              (gridBook_empty decimals) Hempty) as (_ & Hq & Hi).
  split; [exact Hq|]. split.
  - apply (sellsAtOneCost_average today decimals);
      [exact Hsorted | exact Hcov | apply gridBook_empty].
  - intros Hcost.
    assert (Hcost' : Forall buyAtCost (sortByDate allData))
      by (apply Forall_sortByDate, Hcost).
    split.
    + intros Havg. apply Hi; [exact Hcost' | exact Havg | exact Hempty'].
    + intros earlier last Esort Havg. rewrite Esort in *. clear Hq Hi.
      apply Forall_app in Hsorted. destruct Hsorted as [Hpe Hpl].
      apply Forall_app in Hcost'. destruct Hcost' as [Hce Hcl].
      inversion Hpl as [|? ? Hplast _]; subst. inversion Hcl as [|? ? Hclast _]; subst.
      rewrite sellsCovered_app in Hcov. apply andb_true_iff in Hcov.
      destruct Hcov as [Hcove Hcovl]. cbn [sellsCovered] in Hcovl.
      rewrite andb_true_r in Hcovl.
      destruct (run_agreement today decimals earlier (mkBook ∅ ∅) ∅ Hpe Hcove
                  (gridBook_empty decimals) Hempty) as (G & Hq & Hi).
      specialize (Hi Hce Havg Hempty').
      rewrite !fold_left_app. cbn [fold_left].
      destruct (step_agreement today decimals (fold_left processTrade earlier (mkBook ∅ ∅))
                  (fold_left holdStep earlier ∅) last Hplast) as (_ & _ & F3);
        [intros Hs; rewrite Hs in Hcovl; exact Hcovl | exact G | exact Hq |].
      destruct (F3 Hclast Hi) as [_ Hiff].
      change (bookVal (tickerValue
                         (portfolio (processTrade (fold_left processTrade earlier
                                                     (mkBook ∅ ∅)) last))
                         (ticker last)))
        with (openBookValue (processTrade (fold_left processTrade earlier (mkBook ∅ ∅)) last)
                            (ticker last)).
      rewrite Hiff. split.
      * intros H Ha. apply H. rewrite Ha. reflexivity.
      * intros H Hs. apply H, String.eqb_eq, Hs.
Qed.

(** A stock bought at 100, 120 and 110 of which 20 shares are sold, which
    takes out the lots at 100 and 120, at the average cost of 110; and a
    crypto quantity of 8 decimals. *)
Lemma reconstruction_matches_fifo_witness :
  let today := mkDate 2025 1 1 in
  let decimals := fun t : string => if String.eqb t "BTC" then 8%nat else 5%nat in
  let trades : list Trade :=
    [ mkTrade (mkDate 2023 1 1) "ACME" "Buy" 10 100 (10 * 100) "Stock";
      mkTrade (mkDate 2023 2 1) "BTC" "Buy" 0.12345678 30000 (0.12345678 * 30000) "Crypto";
      mkTrade (mkDate 2023 3 1) "ACME" "Buy" 10 120 (10 * 120) "Stock";
      mkTrade (mkDate 2023 6 1) "ACME" "Buy" 10 110 (10 * 110) "Stock";
      mkTrade (mkDate 2023 9 1) "ACME" "Dividend" 0 7 7 "Stock";
      mkTrade (mkDate 2024 1 1) "ACME" "Sell" 20 150 (20 * 150) "Stock" ] in
  let holdings := holdingsAt today (sortByDate trades) in
  let live := tickerValue (portfolio (processTransactions trades)) in
  sellsAtOneCost (mkBook ∅ ∅) (sortByDate trades) = false
  /\ heldQty holdings "ACME" == tvShares (live "ACME")
  /\ heldQty holdings "BTC" == tvShares (live "BTC")
  /\ heldQty holdings "BTC" == 0.12345678
  /\ heldInvested holdings "ACME" == bookVal (live "ACME")
  /\ heldInvested holdings "ACME" == 1100.
Proof.
  intros today decimals trades holdings live.
  assert (Hplain : Forall (plainTrade today decimals) trades).
  { repeat (constructor; [split; [reflexivity|]; split; [discriminate|];
                          split; [vm_compute; reflexivity|];
                          split; [vm_compute; lia|];
                          intros _; vm_compute; discriminate|]).
    constructor. }
  assert (Hcov : sellsCovered (mkBook ∅ ∅) (sortByDate trades) = true)
    by (vm_compute; reflexivity).
  assert (Hcost : Forall buyAtCost trades).
  { repeat (constructor;
             [intros H; first [vm_compute; reflexivity | vm_compute in H; discriminate H]|]).
    constructor. }
  destruct (reconstruction_matches_fifo today decimals trades Hplain Hcov)
    as (Hq & _ & Hi).
  destruct (Hi Hcost) as [Havg _].
  split; [vm_compute; reflexivity|]. split; [apply Hq|]. split; [apply Hq|].
  split; [vm_compute; reflexivity|].
  split; [apply Havg; vm_compute; reflexivity | vm_compute; reflexivity].
Defined.

(** C4 as stated fails, and each condition of the amended statement is
    needed.  With today = 2025-01-01:
    - lots of different unit costs, Buy 10 at 100, Buy 10 at 120, Sell 15:
      both engines hold 5 shares, the replay with an invested capital of
      550 (average cost 110), the live matcher with a book value of 600
      (the lot bought at 120);
    - a split of 10 shares after Buy 10: the replay holds 20 shares, the
      live matcher 10;
    - a sell above the shares held, Buy 5, Sell 8, Buy 2: the replay holds
      -1 share, the live matcher 2;
    - a negative sell, Buy 10, Sell -3: 13 shares against 10;
    - a buy dated after today: no share against 10;
    - a buy of 1 at 100 that cost 105: an invested capital of 105 against
      a book value of 100;
    - a quantity of 6 decimals, Buy 1.000004 at 1000000000, Sell 1: the
      replay holds 0.000004 shares with 4000 invested, the live matcher
      nothing;
    - a crypto lot of 8 decimals sold by a row typed as a stock, Buy
      1.00000004 at 1000000000000, Sell 1: the replay holds 0.00000004
      with 40000 invested, the live matcher nothing. *)
Lemma reconstruction_differs_from_fifo :
  let today := mkDate 2025 1 1 in
  let replay := fun trades => holdingsAt today (sortByDate trades) in
  let live := fun trades => tickerValue (portfolio (processTransactions trades)) in
  let costs : list Trade :=
    [ mkTrade (mkDate 2023 1 1) "ACME" "Buy" 10 100 1000 "Stock";
      mkTrade (mkDate 2023 6 1) "ACME" "Buy" 10 120 1200 "Stock";
      mkTrade (mkDate 2024 1 1) "ACME" "Sell" 15 150 2250 "Stock" ] in
  let split : list Trade :=
    [ mkTrade (mkDate 2023 1 1) "ACME" "Buy" 10 100 1000 "Stock";
      mkTrade (mkDate 2023 6 1) "ACME" "Split" 10 0 0 "Stock" ] in
  let oversell : list Trade :=
    [ mkTrade (mkDate 2023 1 1) "ACME" "Buy" 5 100 500 "Stock";
      mkTrade (mkDate 2023 6 1) "ACME" "Sell" 8 150 1200 "Stock";
      mkTrade (mkDate 2024 1 1) "ACME" "Buy" 2 100 200 "Stock" ] in
  let negative : list Trade :=
    [ mkTrade (mkDate 2023 1 1) "ACME" "Buy" 10 100 1000 "Stock";
      mkTrade (mkDate 2023 6 1) "ACME" "Sell" (-3) 150 (-450) "Stock" ] in
  let future : list Trade :=
    [ mkTrade (mkDate 2025 6 1) "ACME" "Buy" 10 100 1000 "Stock" ] in
  let fees : list Trade :=
    [ mkTrade (mkDate 2023 1 1) "BTC" "Buy" 1 100 105 "Crypto" ] in
  let dust : list Trade :=
    [ mkTrade (mkDate 2023 1 1) "ACME" "Buy" 1.000004 1000000000 1000004000 "Stock";
      mkTrade (mkDate 2023 6 1) "ACME" "Sell" 1 1000000000 1000000000 "Stock" ] in
  let mixed : list Trade :=
    [ mkTrade (mkDate 2023 1 1) "BTC" "Buy" 1.00000004 1000000000000 1000000040000 "Crypto";
      mkTrade (mkDate 2023 6 1) "BTC" "Sell" 1 1000000000000 1000000000000 "Stock" ] in
  (heldQty (replay costs) "ACME" == 5 /\ tvShares (live costs "ACME") == 5
   /\ heldInvested (replay costs) "ACME" == 550 /\ bookVal (live costs "ACME") == 600
   /\ Forall (plainTrade today (fun _ => 5%nat)) costs /\ Forall buyAtCost costs
   /\ sellsCovered (mkBook ∅ ∅) (sortByDate costs) = true
   /\ sellsAtAverage (mkBook ∅ ∅) (sortByDate costs) = false)
  /\ (heldQty (replay split) "ACME" == 20 /\ tvShares (live split "ACME") == 10)
  /\ (heldQty (replay oversell) "ACME" == -1 /\ tvShares (live oversell "ACME") == 2)
  /\ (heldQty (replay negative) "ACME" == 13 /\ tvShares (live negative "ACME") == 10)
  /\ (heldQty (replay future) "ACME" == 0 /\ tvShares (live future "ACME") == 10)
  /\ (heldInvested (replay fees) "BTC" == 105 /\ bookVal (live fees "BTC") == 100)
  /\ (heldQty (replay dust) "ACME" == 0.000004 /\ tvShares (live dust "ACME") == 0
      /\ heldInvested (replay dust) "ACME" == 4000 /\ bookVal (live dust "ACME") == 0)
  /\ (heldQty (replay mixed) "BTC" == 0.00000004 /\ tvShares (live mixed "BTC") == 0
      /\ heldInvested (replay mixed) "BTC" == 40000 /\ bookVal (live mixed "BTC") == 0).
Proof.
  intros today replay live costs split oversell negative future fees dust mixed.
  split.
  { split; [vm_compute; reflexivity|]. split; [vm_compute; reflexivity|].
    split; [vm_compute; reflexivity|]. split; [vm_compute; reflexivity|].
    split.
    { repeat (constructor; [split; [reflexivity|]; split; [discriminate|];
                            split; [vm_compute; reflexivity|];
                            split; [vm_compute; lia|];
                            intros _; vm_compute; discriminate|]).
      constructor. }
    split.
    { repeat (constructor;
             [intros H; first [vm_compute; reflexivity | vm_compute in H; discriminate H]|]).
    constructor. }
    split; vm_compute; reflexivity. }
  split; [split; vm_compute; reflexivity|].
  split; [split; vm_compute; reflexivity|].
  split; [split; vm_compute; reflexivity|].
  split; [split; vm_compute; reflexivity|].
  split; [split; vm_compute; reflexivity|].
  split.
  { split; [vm_compute; reflexivity|]. split; [vm_compute; reflexivity|].
    split; vm_compute; reflexivity. }
  split; [vm_compute; reflexivity|]. split; [vm_compute; reflexivity|].
  split; vm_compute; reflexivity.
Qed.

End AgreementClaims.

(** ** More on the normalizer *)

Module NormalizerMore.
Import Parse Fiscal NormalizerMoreDefs NormalizerFacts.
Local Open Scope Q_scope.

Lemma insertByDate_sorted {N} (x : TradeOf N) (l : list (TradeOf N)) :
  StronglySorted byDate l -> StronglySorted byDate (insertByDate x l).
Proof.
  induction 1 as [|y l Hl IH Hy]; simpl.
  - constructor; constructor.
  - destruct (date_leb (date x) (date y)) eqn:E.
    + unfold date_leb in E. apply Z.leb_le in E.
      constructor; [constructor; assumption|].
      constructor; [exact E|].
      eapply Forall_impl; [exact Hy|]. intros z Hz. unfold byDate in *. lia.
    + unfold date_leb in E. apply Z.leb_gt in E.
      constructor; [exact IH|].
      apply List.Forall_forall. intros z Hz. apply In_insertByDate in Hz.
      destruct Hz as [-> | Hz].
      * unfold byDate. lia.
      * rewrite List.Forall_forall in Hy. apply Hy, Hz.
Qed.

Lemma sortByDate_sorted {N} (l : list (TradeOf N)) : StronglySorted byDate (sortByDate l).
Proof.
  induction l as [|x l IH]; simpl; [constructor|]. apply insertByDate_sorted, IH.
Qed.

Lemma insertByDate_perm {N} (x : TradeOf N) (l : list (TradeOf N)) :
  Permutation (insertByDate x l) (x :: l).
Proof.
  induction l as [|y l IH]; simpl; [reflexivity|].
  destruct (date_leb (date x) (date y)); [reflexivity|].
  rewrite IH. apply perm_swap.
Qed.

Lemma sortByDate_perm {N} (l : list (TradeOf N)) : Permutation (sortByDate l) l.
Proof.
  induction l as [|x l IH]; simpl; [reflexivity|].
  rewrite insertByDate_perm, IH. reflexivity.
Qed.

Lemma insertByDate_onDate {N} (v : Z) (x : TradeOf N) (l : list (TradeOf N)) :
  onDate v (insertByDate x l) = onDate v (x :: l).
Proof.
  unfold onDate. induction l as [|y l IH]; simpl; [reflexivity|].
  destruct (date_leb (date x) (date y)) eqn:E; [reflexivity|].
  unfold date_leb in E. apply Z.leb_gt in E.
  destruct (decide (dateValue (date x) = v)) as [Hx|Hx].
  - rewrite (filter_cons_False _ y) by lia. rewrite IH.
    rewrite !(filter_cons_True _ x) by exact Hx.
    rewrite (filter_cons_False _ y) by lia. reflexivity.
  - rewrite (filter_cons_False _ x) by exact Hx.
    rewrite (filter_cons_False _ x) in IH by exact Hx.
    destruct (decide (dateValue (date y) = v)) as [Hy|Hy].
    + rewrite !(filter_cons_True _ y) by exact Hy. rewrite IH. reflexivity.
    + rewrite !(filter_cons_False _ y) by exact Hy. exact IH.
Qed.

Lemma sortByDate_onDate {N} (v : Z) (l : list (TradeOf N)) :
  onDate v (sortByDate l) = onDate v l.
Proof.
  induction l as [|x l IH]; simpl; [reflexivity|].
  rewrite insertByDate_onDate. unfold onDate in *.
  destruct (decide (dateValue (date x) = v)) as [Hx|Hx].
  - rewrite !(filter_cons_True _ x) by exact Hx. rewrite IH. reflexivity.
  - rewrite !(filter_cons_False _ x) by exact Hx. exact IH.
Qed.

(** Every emitted trade comes from a row that is not skipped. *)
Lemma normalizeData_origin now dates (security : list string) actions quantity priceCol
    spentCol typeCol isCryptoMode (tr : TradeOf jsnum) :
  In tr (normalizeData now dates security actions quantity priceCol spentCol typeCol
           isCryptoMode) ->
  exists (i : nat) (sec : string),
    security !! i = Some sec
    /\ normalizeRow now dates actions quantity priceCol spentCol typeCol isCryptoMode i sec
       = Some tr.
Proof.
  unfold normalizeData. intros H. apply (proj1 (In_sortByDate _ _)) in H.
  apply list_elem_of_In in H. apply list_elem_of_omap in H.
  destruct H as (o & Ho & Eo). simpl in Eo. subst o.
  apply list_elem_of_lookup in Ho. destruct Ho as [i Hi].
  rewrite list_lookup_imap in Hi.
  destruct (security !! i) as [sec|] eqn:E; [|discriminate].
  simpl in Hi. exists i, sec. split; [exact E|]. congruence.
Qed.

End NormalizerMore.

Module NormalizerExtras.
Import Parse Fiscal NormalizerMoreDefs NormalizerFacts NormalizerMore.
Local Open Scope Q_scope.

(** X1.  The output of [normalizeData] is in ascending date order, it holds
    exactly the rows that are kept, and rows of the same date stay in sheet
    order. *)
Theorem normalizeData_sorted_stable (now : Date) (dates : list (option Date))
    (security actions : list string) (quantity priceCol spentCol : list Cell)
    (typeCol : list string) (isCryptoMode : bool) :
  let out := normalizeData now dates security actions quantity priceCol spentCol typeCol
               isCryptoMode in
  let kept := keptRows now dates security actions quantity priceCol spentCol typeCol
                isCryptoMode in
  StronglySorted byDate out
  /\ Permutation out kept
  /\ forall v, onDate v out = onDate v kept.
Proof.
  intros out kept. subst out kept. unfold normalizeData, keptRows.
  split; [apply sortByDate_sorted|]. split; [apply sortByDate_perm|].
  intros v. apply sortByDate_onDate.
Qed.

Lemma normalizeRow_kept now dates actions quantity priceCol spentCol typeCol isCryptoMode
    (i : nat) (sec : string) (tr : TradeOf jsnum) :
  normalizeRow now dates actions quantity priceCol spentCol typeCol isCryptoMode i sec
    = Some tr ->
  sec <> "" /\ isCashTicker sec = false /\ ticker tr = sec.
Proof.
  unfold normalizeRow. destruct (String.eqb sec "") eqn:E1; [discriminate|].
  destruct (isCashTicker sec) eqn:E2; [discriminate|].
  apply String.eqb_neq in E1. intros H. split; [exact E1|]. split; [reflexivity|].
  destruct isCryptoMode; [|destruct (isDividend _)]; injection H as <-; reflexivity.
Qed.

(** X2.  Every trade emitted by [normalizeData] has a non-empty ticker that
    contains neither "CASH" nor "EUR" in any letter case: blank rows and
    cash placeholders are dropped, so the output never has more trades than
    the sheet has rows. *)
Theorem normalizeData_drops_blank_and_cash (now : Date) (dates : list (option Date))
    (security actions : list string) (quantity priceCol spentCol : list Cell)
    (typeCol : list string) (isCryptoMode : bool) (tr : TradeOf jsnum) :
  In tr (normalizeData now dates security actions quantity priceCol spentCol typeCol
           isCryptoMode) ->
  ticker tr <> ""
  /\ includes (toUpperCase (ticker tr)) "CASH" = false
  /\ includes (toUpperCase (ticker tr)) "EUR" = false
  /\ In (ticker tr) security.
Proof.
  intros H. apply normalizeData_origin in H. destruct H as (i & sec & Hi & Hr).
  apply normalizeRow_kept in Hr. destruct Hr as (H1 & H2 & ->).
  unfold isCashTicker in H2. apply orb_false_iff in H2. destruct H2 as [H2 H3].
  split; [exact H1|]. split; [exact H2|]. split; [exact H3|].
  apply list_elem_of_In. eapply list_elem_of_lookup_2, Hi.
Qed.

Lemma normalizeData_drops_blank_and_cash_witness :
  let out := normalizeData (mkDate 2025 1 1) [Some (mkDate 2024 5 2); None; None]
               ["ACME"; "Cash EUR"; ""] ["Buy"; "Buy"; "Buy"]
               [CNum 3; CNum 100; CNum 1] [CNum 20; CNum 1; CNum 1] [] [] false in
  let tr := mkTrade (mkDate 2024 5 2) "ACME" "Buy" (Num 3) (Num 20) (Num (20 * 3)) "Stock" in
  out = [tr]
  /\ ticker tr <> ""
  /\ includes (toUpperCase (ticker tr)) "CASH" = false
  /\ includes (toUpperCase (ticker tr)) "EUR" = false.
Proof.
  intros out tr.
  destruct (normalizeData_drops_blank_and_cash (mkDate 2025 1 1)
              [Some (mkDate 2024 5 2); None; None]
              ["ACME"; "Cash EUR"; ""] ["Buy"; "Buy"; "Buy"]
              [CNum 3; CNum 100; CNum 1] [CNum 20; CNum 1; CNum 1] [] [] false tr)
    as (H1 & H2 & H3 & _).
  - left. reflexivity.
  - split; [reflexivity|]. split; [exact H1|]. split; [exact H2 | exact H3].
Defined.

(** X3.  In stock mode a dividend row is emitted with quantity 0 and with
    the price column as its amount, so dividends never change a share
    count; every other row has [totalSpent = unitPrice * qty]. *)
Theorem normalizeData_stock_amounts (now : Date) (dates : list (option Date))
    (security actions : list string) (quantity priceCol spentCol : list Cell)
    (typeCol : list string) (tr : TradeOf jsnum) :
  In tr (normalizeData now dates security actions quantity priceCol spentCol typeCol false) ->
  (isDividend (action tr) = true -> qty tr = Num 0 /\ totalSpent tr = unitPrice tr)
  /\ (isDividend (action tr) = false -> totalSpent tr = jmul (unitPrice tr) (qty tr)).
Proof.
  intros H. apply normalizeData_origin in H. destruct H as (i & sec & _ & Hr).
  unfold normalizeRow in Hr.
  destruct (String.eqb sec ""); [discriminate|].
  destruct (isCashTicker sec); [discriminate|].
  destruct (isDividend (default "Buy" (textAt actions i))) eqn:Ed;
    injection Hr as <-; cbn [action qty totalSpent unitPrice]; rewrite Ed;
    split; intros Hd; try discriminate; try reflexivity.
  split; reflexivity.
Qed.

Lemma normalizeData_stock_amounts_witness :
  let out := normalizeData (mkDate 2025 1 1) [Some (mkDate 2024 5 2)]
               ["ACME"] ["Dividend"] [CNum 7] [CNum 12.5] [] ["Stock"] false in
  let tr := mkTrade (mkDate 2024 5 2) "ACME" "Dividend" (Num 0) (Num 12.5) (Num 12.5)
                    "Stock" in
  out = [tr] /\ qty tr = Num 0 /\ totalSpent tr = unitPrice tr.
Proof.
  intros out tr.
  destruct (normalizeData_stock_amounts (mkDate 2025 1 1) [Some (mkDate 2024 5 2)]
              ["ACME"] ["Dividend"] [CNum 7] [CNum 12.5] [] ["Stock"] tr) as [Hd _].
  - left. reflexivity.
  - split; [reflexivity|]. apply Hd. reflexivity.
Defined.

(** X4.  In crypto mode, for a row whose quantity is a non-zero number and
    of whose unit price and total spent exactly one is missing (0), the
    emitted trade has the missing one derived from the other:
    [totalSpent = qty * unitPrice]. *)
Theorem normalizeRow_crypto_derives (now : Date) (dates : list (option Date))
    (actions : list string) (quantity priceCol spentCol : list Cell)
    (typeCol : list string) (i : nat) (sec : string) (tr : TradeOf jsnum) (q p s : Q) :
  normalizeRow now dates actions quantity priceCol spentCol typeCol true i sec = Some tr ->
  cleanNumber (cellAt quantity i) = Num q ->
  cleanNumber (cellAt priceCol i) = Num p ->
  cleanNumber (cellAt spentCol i) = Num s ->
  ~ q == 0 ->
  (p == 0 /\ ~ s == 0) \/ (s == 0 /\ ~ p == 0) ->
  type tr = "Crypto"
  /\ exists u t, unitPrice tr = Num u /\ totalSpent tr = Num t /\ qty tr = Num q
                 /\ t == q * u.
Proof.
  intros Hr Hq Hp Hs Hq0 Hcase. unfold normalizeRow in Hr.
  destruct (String.eqb sec ""); [discriminate|].
  destruct (isCashTicker sec); [discriminate|].
  rewrite Hq, Hp, Hs in Hr. cbn [jeqb jdiv jmul] in Hr.
  assert (Eq0 : Qeq_bool q 0 = false).
  { destruct (Qeq_bool q 0) eqn:E; [|reflexivity]. apply Qeq_bool_iff in E. contradiction. }
  rewrite Eq0 in Hr. cbn [negb andb] in Hr.
  destruct Hcase as [[Hp0 Hs0] | [Hs0 Hp0]].
  - assert (Ep : Qeq_bool p 0 = true) by (apply Qeq_bool_iff, Hp0).
    assert (Es : Qeq_bool s 0 = false).
    { destruct (Qeq_bool s 0) eqn:E; [|reflexivity]. apply Qeq_bool_iff in E. contradiction. }
    do 3 (rewrite ?Eq0, ?Ep, ?Es in Hr; cbn [negb andb jeqb jdiv jmul] in Hr).
    injection Hr as <-. split; [reflexivity|].
    exists (s / q), s. repeat (split; [reflexivity|]). field. exact Hq0.
  - assert (Es : Qeq_bool s 0 = true) by (apply Qeq_bool_iff, Hs0).
    assert (Ep : Qeq_bool p 0 = false).
    { destruct (Qeq_bool p 0) eqn:E; [|reflexivity]. apply Qeq_bool_iff in E. contradiction. }
    do 3 (rewrite ?Eq0, ?Ep, ?Es in Hr; cbn [negb andb jeqb jdiv jmul] in Hr).
    injection Hr as <-. split; [reflexivity|].
    exists p, (q * p). repeat (split; [reflexivity|]). reflexivity.
Qed.

(** A purchase of 0.5 coins for a total of 15000 with an empty price
    cell. *)
Lemma normalizeRow_crypto_derives_witness :
  exists tr u t,
    normalizeRow (mkDate 2025 1 1) [Some (mkDate 2024 5 2)] ["Buy"] [CNum 0.5] [CStr ""]
                 [CNum 15000] [] true 0 "BTC" = Some tr
    /\ unitPrice tr = Num u /\ totalSpent tr = Num t /\ t == 0.5 * u /\ u == 30000.
Proof.
  destruct (normalizeRow_crypto_derives (mkDate 2025 1 1) [Some (mkDate 2024 5 2)] ["Buy"]
              [CNum 0.5] [CStr ""] [CNum 15000] [] 0 "BTC"
              (mkTrade (mkDate 2024 5 2) "BTC" "Buy" (Num 0.5) (Num (15000 / 0.5))
                       (Num 15000) "Crypto") 0.5 0 15000)
    as (_ & u & t & Hu & Ht & _ & E); try reflexivity.
  - intros H. discriminate H.
  - left. split; [reflexivity | intros H; discriminate H].
  - exists (mkTrade (mkDate 2024 5 2) "BTC" "Buy" (Num 0.5) (Num (15000 / 0.5))
                    (Num 15000) "Crypto"), u, t.
    split; [reflexivity|]. split; [exact Hu|]. split; [exact Ht|]. split; [exact E|].
    cbn [unitPrice] in Hu. injection Hu as <-. reflexivity.
Defined.

End NormalizerExtras.

(** ** More on the matching loops *)

Module EngineMore.
Import Parse Fiscal Reports Agreement EngineInv AgreementInv NormalizerMoreDefs EngineMoreDefs.
Import EngineFacts AgreementFacts.
Local Open Scope Q_scope.

(** Once the loop has exited, further iterations change nothing. *)
Lemma closeLots_more_fuel p salePrice : forall fuel extra lots s pnl,
  closeLotsExited (closeLots fuel p salePrice s lots pnl) ->
  closeLots (fuel + extra) p salePrice s lots pnl = closeLots fuel p salePrice s lots pnl.
Proof.
  induction fuel as [|fuel IH]; intros extra lots s pnl Hex.
  - cbn [closeLots Nat.add] in *. destruct Hex as [Hs | Hl]; cbn [fst snd] in *.
    + apply closeLots_idle, Hs.
    + subst lots. apply closeLots_nil.
  - destruct lots as [|l lots]; [rewrite !closeLots_nil; reflexivity|].
    cbn [closeLots Nat.add] in *. destruct (Qltb 0 s); [|reflexivity].
    apply IH, Hex.
Qed.

Lemma matchLots_nil fuel p s totalCost sharesSold :
  matchLots fuel p s [] totalCost sharesSold = ([], s, totalCost, sharesSold).
Proof. destruct fuel; reflexivity. Qed.

Lemma matchLots_more_fuel p : forall fuel extra lots s totalCost sharesSold,
  matchLotsExited (matchLots fuel p s lots totalCost sharesSold) ->
  matchLots (fuel + extra) p s lots totalCost sharesSold
  = matchLots fuel p s lots totalCost sharesSold.
Proof.
  induction fuel as [|fuel IH]; intros extra lots s totalCost sharesSold Hex.
  - cbn [matchLots Nat.add] in *. destruct Hex as [Hs | Hl]; cbn [fst snd] in *.
    + apply matchLots_idle, Hs.
    + subst lots. apply matchLots_nil.
  - destruct lots as [|l lots]; [rewrite !matchLots_nil; reflexivity|].
    cbn [matchLots Nat.add] in *. destruct (Qltb 0 s); [|reflexivity].
    apply IH, Hex.
Qed.

(** The two loops walk the same queue: they leave the same lots and the
    same [sharesToSell], and the P&L of the one is the proceeds minus the
    cost counted by the other. *)
Lemma loops_agree p salePrice : forall fuel lots s pnl totalCost sharesSold,
  let dash := closeLots fuel p salePrice s lots pnl in
  let fisc := matchLots fuel p s (map forgetDate lots) totalCost sharesSold in
  fst (fst (fst fisc)) = map forgetDate (fst (fst dash))
  /\ snd (fst (fst fisc)) = snd (fst dash)
  /\ snd dash == pnl + (snd fisc - sharesSold) * salePrice - (snd (fst fisc) - totalCost).
Proof.
  induction fuel as [|fuel IH]; intros lots s pnl totalCost sharesSold; cbv zeta.
  - cbn [closeLots matchLots fst snd map]. split; [reflexivity|]. split; [reflexivity|]. ring.
  - destruct lots as [|l lots].
    + cbn [closeLots matchLots fst snd map]. split; [reflexivity|]. split; [reflexivity|]. ring.
    + cbn [closeLots matchLots map]. destruct (Qltb 0 s).
      * cbn [forgetDate fshares fprice setFShares setShares shares price].
        set (taken := if Qle_bool (toFixed p (shares l)) s then toFixed p (shares l) else s).
        destruct (Qeq_bool (toFixed p (shares l - taken)) 0).
        -- specialize (IH lots (toFixed p (s - taken))
                         (pnl + (taken * salePrice - taken * price l))
                         (totalCost + taken * price l) (sharesSold + taken)).
           cbv zeta in IH. destruct IH as (I1 & I2 & I3).
           split; [exact I1|]. split; [exact I2|]. rewrite I3. ring.
        -- specialize (IH (mkLot (toFixed p (shares l - taken)) (price l) (ldate l) :: lots)
                         (toFixed p (s - taken))
                         (pnl + (taken * salePrice - taken * price l))
                         (totalCost + taken * price l) (sharesSold + taken)).
           cbv zeta in IH. cbn [map] in IH. destruct IH as (I1 & I2 & I3).
           change (setFShares (forgetDate l) (toFixed p (shares l - taken)))
             with (forgetDate (mkLot (toFixed p (shares l - taken)) (price l) (ldate l))).
           split; [exact I1|]. split; [exact I2|]. rewrite I3. ring.
      * cbn [fst snd map]. split; [reflexivity|]. split; [reflexivity|]. ring.
Qed.

(** What the fiscal loop counts on a queue of fine lots: the lots stay
    fine, [sharesSold] grows by what leaves [sharesToSell], the shares of
    the queue shrink by as much, [totalCost] grows by the book value that
    leaves the queue, and nothing is sold without [sharesSold] growing. *)
Lemma closeLots_accounts p salePrice : forall fuel lots s pnl,
  fineGrid p -> Forall lotFine lots -> 0 <= s -> atPrecision 5 s ->
  let r := closeLots fuel p salePrice s lots pnl in
  Forall lotFine (fst (fst r))
  /\ 0 <= snd (fst r) /\ snd (fst r) <= s /\ atPrecision 5 (snd (fst r))
  /\ currentShares (fst (fst r)) == currentShares lots - (s - snd (fst r))
  /\ snd r == pnl + (s - snd (fst r)) * salePrice
                  - (currentBookValue lots - currentBookValue (fst (fst r)))
  /\ (snd (fst r) == s -> currentBookValue (fst (fst r)) == currentBookValue lots).
Proof.
  induction fuel as [|fuel IH]; intros lots s pnl Hp Hl Hs Hg; cbv zeta.
  - cbn [closeLots fst snd]. repeat (split; [first [assumption | lra | ring]|]).
    intros _. reflexivity.
  - destruct lots as [|l lots].
    + cbn [closeLots fst snd]. repeat (split; [first [assumption | lra | ring]|]).
      intros _. reflexivity.
    + inversion Hl as [|? ? [Hl0 Hl5] Hlots]; subst.
      assert (Ea : toFixed p (shares l) == shares l) by (apply Hp, Hl5).
      cbn [closeLots]. destruct (Qltb 0 s) eqn:Es.
      * apply Qltb_lt in Es.
        destruct (Qle_bool (toFixed p (shares l)) s) eqn:Ec.
        -- apply Qle_bool_iff in Ec. unfold setShares. cbn [shares price].
           rewrite (toFixed_residue p (shares l) (Hp _ Hl5)).
           assert (H5 : atPrecision 5 (s - shares l)) by (apply atPrecision_minus; assumption).
           assert (Es' : toFixed p (s - toFixed p (shares l)) == s - shares l).
           { assert (E : s - toFixed p (shares l) == s - shares l) by lra.
             rewrite (toFixed_Qeq p _ _ E). apply Hp, H5. }
           specialize (IH lots (toFixed p (s - toFixed p (shares l)))
                          (pnl + (toFixed p (shares l) * salePrice
                                  - toFixed p (shares l) * price l)) Hp Hlots).
           cbv zeta in IH.
           destruct IH as (I1 & I2 & I3 & I4 & I5 & I6 & I7);
             [lra | eapply atPrecision_Qeq; [symmetry; exact Es' | exact H5] |].
           destruct (closeLots fuel p salePrice _ lots _) as [[lots' s'] pnl'].
           cbn [fst snd] in *.
           split; [exact I1|]. split; [exact I2|]. split; [lra|]. split; [exact I4|].
           split; [rewrite I5, currentShares_cons; lra|].
           split.
           ++ rewrite I6, currentBookValue_cons, Es', Ea. ring.
           ++ intros E. assert (E0 : shares l == 0) by lra.
              assert (E1 : s' == toFixed p (s - toFixed p (shares l))) by lra.
              rewrite (I7 E1), currentBookValue_cons, E0. ring.
        -- apply Qle_bool_gt in Ec. unfold setShares. cbn [shares price].
           assert (H5 : atPrecision 5 (shares l - s)) by (apply atPrecision_minus; assumption).
           assert (Ex : toFixed p (shares l - s) == shares l - s) by (apply Hp, H5).
           assert (Enz : Qeq_bool (toFixed p (shares l - s)) 0 = false).
           { destruct (Qeq_bool (toFixed p (shares l - s)) 0) eqn:E; [|reflexivity].
             apply Qeq_bool_iff in E. lra. }
           rewrite Enz. rewrite closeLots_idle by apply toFixed_self_difference.
           cbn [fst snd].
           assert (E0 : toFixed p (s - s) == 0).
           { assert (E : s - s == 0) by lra. rewrite (toFixed_Qeq p _ _ E).
             apply atPrecision_0. }
           split.
           { constructor; [|exact Hlots]. split; cbn [shares].
             - lra.
             - eapply atPrecision_Qeq; [symmetry; exact Ex | exact H5]. }
           split; [lra|]. split; [lra|].
           split; [eapply atPrecision_Qeq; [symmetry; exact E0 | apply atPrecision_0]|].
           split; [rewrite !currentShares_cons; cbn [shares]; lra|].
           split.
           ++ rewrite !currentBookValue_cons. cbn [shares price]. rewrite Ex, E0. ring.
           ++ intros E. lra.
      * apply Qltb_ge in Es. cbn [fst snd].
        repeat (split; [first [assumption | lra | ring]|]). intros _. reflexivity.
Qed.


(** *** The two engines side by side *)

Lemma isDividend_not_sell a : isDividend a = true -> String.eqb a "Sell" = false.
Proof.
  unfold isDividend. intros H. apply orb_true_iff in H.
  destruct H as [H|H]; apply String.eqb_eq in H; subst a; reflexivity.
Qed.

Lemma forgetDate_nil (lots : list Lot) : map forgetDate lots = [] -> lots = [].
Proof. destruct lots; [reflexivity | discriminate]. Qed.

(** One trade: the fiscal queues stay the image of the dashboard
    queues. *)
Lemma fiscalStep_tracks (b : Book) (report : list SaleRow) (t : Trade) :
  fst (fiscalStep (map forgetDate <$> portfolio b, report) t)
  = map forgetDate <$> portfolio (processTrade b t).
Proof.
  unfold fiscalStep, processTrade.
  destruct (isDividend (action t)) eqn:Ed.
  { rewrite (isDividend_not_buy _ Ed), (isDividend_not_sell _ Ed). reflexivity. }
  destruct (isBuyAction (action t)) eqn:Eb.
  { rewrite lookup_fmap.
    destruct (portfolio b !! ticker t) as [lots|];
      cbn [fmap option_fmap option_map fst portfolio].
    - rewrite fmap_insert, map_app. reflexivity.
    - rewrite fmap_insert. reflexivity. }
  destruct (String.eqb (action t) "Sell") eqn:Es; [|reflexivity].
  rewrite lookup_fmap.
  destruct (portfolio b !! ticker t) as [lots|]; cbn [fmap option_fmap option_map];
    [|reflexivity].
  rewrite length_map. fold (loopFuel lots).
  pose proof (loops_agree (precisionOf t) (unitPrice t) (loopFuel lots) lots
                (toFixed (precisionOf t) (qty t))
                (tradingPnL (recordSell (touch (default (newStats (type t))
                                                  (stats b !! ticker t)) t) t)) 0 0) as L.
  cbv zeta in L. destruct L as (L1 & _ & _).
  destruct (matchLots _ _ _ (map forgetDate lots) 0 0) as [[[flots fs] tc] ss].
  destruct (closeLots _ _ _ _ lots _) as [[lots' s'] pnl'].
  cbn [fst snd] in L1. subst flots.
  destruct lots' as [|l' lots']; cbn [map fst portfolio].
  - rewrite fmap_delete. reflexivity.
  - rewrite fmap_insert. reflexivity.
Qed.

Lemma fiscalRun_tracks (trades : list Trade) : forall (b : Book) (report : list SaleRow),
  fst (fold_left fiscalStep trades (map forgetDate <$> portfolio b, report))
  = map forgetDate <$> portfolio (fold_left processTrade trades b).
Proof.
  induction trades as [|t trades IH]; intros b report; [reflexivity|].
  cbn [fold_left].
  pose proof (fiscalStep_tracks b report t) as E.
  destruct (fiscalStep (map forgetDate <$> portfolio b, report) t) as [F' report'].
  cbn [fst] in E. subst F'. apply IH.
Qed.


(** *** What a sell books *)

(** The queue and the shares left do not depend on the sale price. *)
Lemma closeLots_queue p : forall fuel lots s sp pnl sp' pnl',
  fst (closeLots fuel p sp s lots pnl) = fst (closeLots fuel p sp' s lots pnl').
Proof.
  induction fuel as [|fuel IH]; intros lots s sp pnl sp' pnl'; [reflexivity|].
  destruct lots as [|l lots]; [reflexivity|].
  cbn [closeLots]. destruct (Qltb 0 s); [|reflexivity]. apply IH.
Qed.

(** Both loops on one queue: what the report counts as sold and as cost is
    what leaves the queue, and the dashboard books the difference. *)
Lemma loops_account p salePrice (lots : list Lot) s pnl :
  fineGrid p -> Forall lotFine lots -> 0 <= s -> atPrecision 5 s ->
  exists lots' s' pnl' tc ss,
    closeLots (loopFuel lots) p salePrice s lots pnl = (lots', s', pnl')
    /\ matchLots (2 * length (map forgetDate lots)) p s (map forgetDate lots) 0 0
       = (map forgetDate lots', s', tc, ss)
    /\ Forall lotFine lots'
    /\ 0 <= ss /\ ss <= s
    /\ ss == currentShares lots - currentShares lots'
    /\ tc == currentBookValue lots - currentBookValue lots'
    /\ pnl' == pnl + ss * salePrice - tc
    /\ (ss <= 0 -> tc == 0).
Proof.
  intros Hp Hl Hs Hg. rewrite length_map. fold (loopFuel lots).
  pose proof (loops_agree p salePrice (loopFuel lots) lots s pnl 0 0) as A.
  pose proof (closeLots_accounts p salePrice (loopFuel lots) lots s pnl Hp Hl Hs Hg) as B.
  pose proof (loops_agree p 0 (loopFuel lots) lots s 0 0 0) as A0.
  pose proof (closeLots_accounts p 0 (loopFuel lots) lots s 0 Hp Hl Hs Hg) as B0.
  pose proof (loops_agree p 1 (loopFuel lots) lots s 0 0 0) as A1.
  pose proof (closeLots_accounts p 1 (loopFuel lots) lots s 0 Hp Hl Hs Hg) as B1.
  pose proof (closeLots_queue p (loopFuel lots) lots s 0 0 salePrice pnl) as Q0.
  pose proof (closeLots_queue p (loopFuel lots) lots s 1 0 salePrice pnl) as Q1.
  cbv zeta in *.
  destruct (closeLots (loopFuel lots) p 0 s lots 0) as [[l0 s0] p0].
  destruct (closeLots (loopFuel lots) p 1 s lots 0) as [[l1 s1] p1].
  destruct (closeLots (loopFuel lots) p salePrice s lots pnl) as [[lots' s'] pnl'].
  destruct (matchLots (loopFuel lots) p s (map forgetDate lots) 0 0) as [[[fl fs] tc] ss].
  cbn [fst snd] in *.
  injection Q0 as -> ->. injection Q1 as -> ->.
  destruct A as (-> & -> & A3). destruct A0 as (_ & _ & A03). destruct A1 as (_ & _ & A13).
  destruct B as (B1' & B2 & B3 & B4 & B5 & B6 & B7).
  destruct B0 as (_ & _ & _ & _ & _ & B06 & _). destruct B1 as (_ & _ & _ & _ & _ & B16 & _).
  assert (Etc : tc == currentBookValue lots - currentBookValue lots') by lra.
  assert (Ess : ss == s - s') by lra.
  exists lots', s', pnl', tc, ss.
  split; [reflexivity|]. split; [reflexivity|]. split; [exact B1'|].
  split; [lra|]. split; [lra|]. split; [lra|]. split; [exact Etc|].
  split; [rewrite A3; ring|].
  intros Hle. assert (E : s' == s) by lra. specialize (B7 E). lra.
Qed.

Lemma fineQty_toFixed (t : Trade) :
  fineQty t ->
  0 <= toFixed (precisionOf t) (qty t)
  /\ atPrecision 5 (toFixed (precisionOf t) (qty t))
  /\ toFixed (precisionOf t) (qty t) == qty t.
Proof.
  intros [H0 H5]. pose proof (fineGrid_precisionOf t _ H5) as Hp. unfold atPrecision in Hp.
  split; [apply toFixed_nonneg, H0|]. split; [|exact Hp].
  apply (atPrecision_Qeq 5 (qty t)); [symmetry; exact Hp | exact H5].
Qed.

Lemma tradingPnL_start (b : Book) (t : Trade) :
  tradingPnL (default (newStats (type t)) (stats b !! ticker t))
  = tradingPnL (statsOf b (ticker t)).
Proof. unfold statsOf. destruct (stats b !! ticker t); reflexivity. Qed.

Lemma stats_elsewhere (b : Book) (t : Trade) (k : string) :
  k <> ticker t -> stats (processTrade b t) !! k = stats b !! k.
Proof.
  intros Hne. unfold processTrade.
  destruct (isDividend (action t)); [cbn [stats]; apply lookup_insert_ne; congruence|].
  destruct (isBuyAction (action t)); [cbn [stats]; apply lookup_insert_ne; congruence|].
  destruct (String.eqb (action t) "Sell"); [|cbn [stats]; apply lookup_insert_ne; congruence].
  destruct (portfolio b !! ticker t) as [lots|]; [|cbn [stats]; apply lookup_insert_ne; congruence].
  destruct (closeLots _ _ _ _ lots _) as [[lots' s'] pnl'].
  cbn [stats]. apply lookup_insert_ne. congruence.
Qed.

Lemma processTrade_fine (b : Book) (t : Trade) :
  fineBook b -> fineQty t -> fineBook (processTrade b t).
Proof.
  intros Hb Hq k lots Hk.
  destruct (decide (k = ticker t)) as [->|Hne];
    [|rewrite processTrade_elsewhere in Hk by exact Hne; eapply Hb, Hk].
  unfold processTrade in Hk.
  destruct (isDividend (action t)); [eapply Hb, Hk|].
  destruct (isBuyAction (action t)).
  { cbn [portfolio] in Hk. rewrite lookup_insert_eq in Hk. injection Hk as <-.
    destruct (portfolio b !! ticker t) as [old|] eqn:E.
    - apply lotFine_app; [eapply Hb, E | exact Hq].
    - constructor; [exact Hq | constructor]. }
  destruct (String.eqb (action t) "Sell"); [|eapply Hb, Hk].
  destruct (portfolio b !! ticker t) as [old|] eqn:E; [|cbn [portfolio] in Hk; congruence].
  destruct (fineQty_toFixed t Hq) as (F1 & F2 & _).
  destruct (loops_account (precisionOf t) (unitPrice t) old (toFixed (precisionOf t) (qty t))
              (tradingPnL (recordSell (touch (default (newStats (type t))
                                                (stats b !! ticker t)) t) t))
              (fineGrid_precisionOf t) (Hb _ _ E) F1 F2)
    as (lots' & s' & pnl' & tc & ss & E1 & _ & L & _).
  rewrite E1 in Hk. destruct lots' as [|l' lots']; cbn [portfolio] in Hk.
  - rewrite lookup_delete_eq in Hk. discriminate.
  - rewrite lookup_insert_eq in Hk. injection Hk as <-. exact L.
Qed.


(** *** The P&L of the report and of the dashboard *)

Lemma reportPnl_snoc (k : string) (report : list SaleRow) (row : SaleRow) :
  reportPnl k (report ++ [row])
  == reportPnl k report + (if String.eqb (saleTicker row) k then salePnl row else 0).
Proof.
  induction report as [|r report IH].
  - cbn [app reportPnl fold_right]. destruct (String.eqb (saleTicker row) k); ring.
  - cbn [app reportPnl fold_right]. fold (reportPnl k (report ++ [row])). fold (reportPnl k report).
    destruct (String.eqb (saleTicker r) k); rewrite IH; ring.
Qed.

Lemma statsOf_insert (b : Book) (P : gmap string (list Lot)) (s : Stats) (tk k : string) :
  statsOf (mkBook P (<[tk := s]> (stats b))) k = if String.eqb tk k then s else statsOf b k.
Proof.
  unfold statsOf. cbn [stats]. destruct (String.eqb_spec tk k) as [->|Hne].
  - rewrite lookup_insert_eq. reflexivity.
  - rewrite lookup_insert_ne by exact Hne. reflexivity.
Qed.

(** One trade moves the P&L of the report and the trading P&L of the
    dashboard by the same amount. *)
Lemma pnl_step (b : Book) (report : list SaleRow) (t : Trade) (k : string) :
  fineBook b -> fineQty t ->
  reportPnl k (snd (fiscalStep (map forgetDate <$> portfolio b, report) t)) - reportPnl k report
  == tradingPnL (statsOf (processTrade b t) k) - tradingPnL (statsOf b k).
Proof.
  intros Hb Hq. unfold fiscalStep, processTrade.
  destruct (isDividend (action t)) eqn:Ed.
  { rewrite (isDividend_not_buy _ Ed), (isDividend_not_sell _ Ed). cbn [snd].
    rewrite statsOf_insert. destruct (String.eqb_spec (ticker t) k) as [<-|Hne]; [|ring].
    cbn [tradingPnL addDividend touch]. rewrite tradingPnL_start. ring. }
  destruct (isBuyAction (action t)) eqn:Eb.
  { rewrite statsOf_insert.
    assert (E : snd (match (map forgetDate <$> portfolio b) !! ticker t with
                     | Some lots => (<[ticker t := lots ++ [mkFLot (qty t) (unitPrice t)]]>
                                       (map forgetDate <$> portfolio b), report)
                     | None => (<[ticker t := [mkFLot (qty t) (unitPrice t)]]>
                                  (map forgetDate <$> portfolio b), report)
                     end) = report)
      by (destruct ((map forgetDate <$> portfolio b) !! ticker t); reflexivity).
    rewrite E. destruct (String.eqb_spec (ticker t) k) as [<-|Hne]; [|ring].
    cbn [tradingPnL recordBuy touch]. rewrite tradingPnL_start. ring. }
  destruct (String.eqb (action t) "Sell") eqn:Es.
  2:{ cbn [snd]. rewrite statsOf_insert.
      destruct (String.eqb_spec (ticker t) k) as [<-|Hne]; [|ring].
      cbn [tradingPnL touch]. rewrite tradingPnL_start. ring. }
  rewrite lookup_fmap.
  destruct (portfolio b !! ticker t) as [lots|] eqn:E; cbn [fmap option_fmap option_map].
  2:{ cbn [snd]. rewrite statsOf_insert.
      destruct (String.eqb_spec (ticker t) k) as [<-|Hne]; [|ring].
      cbn [tradingPnL recordSell touch]. rewrite tradingPnL_start. ring. }
  destruct (fineQty_toFixed t Hq) as (F1 & F2 & _).
  destruct (loops_account (precisionOf t) (unitPrice t) lots (toFixed (precisionOf t) (qty t))
              (tradingPnL (recordSell (touch (default (newStats (type t))
                                                (stats b !! ticker t)) t) t))
              (fineGrid_precisionOf t) (Hb _ _ E) F1 F2)
    as (lots' & s' & pnl' & tc & ss & E1 & E2 & _ & L0 & _ & _ & _ & L5 & L6).
  rewrite E1, E2. rewrite statsOf_insert.
  cbn [tradingPnL recordSell touch setTradingPnL] in *. rewrite tradingPnL_start in L5.
  destruct (Qltb 0 ss) eqn:Ess.
  - destruct (map forgetDate lots'); cbn [snd];
      rewrite reportPnl_snoc; cbn [saleTicker salePnl];
      (destruct (String.eqb_spec (ticker t) k) as [<-|Hne]; [|ring]);
      cbn [tradingPnL setTradingPnL recordSell touch]; rewrite L5; ring.
  - apply Qltb_ge in Ess. specialize (L6 Ess).
    assert (E0 : ss == 0) by lra.
    destruct (map forgetDate lots'); cbn [snd];
      (destruct (String.eqb_spec (ticker t) k) as [<-|Hne]; [|ring]);
      cbn [tradingPnL setTradingPnL recordSell touch]; rewrite L5, E0, L6; ring.
Qed.

Lemma pnl_run (k : string) (trades : list Trade) : forall (b : Book) (report : list SaleRow),
  fineBook b -> Forall fineQty trades ->
  reportPnl k (snd (fold_left fiscalStep trades (map forgetDate <$> portfolio b, report)))
  - reportPnl k report
  == tradingPnL (statsOf (fold_left processTrade trades b) k) - tradingPnL (statsOf b k).
Proof.
  induction trades as [|t trades IH]; intros b report Hb Hq.
  - cbn [fold_left snd]. ring.
  - inversion Hq as [|? ? Ht Hrest]; subst. cbn [fold_left].
    pose proof (fiscalStep_tracks b report t) as E.
    pose proof (pnl_step b report t k Hb Ht) as S.
    destruct (fiscalStep (map forgetDate <$> portfolio b, report) t) as [F' report'].
    cbn [fst snd] in E, S. subst F'.
    specialize (IH (processTrade b t) report' (processTrade_fine b t Hb Ht) Hrest).
    lra.
Qed.


(** *** The rows of the report *)

Lemma fiscalStep_rows (F : gmap string (list FLot)) (report : list SaleRow) (t : Trade) :
  snd (fiscalStep (F, report) t) = report
  \/ exists row, snd (fiscalStep (F, report) t) = report ++ [row]
                 /\ reports row t /\ rowArithmetic row.
Proof.
  unfold fiscalStep.
  destruct (isBuyAction (action t)).
  { left. destruct (F !! ticker t); reflexivity. }
  destruct (String.eqb (action t) "Sell") eqn:Es; [|left; reflexivity].
  destruct (F !! ticker t) as [lots|]; [|left; reflexivity].
  destruct (matchLots _ _ _ lots 0 0) as [[[fl fs] tc] ss].
  destruct (Qltb 0 ss) eqn:Ess; [|left; destruct fl; reflexivity].
  right. eexists. split; [destruct fl; reflexivity|].
  apply Qltb_lt in Ess. apply String.eqb_eq in Es.
  split.
  - unfold reports. split; [exact Es|]. cbn [saleDate saleYear saleTicker saleType sellPrice].
    repeat (split; [reflexivity|]). reflexivity.
  - unfold rowArithmetic. cbn [soldQty salePnl sellPrice loadPrice saleTax capitalLoss].
    split; [exact Ess|]. split; [field; intros H; rewrite H in Ess; apply (Qlt_irrefl 0), Ess|].
    split; intros Hp.
    + rewrite (proj2 (Qltb_lt _ _) Hp).
      rewrite (proj2 (Qltb_ge (ss * unitPrice t - tc) 0) (Qlt_le_weak _ _ Hp)).
      split; reflexivity.
    + rewrite (proj2 (Qltb_ge 0 (ss * unitPrice t - tc)) Hp). split; [reflexivity|].
      destruct (Qltb (ss * unitPrice t - tc) 0) eqn:En.
      * apply Qabs_neg, Hp.
      * apply Qltb_ge in En. lra.
Qed.

Lemma StronglySorted_snoc {A} (R : A -> A -> Prop) (l : list A) (y : A) :
  StronglySorted R l -> Forall (fun x => R x y) l -> StronglySorted R (l ++ [y]).
Proof.
  induction 1 as [|x l Hl IH Hx]; intros HF; cbn [app].
  - constructor; constructor.
  - inversion HF as [|? ? Hxy HF']; subst. constructor; [apply IH, HF'|].
    apply Forall_app. split; [exact Hx | constructor; [exact Hxy | constructor]].
Qed.

Lemma report_run (allData : list Trade) (trades : list Trade) :
  forall (st : gmap string (list FLot) * list SaleRow),
  StronglySorted byDate trades -> (forall t, In t trades -> In t allData) ->
  reportInv allData (snd st) trades ->
  reportInv allData (snd (fold_left fiscalStep trades st)) [].
Proof.
  induction trades as [|t trades IH]; intros [F report] Hs Hin Hinv; [exact Hinv|].
  cbn [fold_left]. inversion Hs as [|? ? Hs' Ht]; subst.
  apply IH; [exact Hs' | intros x Hx; apply Hin; right; exact Hx |].
  destruct Hinv as (I1 & I2 & I3). cbn [snd] in I1, I2, I3.
  assert (I3' : Forall (fun row => Forall (fun t => (dateValue (saleDate row)
                                                     <= dateValue (date t))%Z) trades) report).
  { eapply Forall_impl; [exact I3|]. intros row Hrow. simpl in Hrow.
    inversion Hrow; assumption. }
  destruct (fiscalStep_rows F report t) as [E|(row & E & Hr & Ha)]; rewrite E.
  - split; [exact I1|]. split; [exact I2 | exact I3'].
  - destruct Hr as (R1 & R2 & R3). split; [|split].
    + apply Forall_app. split; [exact I1|]. constructor; [|constructor].
      split; [exact Ha|]. exists t. split; [apply Hin; left; reflexivity|].
      split; [exact R1 | split; [exact R2 | exact R3]].
    + apply StronglySorted_snoc; [exact I2|].
      eapply Forall_impl; [exact I3|]. intros r Hrow. simpl in Hrow.
      inversion Hrow as [|? ? Hd _]; subst. unfold rowsByDate. rewrite R2. exact Hd.
    + apply Forall_app. split; [exact I3'|]. constructor; [|constructor].
      rewrite R2. exact Ht.
Qed.

(** *** The running totals of a ticker *)

Lemma start_fields (b : Book) (t : Trade) :
  let s := default (newStats (type t)) (stats b !! ticker t) in
  let s0 := statsOf b (ticker t) in
  dividends s = dividends s0
  /\ totalInvestedHistorical s = totalInvestedHistorical s0
  /\ totalSoldShares s = totalSoldShares s0
  /\ totalSoldRevenue s = totalSoldRevenue s0.
Proof.
  cbv zeta. unfold statsOf. destruct (stats b !! ticker t); cbn [from_option id];
    repeat (split; [reflexivity|]); reflexivity.
Qed.

Lemma sumOver_cons sel f k (t : Trade) (trades : list Trade) :
  sumOver sel f k (t :: trades) == sumOver sel f k [t] + sumOver sel f k trades.
Proof.
  unfold sumOver. cbn [fold_right].
  destruct (String.eqb (ticker t) k && sel t); ring.
Qed.

Lemma sumOver_perm sel f k (l l' : list Trade) :
  Permutation l l' -> sumOver sel f k l == sumOver sel f k l'.
Proof.
  induction 1 as [|x l l' _ IH|x y l|l l' l'' _ IH1 _ IH2].
  - reflexivity.
  - rewrite (sumOver_cons sel f k x l), (sumOver_cons sel f k x l'), IH. reflexivity.
  - rewrite (sumOver_cons sel f k y (x :: l)), (sumOver_cons sel f k x l),
            (sumOver_cons sel f k x (y :: l)), (sumOver_cons sel f k y l). ring.
  - rewrite IH1. exact IH2.
Qed.

(** One trade adds its amounts to the totals of its ticker. *)
Lemma totals_step (b : Book) (t : Trade) (k : string) :
  dividends (statsOf (processTrade b t) k)
  == dividends (statsOf b k) + sumOver dividendTrade totalSpent k [t]
  /\ totalInvestedHistorical (statsOf (processTrade b t) k)
     == totalInvestedHistorical (statsOf b k) + sumOver buyTrade totalSpent k [t]
  /\ totalSoldShares (statsOf (processTrade b t) k)
     == totalSoldShares (statsOf b k) + sumOver sellTrade qty k [t]
  /\ totalSoldRevenue (statsOf (processTrade b t) k)
     == totalSoldRevenue (statsOf b k) + sumOver sellTrade (fun t => qty t * unitPrice t) k [t].
Proof.
  unfold processTrade, sumOver, dividendTrade, buyTrade, sellTrade. cbn [fold_right].
  destruct (isDividend (action t));
    [totals_case statsOf_insert (start_fields b t) t k|].
  destruct (isBuyAction (action t));
    [totals_case statsOf_insert (start_fields b t) t k|].
  destruct (String.eqb (action t) "Sell");
    [|totals_case statsOf_insert (start_fields b t) t k].
  destruct (portfolio b !! ticker t) as [lots|];
    [|totals_case statsOf_insert (start_fields b t) t k].
  destruct (closeLots _ _ _ _ lots _) as [[lots' s'] pnl'].
  totals_case statsOf_insert (start_fields b t) t k.
Qed.

Lemma totals_run (k : string) (trades : list Trade) : forall b : Book,
  dividends (statsOf (fold_left processTrade trades b) k)
  == dividends (statsOf b k) + sumOver dividendTrade totalSpent k trades
  /\ totalInvestedHistorical (statsOf (fold_left processTrade trades b) k)
     == totalInvestedHistorical (statsOf b k) + sumOver buyTrade totalSpent k trades
  /\ totalSoldShares (statsOf (fold_left processTrade trades b) k)
     == totalSoldShares (statsOf b k) + sumOver sellTrade qty k trades
  /\ totalSoldRevenue (statsOf (fold_left processTrade trades b) k)
     == totalSoldRevenue (statsOf b k)
        + sumOver sellTrade (fun t => qty t * unitPrice t) k trades.
Proof.
  induction trades as [|t trades IH]; intros b.
  - cbn [fold_left sumOver fold_right]. (split; [|split; [|split]]); ring.
  - cbn [fold_left]. destruct (IH (processTrade b t)) as (I1 & I2 & I3 & I4).
    destruct (totals_step b t k) as (T1 & T2 & T3 & T4).
    rewrite (sumOver_cons dividendTrade), (sumOver_cons buyTrade),
            (sumOver_cons sellTrade qty), (sumOver_cons sellTrade (fun t => qty t * unitPrice t)).
    (split; [|split; [|split]]); lra.
Qed.


Lemma fineBook_empty : fineBook (mkBook ∅ ∅).
Proof. intros k lots E. cbn [portfolio] in E. rewrite lookup_empty in E. discriminate. Qed.

Lemma fineBook_run (trades : list Trade) : forall b : Book,
  fineBook b -> Forall fineQty trades -> fineBook (fold_left processTrade trades b).
Proof.
  induction trades as [|t trades IH]; intros b Hb Hq; [exact Hb|].
  inversion Hq; subst. cbn [fold_left]. apply IH; [apply processTrade_fine|]; assumption.
Qed.

(** A sell on a fine book, in terms of the queue of its ticker. *)
Lemma processTrade_sell_books (b : Book) (t : Trade) :
  fineBook b -> fineQty t -> action t = "Sell" ->
  let before := default [] (portfolio b !! ticker t) in
  let after := default [] (portfolio (processTrade b t) !! ticker t) in
  let sold := currentShares before - currentShares after in
  0 <= sold /\ sold <= qty t
  /\ (qty t <= currentShares before -> sold == qty t)
  /\ tradingPnL (statsOf (processTrade b t) (ticker t))
     == tradingPnL (statsOf b (ticker t)) + sold * unitPrice t
        - (currentBookValue before - currentBookValue after).
Proof.
  intros Hb Hq Ha. cbv zeta.
  assert (Ed : isDividend (action t) = false) by (rewrite Ha; reflexivity).
  assert (Eb : isBuyAction (action t) = false) by (rewrite Ha; reflexivity).
  assert (Es : String.eqb (action t) "Sell" = true) by (rewrite Ha; reflexivity).
  destruct (fineQty_toFixed t Hq) as (F1 & F2 & F3). destruct Hq as [Hq0 Hq5].
  unfold processTrade. rewrite Ed, Eb, Es.
  destruct (portfolio b !! ticker t) as [lots|] eqn:E; cbn [from_option id].
  - destruct (loops_account (precisionOf t) (unitPrice t) lots (toFixed (precisionOf t) (qty t))
                (tradingPnL (recordSell (touch (default (newStats (type t))
                                                  (stats b !! ticker t)) t) t))
                (fineGrid_precisionOf t) (Hb _ _ E) F1 F2)
      as (lots' & s' & pnl' & tc & ss & E1 & _ & L & L0 & L1 & L2 & L3 & L4 & _).
    pose proof (closeLots_covered (precisionOf t) (unitPrice t) lots (loopFuel lots)
                  (toFixed (precisionOf t) (qty t))
                  (tradingPnL (recordSell (touch (default (newStats (type t))
                                                    (stats b !! ticker t)) t) t))
                  (fineGrid_precisionOf t) (Hb _ _ E) F1 F2) as C.
    rewrite E1 in *. cbn [fst snd] in C.
    cbn [tradingPnL recordSell touch] in L4. rewrite tradingPnL_start in L4.
    rewrite statsOf_insert, String.eqb_refl. cbn [tradingPnL setTradingPnL].
    assert (Eafter : default [] (portfolio
                       (mkBook match lots' with
                               | [] => delete (ticker t) (portfolio b)
                               | _ :: _ => <[ticker t := lots']> (portfolio b)
                               end
                               (<[ticker t := setTradingPnL
                                    (recordSell (touch (default (newStats (type t))
                                                          (stats b !! ticker t)) t) t) pnl']>
                                  (stats b))) !! ticker t) = lots').
    { cbn [portfolio]. destruct lots'.
      - rewrite lookup_delete_eq. reflexivity.
      - rewrite lookup_insert_eq. reflexivity. }
    rewrite Eafter.
    split; [lra|]. split; [lra|]. split.
    + intros Hle. destruct C as (_ & C2 & _); [lra | unfold loopFuel; lia |]. lra.
    + rewrite L4, L2, L3. ring.
  - cbn [portfolio]. rewrite E. cbn [from_option id].
    rewrite statsOf_insert, String.eqb_refl. cbn [tradingPnL recordSell touch].
    rewrite tradingPnL_start.
    assert (E0 : currentShares [] == 0) by reflexivity.
    assert (E1 : currentBookValue [] == 0) by reflexivity.
    split; [lra|]. split; [lra|]. split; [intros Hle; lra | ring].
Qed.

(** No queue of the dashboard is ever empty. *)
Lemma processTrade_nonempty (b : Book) (t : Trade) :
  map_Forall (fun _ lots => lots <> []) (portfolio b) ->
  map_Forall (fun _ lots => lots <> []) (portfolio (processTrade b t)).
Proof.
  intros Hb. unfold processTrade.
  destruct (isDividend (action t)); [exact Hb|].
  destruct (isBuyAction (action t)).
  { cbn [portfolio]. apply map_Forall_insert_2; [|exact Hb].
    destruct (portfolio b !! ticker t) as [lots|]; [destruct lots|]; discriminate. }
  destruct (String.eqb (action t) "Sell"); [|exact Hb].
  destruct (portfolio b !! ticker t) as [lots|]; [|exact Hb].
  destruct (closeLots _ _ _ _ lots _) as [[lots' s'] pnl'].
  destruct lots' as [|l' lots']; cbn [portfolio].
  - apply map_Forall_delete, Hb.
  - apply map_Forall_insert_2; [discriminate | exact Hb].
Qed.


(** *** The range of buy prices *)

Lemma recordBuy_keeps (s : Stats) (t : Trade) (p : Q) :
  withinBuyRange s p -> withinBuyRange (recordBuy s t) p.
Proof.
  intros (m & Hm & H1 & H2). unfold withinBuyRange, recordBuy. cbn [minBuyPrice maxBuyPrice].
  rewrite Hm. destruct (Qltb 0 (unitPrice t)) eqn:Ep; cbn [andb].
  - destruct (Qltb (unitPrice t) m) eqn:E1; destruct (Qltb (maxBuyPrice s) (unitPrice t)) eqn:E2;
      try apply Qltb_lt in E1; try apply Qltb_lt in E2;
      eexists; (split; [reflexivity|]); split; lra.
  - exists m. split; [reflexivity|]. split; assumption.
Qed.

Lemma recordBuy_adds (s : Stats) (t : Trade) :
  0 < unitPrice t -> withinBuyRange (recordBuy s t) (unitPrice t).
Proof.
  intros Hp. unfold withinBuyRange, recordBuy. cbn [minBuyPrice maxBuyPrice].
  rewrite (proj2 (Qltb_lt _ _) Hp). cbn [andb].
  destruct (Qltb (maxBuyPrice s) (unitPrice t)) eqn:E2;
    [apply Qltb_lt in E2 | apply Qltb_ge in E2];
    (destruct (minBuyPrice s) as [m|];
     [destruct (Qltb (unitPrice t) m) eqn:E1; [apply Qltb_lt in E1 | apply Qltb_ge in E1]|]);
    eexists; (split; [reflexivity|]); split; lra.
Qed.

Lemma start_range (b : Book) (t : Trade) (p : Q) :
  withinBuyRange (statsOf b (ticker t)) p ->
  withinBuyRange (default (newStats (type t)) (stats b !! ticker t)) p.
Proof.
  unfold statsOf. destruct (stats b !! ticker t); [trivial|].
  intros (m & Hm & _). discriminate.
Qed.

Lemma range_step_keeps (b : Book) (t : Trade) (k : string) (p : Q) :
  withinBuyRange (statsOf b k) p -> withinBuyRange (statsOf (processTrade b t) k) p.
Proof.
  intros H. unfold processTrade.
  destruct (isDividend (action t));
    [range_case statsOf_insert start_range t k H|].
  destruct (isBuyAction (action t)).
  { rewrite statsOf_insert.
    destruct (String.eqb_spec (ticker t) k) as [<-|Hne]; [|exact H].
    apply recordBuy_keeps. apply start_range in H.
    destruct H as (m & Hm & H1 & H2). exists m. split; [exact Hm | split; assumption]. }
  destruct (String.eqb (action t) "Sell");
    [|range_case statsOf_insert start_range t k H].
  destruct (portfolio b !! ticker t) as [lots|];
    [|range_case statsOf_insert start_range t k H].
  destruct (closeLots _ _ _ _ lots _) as [[lots' s'] pnl'].
  range_case statsOf_insert start_range t k H.
Qed.

Lemma range_step_adds (b : Book) (t : Trade) :
  buyTrade t = true -> 0 < unitPrice t ->
  withinBuyRange (statsOf (processTrade b t) (ticker t)) (unitPrice t).
Proof.
  unfold buyTrade. intros Hb Hp. apply andb_true_iff in Hb. destruct Hb as [Hd Hb].
  apply negb_true_iff in Hd. unfold processTrade. rewrite Hd, Hb.
  rewrite statsOf_insert, String.eqb_refl. apply recordBuy_adds, Hp.
Qed.

Lemma range_run (k : string) (p : Q) (trades : list Trade) : forall b : Book,
  withinBuyRange (statsOf b k) p ->
  withinBuyRange (statsOf (fold_left processTrade trades b) k) p.
Proof.
  induction trades as [|t trades IH]; intros b H; [exact H|].
  cbn [fold_left]. apply IH, range_step_keeps, H.
Qed.

Lemma range_run_adds (t : Trade) (trades : list Trade) : forall b : Book,
  In t trades -> buyTrade t = true -> 0 < unitPrice t ->
  withinBuyRange (statsOf (fold_left processTrade trades b) (ticker t)) (unitPrice t).
Proof.
  induction trades as [|x trades IH]; intros b Hin Hb Hp; [destruct Hin|].
  cbn [fold_left]. destruct Hin as [-> | Hin].
  - apply range_run, range_step_adds; assumption.
  - apply IH; assumption.
Qed.

(** *** Allocation *)

Lemma allocation_sum (G : Q) (m : gmap string TickerValue) :
  0 < G ->
  map_fold (fun _ tv acc => acc + allocationPct G tv) 0 m
  == map_fold (fun _ tv acc => acc + bookVal tv) 0 m / G.
Proof.
  intros HG.
  apply (map_fold_weak_ind
           (fun r (m : gmap string TickerValue) =>
              r == map_fold (fun _ tv acc => acc + bookVal tv) 0 m / G)).
  - rewrite map_fold_empty. field. lra.
  - intros i x m' r Hi IH.
    rewrite (map_fold_insert Qeq (fun _ tv acc => acc + bookVal tv) 0 i x m').
    + rewrite IH. unfold allocationPct. rewrite (proj2 (Qltb_lt _ _) HG). field. lra.
    + intros j z a c Hac. rewrite Hac. reflexivity.
    + intros j1 j2 z1 z2 y _ _ _. ring.
    + exact Hi.
Qed.

End EngineMore.

(** ** Further properties of the three engines *)

Module EngineExtras.
Import Parse Fiscal Reports Agreement EngineInv AgreementInv NormalizerMoreDefs EngineMoreDefs.
Import NormalizerFacts NormalizerMore EngineFacts AgreementFacts EngineMore.
Local Open Scope Q_scope.

(** X6. The [while] loops that close lots stop by themselves: run for twice
    the length of the queue, the loop of the dashboard and the loop of the
    fiscal report both end in a state where nothing is left to sell or the
    queue is empty, and any number of further iterations changes
    nothing. *)
Theorem matching_loops_exit (p : nat) (salePrice s pnl totalCost sharesSold : Q)
    (lots : list Lot) (flots : list FLot) (extra : nat) :
  closeLotsExited (closeLots (loopFuel lots) p salePrice s lots pnl)
  /\ closeLots (loopFuel lots + extra) p salePrice s lots pnl
     = closeLots (loopFuel lots) p salePrice s lots pnl
  /\ matchLotsExited (matchLots (2 * length flots) p s flots totalCost sharesSold)
  /\ matchLots (2 * length flots + extra) p s flots totalCost sharesSold
     = matchLots (2 * length flots) p s flots totalCost sharesSold.
Proof.
  split; [apply closeLots_fuel|].
  split; [apply closeLots_more_fuel, closeLots_fuel|].
  split; [apply matchLots_fuel|].
  apply matchLots_more_fuel, matchLots_fuel.
Qed.

(** X7. The dashboard and the fiscal report end with the same open lots:
    for any trades, the queues [calculateFiscalReportDetails] is left with
    are those of [calculatePortfolioStats] without the dates, ticker by
    ticker and lot by lot. *)
Theorem engines_hold_same_lots (allData : list Trade) :
  fst (fiscalRun allData) = map forgetDate <$> portfolio (processTransactions allData).
Proof.
  unfold fiscalRun, processTransactions.
  rewrite <- (fiscalRun_tracks (sortByDate allData) (mkBook ∅ ∅) []).
  cbn [portfolio]. rewrite fmap_empty. reflexivity.
Qed.

(** X8. When every quantity is a non-negative number of at most 5
    decimals, the P&L column of the fiscal report, summed over the rows of
    a ticker, is the trading P&L the dashboard computes for that
    ticker. *)
Theorem report_pnl_is_dashboard_pnl (allData : list Trade) (k : string) :
  Forall fineQty allData ->
  reportPnl k (calculateFiscalReportDetails allData)
  == tradingPnL (statsOf (processTransactions allData) k).
Proof.
  intros Hq. unfold calculateFiscalReportDetails, fiscalRun, processTransactions.
  pose proof (pnl_run k (sortByDate allData) (mkBook ∅ ∅) [] fineBook_empty
                (Forall_sortByDate _ _ Hq)) as H.
  cbn [portfolio] in H. rewrite fmap_empty in H.
  assert (E0 : reportPnl k [] == 0) by reflexivity.
  assert (E1 : tradingPnL (statsOf (mkBook ∅ ∅) k) == 0).
  { unfold statsOf. cbn [stats]. rewrite lookup_empty. reflexivity. }
  lra.
Qed.

(** Two buys at different prices and a sell across both lots, with a second
    ticker in between. *)
Lemma report_pnl_is_dashboard_pnl_witness :
  let trades : list Trade :=
    [ mkTrade (mkDate 2023 1 1) "ACME" "Buy" 10 100 1000 "Stock";
      mkTrade (mkDate 2023 3 1) "BOLT" "Buy" 3 20 60 "Stock";
      mkTrade (mkDate 2023 6 1) "ACME" "Buy" 5 120 600 "Stock";
      mkTrade (mkDate 2024 1 1) "ACME" "Sell" 12 150 1800 "Stock" ] in
  reportPnl "ACME" (calculateFiscalReportDetails trades)
  == tradingPnL (statsOf (processTransactions trades) "ACME")
  /\ reportPnl "ACME" (calculateFiscalReportDetails trades) == 560.
Proof.
  intros trades. split.
  - apply (report_pnl_is_dashboard_pnl trades "ACME").
    repeat constructor; try (vm_compute; reflexivity); try (unfold Qle; simpl; lia).
  - vm_compute. reflexivity.
Defined.

(** X9. What a sell books in the dashboard, after any history of trades
    with non-negative quantities of at most 5 decimals: the shares that
    leave the open lots of the ticker are at most the quantity of the sell,
    and exactly that quantity when the open lots cover it; the trading P&L
    grows by those shares at the sale price minus the book value that
    leaves the open lots. *)
Theorem sell_books_what_leaves (history : list Trade) (t : Trade) :
  Forall fineQty history -> fineQty t -> action t = "Sell" ->
  let b := fold_left processTrade history (mkBook ∅ ∅) in
  let b' := processTrade b t in
  let sold := openShares b (ticker t) - openShares b' (ticker t) in
  0 <= sold /\ sold <= qty t
  /\ (qty t <= openShares b (ticker t) -> sold == qty t)
  /\ tradingPnL (statsOf b' (ticker t))
     == tradingPnL (statsOf b (ticker t)) + sold * unitPrice t
        - (openBookValue b (ticker t) - openBookValue b' (ticker t)).
Proof.
  intros Hh Hq Ha b b' sold. subst sold b'.
  rewrite !openShares_lots, !openBookValue_lots.
  apply processTrade_sell_books; [|exact Hq | exact Ha].
  apply fineBook_run; [apply fineBook_empty | exact Hh].
Qed.

(** A sell of 12 after buys of 10 at 100 and 5 at 120: 12 shares leave, the
    P&L grows by 12 * 150 - (10 * 100 + 2 * 120). *)
Lemma sell_books_what_leaves_witness :
  let history : list Trade :=
    [ mkTrade (mkDate 2023 1 1) "ACME" "Buy" 10 100 1000 "Stock";
      mkTrade (mkDate 2023 6 1) "ACME" "Buy" 5 120 600 "Stock" ] in
  let t : Trade := mkTrade (mkDate 2024 1 1) "ACME" "Sell" 12 150 1800 "Stock" in
  let b := fold_left processTrade history (mkBook ∅ ∅) in
  let b' := processTrade b t in
  openShares b "ACME" - openShares b' "ACME" == 12
  /\ tradingPnL (statsOf b' "ACME")
     == tradingPnL (statsOf b "ACME") + (openShares b "ACME" - openShares b' "ACME") * 150
        - (openBookValue b "ACME" - openBookValue b' "ACME").
Proof.
  intros history t b b'.
  destruct (sell_books_what_leaves history t) as (_ & _ & H3 & H4).
  - repeat constructor; try (vm_compute; reflexivity); try (unfold Qle; simpl; lia).
  - split; [unfold Qle; simpl; lia | vm_compute; reflexivity].
  - reflexivity.
  - split; [apply H3; vm_compute; discriminate | exact H4].
Defined.

(** X10. Every row of the fiscal report reports a sell of the input: it
    carries the date, year, ticker, type and unit price of a trade whose
    action is [Sell]; its quantity is positive, its P&L is the quantity
    times the difference of sale price and load price, the tax is 26% of a
    positive P&L and zero otherwise, the loss column is the absolute value
    of a negative P&L and zero otherwise; and the rows are in ascending
    order of date. *)
Theorem fiscal_rows_report_sells (allData : list Trade) :
  let report := calculateFiscalReportDetails allData in
  Forall (fun row => rowArithmetic row /\ exists t, In t allData /\ reports row t) report
  /\ StronglySorted rowsByDate report.
Proof.
  cbv zeta. unfold calculateFiscalReportDetails, fiscalRun.
  destruct (report_run allData (sortByDate allData) (∅, [])) as (H1 & H2 & _).
  - apply sortByDate_sorted.
  - intros t Ht. apply In_sortByDate, Ht.
  - split; [constructor|]. split; constructor.
  - split; [exact H1 | exact H2].
Qed.

(** X11. The running totals of the dashboard are sums over the trades of
    the ticker, whatever the order of the rows: the dividends are the sum
    of the totals of its dividend rows, the invested capital the sum of the
    totals of its buy-class rows, and the sold shares and revenue the sums
    over its sells, covered by open lots or not. *)
Theorem totals_sum_the_trades (allData : list Trade) (k : string) :
  let s := statsOf (processTransactions allData) k in
  dividends s == sumOver dividendTrade totalSpent k allData
  /\ totalInvestedHistorical s == sumOver buyTrade totalSpent k allData
  /\ totalSoldShares s == sumOver sellTrade qty k allData
  /\ totalSoldRevenue s == sumOver sellTrade (fun t => qty t * unitPrice t) k allData.
Proof.
  cbv zeta. unfold processTransactions.
  destruct (totals_run k (sortByDate allData) (mkBook ∅ ∅)) as (T1 & T2 & T3 & T4).
  assert (E : statsOf (mkBook ∅ ∅) k = newStats "").
  { unfold statsOf. cbn [stats]. rewrite lookup_empty. reflexivity. }
  rewrite E in T1, T2, T3, T4. cbn [dividends totalInvestedHistorical totalSoldShares
                                    totalSoldRevenue newStats] in T1, T2, T3, T4.
  rewrite <- (sumOver_perm dividendTrade totalSpent k _ _ (sortByDate_perm allData)).
  rewrite <- (sumOver_perm buyTrade totalSpent k _ _ (sortByDate_perm allData)).
  rewrite <- (sumOver_perm sellTrade qty k _ _ (sortByDate_perm allData)).
  rewrite <- (sumOver_perm sellTrade (fun t => qty t * unitPrice t) k _ _
                (sortByDate_perm allData)).
  (split; [|split; [|split]]); lra.
Qed.

(** X12. The dashboard never keeps an empty queue: a ticker is in
    [portfolio] exactly when it has an open lot, so the oldest-lot date of
    phase 2 is missing exactly for the tickers without a queue. *)
Theorem open_queues_nonempty (allData : list Trade) :
  let p := portfolio (processTransactions allData) in
  map_Forall (fun _ lots => lots <> []) p
  /\ forall k, activeSince (tickerValue p k) = None <-> p !! k = None.
Proof.
  cbv zeta.
  assert (H : map_Forall (fun _ (lots : list Lot) => lots <> [])
                (portfolio (processTransactions allData))).
  { unfold processTransactions. generalize (sortByDate allData). intros trades.
    assert (G : forall b, map_Forall (fun _ (lots : list Lot) => lots <> []) (portfolio b) ->
                  map_Forall (fun _ (lots : list Lot) => lots <> [])
                    (portfolio (fold_left processTrade trades b))).
    { induction trades as [|t trades IH]; intros b Hb; [exact Hb|].
      cbn [fold_left]. apply IH, processTrade_nonempty, Hb. }
    apply G. cbn [portfolio]. apply map_Forall_empty. }
  split; [exact H|]. intros k. unfold tickerValue.
  destruct (portfolio (processTransactions allData) !! k) as [lots|] eqn:E.
  - cbn [activeSince]. destruct lots as [|l lots].
    + exfalso. apply (H k [] E). reflexivity.
    + split; discriminate.
  - cbn [activeSince]. split; reflexivity.
Qed.

(** X22. The lowest and the highest buy price of the dashboard bracket the
    buys: for every buy-class trade of a ticker with a positive unit price,
    [minBuyPrice] is a price, not [Infinity], and the unit price of the
    trade lies between [minBuyPrice] and [maxBuyPrice] of that ticker. *)
Theorem buy_prices_within_range (allData : list Trade) (t : Trade) :
  In t allData -> buyTrade t = true -> 0 < unitPrice t ->
  withinBuyRange (statsOf (processTransactions allData) (ticker t)) (unitPrice t).
Proof.
  intros Hin Hb Hp. unfold processTransactions.
  apply range_run_adds; [apply In_sortByDate, Hin | exact Hb | exact Hp].
Qed.

(** Buys at 100 and at 80: the buy at 100 lies between the lowest price 80
    and the highest price 100. *)
Lemma buy_prices_within_range_witness :
  let t : Trade := mkTrade (mkDate 2023 1 1) "ACME" "Buy" 10 100 1000 "Stock" in
  let trades : list Trade :=
    [ t; mkTrade (mkDate 2023 6 1) "ACME" "Buy" 5 80 400 "Stock" ] in
  withinBuyRange (statsOf (processTransactions trades) "ACME") 100
  /\ minBuyPrice (statsOf (processTransactions trades) "ACME") = Some 80.
Proof.
  intros t trades. split.
  - apply (buy_prices_within_range trades t).
    + left. reflexivity.
    + reflexivity.
    + reflexivity.
  - reflexivity.
Defined.

(** X23. The allocation column of the dashboard adds up: when the grand
    total of the book values is positive, the allocations of all tickers
    sum to 1. *)
Theorem allocation_sums_to_one (allData : list Trade) :
  0 < grandTotalBookValue (processTransactions allData) ->
  totalAllocation (processTransactions allData) == 1.
Proof.
  intros HG. unfold totalAllocation. rewrite (allocation_sum _ _ HG).
  fold (grandTotalBookValue (processTransactions allData)). field. lra.
Qed.

(** Two tickers with book values 1000 and 60. *)
Lemma allocation_sums_to_one_witness :
  let trades : list Trade :=
    [ mkTrade (mkDate 2023 1 1) "ACME" "Buy" 10 100 1000 "Stock";
      mkTrade (mkDate 2023 3 1) "BOLT" "Buy" 3 20 60 "Stock" ] in
  grandTotalBookValue (processTransactions trades) == 1060
  /\ totalAllocation (processTransactions trades) == 1.
Proof.
  intros trades. split; [vm_compute; reflexivity|].
  apply (allocation_sums_to_one trades). vm_compute. reflexivity.
Defined.

End EngineExtras.

(** ** More on the tax-credit basket *)

Module BasketMore.
Import Fiscal Reports EngineInv BasketMoreDefs BasketFacts.
Local Open Scope Q_scope.

(** *** The total of the basket *)

Lemma basketTotal_fresh (m : gmap Z Q) (i : Z) (x : Q) :
  m !! i = None -> basketTotal (<[i := x]> m) == basketTotal m + x.
Proof.
  intros Hi. unfold basketTotal.
  apply (map_fold_insert Qeq (fun _ amount acc => acc + amount) 0 i x m).
  - intros j z a b Hab. rewrite Hab. reflexivity.
  - intros j1 j2 z1 z2 y _ _ _. ring.
  - exact Hi.
Qed.

Lemma basketTotal_delete (m : gmap Z Q) (i : Z) (a : Q) :
  m !! i = Some a -> basketTotal m == basketTotal (delete i m) + a.
Proof.
  intros Hi. unfold basketTotal.
  apply (map_fold_delete Qeq (fun _ amount acc => acc + amount) 0 i a m).
  - intros j z x y Hxy. rewrite Hxy. reflexivity.
  - intros j1 j2 z1 z2 y _ _ _. ring.
  - exact Hi.
Qed.

Lemma basketTotal_insert (m : gmap Z Q) (i : Z) (a x : Q) :
  m !! i = Some a -> basketTotal (<[i := x]> m) == basketTotal m - a + x.
Proof.
  intros Hi. rewrite <- insert_delete_eq.
  rewrite basketTotal_fresh by apply lookup_delete_eq.
  rewrite (basketTotal_delete m i a Hi). ring.
Qed.

Lemma basketTotal_empty : basketTotal ∅ == 0.
Proof. unfold basketTotal. rewrite map_fold_empty. reflexivity. Qed.

Lemma basketTotal_nonneg (m : gmap Z Q) : nonnegBasket m -> 0 <= basketTotal m.
Proof.
  unfold basketTotal.
  apply (map_fold_weak_ind (fun r (m : gmap Z Q) => nonnegBasket m -> 0 <= r)).
  - intros _. lra.
  - intros i x m' r Hi IH Hm.
    assert (Hx : 0 <= x) by (apply (Hm i x), lookup_insert_eq).
    assert (Hm' : nonnegBasket m').
    { intros k a Hk. apply (Hm k a). rewrite lookup_insert_ne; [exact Hk|].
      intros ->. congruence. }
    specialize (IH Hm'). lra.
Qed.

(** *** Drawing on the basket *)

(** What is drawn leaves the basket and the gain still to offset. *)
Lemma useBasket_conserves year (availableYears : list Z) :
  forall (minusBucket : gmap Z Q) used remaining,
  let r := useBasket year availableYears minusBucket used remaining in
  basketTotal (fst (fst r)) + snd (fst r) == basketTotal minusBucket + used
  /\ snd (fst r) + snd r == used + remaining.
Proof.
  induction availableYears as [|pastYear rest IH]; intros b used remaining; cbv zeta.
  - cbn [useBasket fst snd]. split; reflexivity.
  - cbn [useBasket]. destruct (4 <? year - pastYear)%Z; [apply IH|].
    destruct (b !! pastYear) as [available|] eqn:E; [|apply IH].
    set (take := Qmin available remaining).
    set (b1 := <[pastYear := available - take]> b).
    assert (E1 : basketTotal b1 == basketTotal b - take).
    { subst b1. rewrite (basketTotal_insert b pastYear available _ E). ring. }
    set (b2 := if Qeq_bool (available - take) 0 then delete pastYear b1 else b1).
    assert (E2 : basketTotal b2 == basketTotal b - take).
    { subst b2. destruct (Qeq_bool (available - take) 0) eqn:Ez; [|exact E1].
      apply Qeq_bool_iff in Ez.
      assert (Hl : b1 !! pastYear = Some (available - take)) by apply lookup_insert_eq.
      rewrite (basketTotal_delete b1 pastYear _ Hl) in E1. lra. }
    destruct (Qeq_bool (remaining - take) 0).
    + cbn [fst snd]. split; [rewrite E2|]; ring.
    + specialize (IH b2 (used + take) (remaining - take)). cbv zeta in IH.
      destruct IH as [I1 I2]. split; [rewrite I1, E2|rewrite I2]; ring.
Qed.

(** Drawing only ever adds to what was used, and adds no entry to the
    basket. *)
Lemma useBasket_draws year (availableYears : list Z) :
  forall (minusBucket : gmap Z Q) used remaining,
  nonnegBasket minusBucket -> 0 <= remaining ->
  let r := useBasket year availableYears minusBucket used remaining in
  used <= snd (fst r)
  /\ (forall k, minusBucket !! k = None -> fst (fst r) !! k = None).
Proof.
  induction availableYears as [|pastYear rest IH]; intros b used remaining Hb Hr; cbv zeta.
  - cbn [useBasket fst snd]. split; [lra | intros k Hk; exact Hk].
  - cbn [useBasket]. destruct (4 <? year - pastYear)%Z; [apply IH; assumption|].
    destruct (b !! pastYear) as [available|] eqn:E; [|apply IH; assumption].
    assert (Ha : 0 <= available) by (apply (Hb pastYear available E)).
    destruct (Qmin_bounds available remaining Ha Hr) as (M1 & M2 & M3).
    set (take := Qmin available remaining) in *.
    set (b2 := if Qeq_bool (available - take) 0
               then delete pastYear (<[pastYear := available - take]> b)
               else <[pastYear := available - take]> b).
    assert (Hb2 : nonnegBasket b2).
    { assert (Hi : nonnegBasket (<[pastYear := available - take]> b)).
      { apply map_Forall_insert_2; [lra | exact Hb]. }
      subst b2. destruct (Qeq_bool _ 0); [apply map_Forall_delete|]; exact Hi. }
    assert (Hk2 : forall k, b !! k = None -> b2 !! k = None).
    { intros k Hk. assert (Hne : pastYear <> k) by (intros ->; congruence).
      subst b2. destruct (Qeq_bool _ 0).
      - rewrite lookup_delete_ne, lookup_insert_ne by exact Hne. exact Hk.
      - rewrite lookup_insert_ne by exact Hne. exact Hk. }
    destruct (Qeq_bool (remaining - take) 0).
    + cbn [fst snd]. split; [lra | exact Hk2].
    + assert (Hr' : 0 <= remaining - take) by lra.
      destruct (IH b2 (used + take) (remaining - take) Hb2 Hr') as [I1 I2].
      split; [lra | intros k Hk; apply I2, Hk2, Hk].
Qed.


(** *** One year of the report *)

Lemma yearStep_balance (minusBucket : gmap Z Q) year s divs b' row :
  nonnegBasket minusBucket -> olderThan year minusBucket -> nonnegStats s ->
  yearStep minusBucket year s divs = (b', row) ->
  nonnegBasket b'
  /\ (forall later, (year < later)%Z -> olderThan later b')
  /\ rowYear row = year
  /\ rowBalance row
  /\ (usefulGain row <= 0 \/ newLosses row == 0 ->
      residualBasket row
      == basketTotal minusBucket + newLosses row - basketUsed row - basketExpired row)
  /\ residualBasket row == basketTotal b'.
Proof.
  intros Hb Hold [Hg Hl] E. unfold yearStep in E.
  set (gainNoComp := gainNonCompensabile s + divs) in E.
  assert (Hyear : minusBucket !! year = None).
  { destruct (minusBucket !! year) as [a|] eqn:Ey; [|reflexivity].
    pose proof (Hold year a Ey) as Hlt. simpl in Hlt. lia. }
  (* A *)
  set (partA := if Qltb 0 (gainCompensabile s) then _ else _) in E.
  assert (HA : nonnegBasket (fst (fst partA))
               /\ basketTotal (fst (fst partA)) + snd (fst partA) == basketTotal minusBucket
               /\ 0 <= snd (fst partA) /\ snd (fst partA) <= gainCompensabile s
               /\ snd partA == gainNoComp + gainCompensabile s - snd (fst partA)
               /\ (forall k, minusBucket !! k = None -> fst (fst partA) !! k = None)).
  { subst partA. destruct (Qltb 0 (gainCompensabile s)) eqn:Eg.
    - apply Qltb_lt in Eg.
      destruct (useBasket_nonneg year (sortedKeys minusBucket) minusBucket 0
                  (gainCompensabile s) Hb Hg) as [N1 N2].
      destruct (useBasket_conserves year (sortedKeys minusBucket) minusBucket 0
                  (gainCompensabile s)) as [C1 C2].
      destruct (useBasket_draws year (sortedKeys minusBucket) minusBucket 0
                  (gainCompensabile s) Hb Hg) as [D1 D2].
      destruct (useBasket year (sortedKeys minusBucket) minusBucket 0 (gainCompensabile s))
        as [[b used] remaining]. cbn [fst snd] in *.
      split; [exact N1|]. split; [lra|]. split; [lra|]. split; [lra|]. split; [lra | exact D2].
    - apply Qltb_ge in Eg. cbn [fst snd].
      split; [exact Hb|]. split; [lra|]. split; [lra|]. split; [lra|].
      split; [lra | intros k Hk; exact Hk]. }
  destruct partA as [[bA usedA] baseA]. cbn [fst snd] in HA.
  destruct HA as (A1 & A2 & A3 & A4 & A5 & A6).
  (* B *)
  set (partB := if Qltb 0 (lossAnno s) && Qltb (gainCompensabile s - lossAnno s) 0
                then _ else _) in E.
  set (newLoss := if Qltb (gainCompensabile s) (lossAnno s)
                  then lossAnno s - gainCompensabile s else 0) in E.
  assert (HB : nonnegBasket (fst (fst partB))
               /\ 0 <= snd (fst partB) /\ snd (fst partB) <= gainCompensabile s
               /\ 0 <= newLoss
               /\ (newLoss == 0 ->
                   snd partB == gainNoComp + gainCompensabile s - snd (fst partB))
               /\ (gainCompensabile s <= 0 \/ newLoss == 0 ->
                   basketTotal (fst (fst partB))
                   == basketTotal minusBucket + newLoss - snd (fst partB))
               /\ (forall k, k <> year -> minusBucket !! k = None ->
                             fst (fst partB) !! k = None)).
  { subst partB newLoss.
    destruct (Qltb 0 (lossAnno s) && Qltb (gainCompensabile s - lossAnno s) 0) eqn:Ec.
    - apply andb_true_iff in Ec. destruct Ec as [Ec1 Ec2].
      apply Qltb_lt in Ec1. apply Qltb_lt in Ec2.
      assert (Elt : Qltb (gainCompensabile s) (lossAnno s) = true) by (apply Qltb_lt; lra).
      rewrite Elt. cbn [fst snd].
      assert (Eabs : Qabs (gainCompensabile s - lossAnno s)
                     == lossAnno s - gainCompensabile s).
      { rewrite Qabs_neg by lra. ring. }
      split; [apply map_Forall_insert_2; [apply Qabs_nonneg | exact A1]|].
      split; [lra|]. split; [lra|]. split; [lra|]. split; [intros H0; lra|].
      split.
      + intros [Hle | H0]; [|lra].
        rewrite basketTotal_fresh by (apply A6, Hyear). rewrite Eabs. lra.
      + intros k Hk Hnone. rewrite lookup_insert_ne by congruence. apply A6, Hnone.
    - assert (Ege : lossAnno s <= gainCompensabile s).
      { apply andb_false_iff in Ec. destruct Ec as [Ec | Ec]; apply Qltb_ge in Ec; lra. }
      assert (Elt : Qltb (gainCompensabile s) (lossAnno s) = false) by (apply Qltb_ge, Ege).
      rewrite Elt. cbn [fst snd].
      split; [exact A1|]. split; [exact A3|]. split; [exact A4|]. split; [lra|].
      split; [intros _; exact A5|]. split; [intros _; lra|].
      intros k _ Hnone. apply A6, Hnone. }
  destruct partB as [[bB usedB] baseB]. cbn [fst snd] in HB.
  destruct HB as (B1 & B2 & B3 & B4 & B5 & B6 & B7).
  (* C *)
  set (partC := match bB !! (year - 4)%Z with Some _ => _ | None => _ end) in E.
  assert (HC : nonnegBasket (fst partC)
               /\ 0 <= snd partC
               /\ basketTotal (fst partC) == basketTotal bB - snd partC
               /\ (forall k, bB !! k = None -> fst partC !! k = None)).
  { subst partC. destruct (bB !! (year - 4)%Z) as [amount|] eqn:Ee; cbn [fst snd].
    - split; [apply map_Forall_delete, B1|]. split; [apply (B1 _ _ Ee)|].
      split; [rewrite (basketTotal_delete bB _ _ Ee); ring|].
      intros k Hk. destruct (decide (k = (year - 4)%Z)) as [->|Hne].
      + apply lookup_delete_eq.
      + rewrite lookup_delete_ne by congruence. exact Hk.
    - split; [exact B1|]. split; [lra|]. split; [ring | intros k Hk; exact Hk]. }
  destruct partC as [bC expired]. cbn [fst snd] in HC. destruct HC as (C1 & C2 & C3 & C4).
  injection E as <- <-.
  cbn [rowYear usefulGain uselessGain newLosses basketUsed basketExpired netTaxable
       residualBasket]. fold newLoss.
  split; [exact C1|]. split.
  { intros later Hlater k a Hk. simpl.
    destruct (decide (k = year)) as [->|Hne]; [exact Hlater|].
    destruct (minusBucket !! k) as [a0|] eqn:Ek.
    - pose proof (Hold k a0 Ek) as Hlt. simpl in Hlt. lia.
    - rewrite (C4 k (B7 k Hne Ek)) in Hk. discriminate. }
  split; [reflexivity|]. split.
  { unfold rowBalance.
    cbn [rowYear usefulGain uselessGain newLosses basketUsed basketExpired netTaxable
         residualBasket]. fold newLoss.
    split; [exact Hg|]. split; [exact B2|]. split; [exact B3|]. split; [exact B4|].
    split; [exact C2|]. split; [apply basketTotal_nonneg, C1 | exact B5]. }
  split; [|reflexivity].
  intros Hcase. rewrite C3, (B6 Hcase). ring.
Qed.


(** *** The loop over the years *)

Lemma ledger_Qeq (c c' : Q) (rows : list BasketRow) : c == c' -> ledger c rows -> ledger c' rows.
Proof.
  intros Hc. destruct rows as [|row rest]; [trivial|].
  cbn [ledger]. intros [H1 H2]. split; [|exact H2].
  intros Hcase. rewrite (H1 Hcase), Hc. reflexivity.
Qed.

Lemma yearLoop_balance (yearlyStats : gmap Z YearStats) (yearlyDividends : gmap Z Q)
    (years : list Z) : forall minusBucket final rows,
  map_Forall (fun _ s => nonnegStats s) yearlyStats ->
  StronglySorted Z.lt years ->
  nonnegBasket minusBucket -> Forall (fun y => olderThan y minusBucket) years ->
  yearLoop yearlyStats yearlyDividends years minusBucket = (final, rows) ->
  Forall rowBalance rows /\ ledger (basketTotal minusBucket) rows /\ map rowYear rows = years.
Proof.
  induction years as [|year rest IH]; intros b final rows Hstats Hs Hb Hold E.
  - cbn [yearLoop] in E. injection E as <- <-.
    split; [constructor|]. split; [exact I | reflexivity].
  - cbn [yearLoop] in E.
    inversion Hs as [|? ? Hs' Hlt]; subst. inversion Hold as [|? ? Hy Hold']; subst.
    assert (Hn : nonnegStats (default (mkYearStats 0 0 0) (yearlyStats !! year))).
    { destruct (yearlyStats !! year) as [s|] eqn:Es; cbn [from_option id].
      - apply (Hstats year s Es).
      - split; cbn [gainCompensabile lossAnno]; lra. }
    destruct (yearStep b year _ _) as [b' row] eqn:Estep.
    destruct (yearStep_balance b year _ _ b' row Hb Hy Hn Estep)
      as (S1 & S2 & S3 & S4 & S5 & S6).
    destruct (yearLoop yearlyStats yearlyDividends rest b') as [final' rows'] eqn:Eloop.
    injection E as <- <-.
    destruct (IH b' final' rows' Hstats Hs' S1) as (I1 & I2 & I3); [|exact Eloop|].
    { rewrite List.Forall_forall in Hlt. apply List.Forall_forall.
      intros later Hin. apply S2, Hlt, Hin. }
    split; [constructor; assumption|]. split.
    + cbn [ledger]. split; [exact S5|]. apply (ledger_Qeq (basketTotal b')); [|exact I2].
      symmetry. exact S6.
    + cbn [map]. rewrite S3, I3. reflexivity.
Qed.

(** *** The years of the report *)

Lemma StronglySorted_strict (l : list Z) :
  StronglySorted Z.le l -> NoDup l -> StronglySorted Z.lt l.
Proof.
  induction 1 as [|x l Hl IH Hx]; intros Hnd; [constructor|].
  apply NoDup_cons in Hnd. destruct Hnd as [Hnot Hnd].
  constructor; [apply IH, Hnd|].
  rewrite List.Forall_forall in Hx. apply List.Forall_forall. intros y Hy.
  specialize (Hx y Hy). assert (x <> y) by (intros ->; apply Hnot, list_elem_of_In, Hy). lia.
Qed.

Lemma sortedKeys_sorted {A} (m : gmap Z A) : StronglySorted Z.lt (sortedKeys m).
Proof.
  unfold sortedKeys. apply StronglySorted_strict.
  - apply (StronglySorted_merge_sort Z.le).
  - rewrite merge_sort_Permutation. apply (NoDup_fst_map_to_list m).
Qed.

Lemma keys_spec {A} (m : gmap Z A) (y : Z) :
  In y (map fst (map_to_list m)) <-> is_Some (m !! y).
Proof.
  rewrite <- list_elem_of_In.
  change (map fst (map_to_list m)) with ((map_to_list m).*1).
  rewrite list_elem_of_fmap. split.
  - intros [[k a] [-> Hin]]. apply elem_of_map_to_list in Hin. exists a. exact Hin.
  - intros [a Ha]. exists (y, a). split; [reflexivity | apply elem_of_map_to_list, Ha].
Qed.

Lemma sortedKeys_spec {A} (m : gmap Z A) (y : Z) : In y (sortedKeys m) <-> is_Some (m !! y).
Proof.
  unfold sortedKeys. rewrite <- keys_spec, <- !list_elem_of_In, merge_sort_Permutation.
  reflexivity.
Qed.

Lemma addYearPnl_keys (trades : list SaleRow) : forall (m : gmap Z YearStats) (y : Z),
  is_Some (fold_left addYearPnl trades m !! y)
  <-> is_Some (m !! y) \/ exists row, In row trades /\ saleYear row = y.
Proof.
  induction trades as [|t trades IH]; intros m y; cbn [fold_left].
  - split; [intros H; left; exact H | intros [H | (row & [] & _)]; exact H].
  - rewrite IH. unfold addYearPnl at 1.
    destruct (decide (saleYear t = y)) as [<-|Hne].
    + rewrite lookup_insert_eq. split.
      * intros _. right. exists t. split; [left; reflexivity | reflexivity].
      * intros _. left. eexists. reflexivity.
    + rewrite lookup_insert_ne by exact Hne. split.
      * intros [H | (row & Hin & Hy)]; [left; exact H|].
        right. exists row. split; [right; exact Hin | exact Hy].
      * intros [H | (row & [<- | Hin] & Hy)]; [left; exact H | congruence |].
        right. exists row. split; assumption.
Qed.

Lemma addDividendYear_keys (ks : list Z) : forall (m : gmap Z YearStats) (y : Z),
  is_Some (fold_left addDividendYear ks m !! y) <-> is_Some (m !! y) \/ In y ks.
Proof.
  induction ks as [|k ks IH]; intros m y; cbn [fold_left].
  - split; [intros H; left; exact H | intros [H | []]; exact H].
  - rewrite IH. unfold addDividendYear at 1.
    destruct (m !! k) as [s|] eqn:Ek.
    + split.
      * intros [H | H]; [left; exact H | right; right; exact H].
      * intros [H | [<- | H]]; [left; exact H | left; eexists; exact Ek | right; exact H].
    + destruct (decide (k = y)) as [<-|Hne].
      * rewrite lookup_insert_eq. split.
        -- intros _. right. left. reflexivity.
        -- intros _. left. eexists. reflexivity.
      * rewrite lookup_insert_ne by exact Hne. split.
        -- intros [H | H]; [left; exact H | right; right; exact H].
        -- intros [H | [H | H]]; [left; exact H | congruence | right; exact H].
Qed.

Lemma yearlyDividends_keys (data : list Trade) : forall (m : gmap Z Q) (y : Z),
  is_Some (fold_left addYearDividend data m !! y)
  <-> is_Some (m !! y)
      \/ exists d, In d data /\ isDividend (action d) = true /\ yearOf (date d) = y.
Proof.
  induction data as [|d data IH]; intros m y; cbn [fold_left].
  - split; [intros H; left; exact H | intros [H | (x & [] & _)]; exact H].
  - rewrite IH. unfold addYearDividend at 1.
    destruct (isDividend (action d)) eqn:Ed.
    + destruct (decide (yearOf (date d) = y)) as [<-|Hne].
      * rewrite lookup_insert_eq. split.
        -- intros _. right. exists d. split; [left; reflexivity | split; [exact Ed | reflexivity]].
        -- intros _. left. eexists. reflexivity.
      * rewrite lookup_insert_ne by exact Hne. split.
        -- intros [H | (x & Hin & Hx)]; [left; exact H|].
           right. exists x. split; [right; exact Hin | exact Hx].
        -- intros [H | (x & [<- | Hin] & Hd & Hy)]; [left; exact H | congruence |].
           right. exists x. split; [exact Hin | split; assumption].
    + split.
      * intros [H | (x & Hin & Hx)]; [left; exact H|].
        right. exists x. split; [right; exact Hin | exact Hx].
      * intros [H | (x & [<- | Hin] & Hd & Hy)]; [left; exact H | congruence |].
        right. exists x. split; [exact Hin | split; assumption].
Qed.

(** *** The yearly statistics *)

Lemma addYearPnl_nonneg (trades : list SaleRow) : forall m : gmap Z YearStats,
  map_Forall (fun _ s => nonnegStats s) m ->
  map_Forall (fun _ s => nonnegStats s) (fold_left addYearPnl trades m).
Proof.
  induction trades as [|t trades IH]; intros m Hm; [exact Hm|].
  cbn [fold_left]. apply IH. unfold addYearPnl.
  assert (Hs : nonnegStats (default (mkYearStats 0 0 0) (m !! saleYear t))).
  { destruct (m !! saleYear t) as [s|] eqn:Es; cbn [from_option id].
    - apply (Hm _ _ Es).
    - split; cbn [gainCompensabile lossAnno]; lra. }
  destruct Hs as [Hg Hl].
  apply map_Forall_insert_2; [|exact Hm].
  destruct (Qle_bool 0 (salePnl t)) eqn:Ep.
  - apply Qle_bool_iff in Ep.
    destruct (String.eqb (saleType t) "ETF"); split; cbn [gainCompensabile lossAnno]; lra.
  - pose proof (Qabs_nonneg (salePnl t)). split; cbn [gainCompensabile lossAnno]; lra.
Qed.

Lemma addDividendYear_nonneg (ks : list Z) : forall m : gmap Z YearStats,
  map_Forall (fun _ s => nonnegStats s) m ->
  map_Forall (fun _ s => nonnegStats s) (fold_left addDividendYear ks m).
Proof.
  induction ks as [|k ks IH]; intros m Hm; [exact Hm|].
  cbn [fold_left]. apply IH. unfold addDividendYear.
  destruct (m !! k); [exact Hm|].
  apply map_Forall_insert_2; [|exact Hm]. split; cbn [gainCompensabile lossAnno]; lra.
Qed.

(** *** The aggregation by year *)

Lemma addYearPnl_step (m : gmap Z YearStats) (t : SaleRow) (y : Z) :
  gainCompensabile (statsOfYear (addYearPnl m t) y)
  == gainCompensabile (statsOfYear m y) + sumRows stockGain salePnl y [t]
  /\ gainNonCompensabile (statsOfYear (addYearPnl m t) y)
     == gainNonCompensabile (statsOfYear m y) + sumRows etfGain salePnl y [t]
  /\ lossAnno (statsOfYear (addYearPnl m t) y)
     == lossAnno (statsOfYear m y) + sumRows lossRow (fun r => - salePnl r) y [t].
Proof.
  unfold statsOfYear, addYearPnl, sumRows, stockGain, etfGain, lossRow. cbn [fold_right].
  destruct (Z.eqb_spec (saleYear t) y) as [<-|Hne].
  - rewrite lookup_insert_eq. cbn [from_option id andb].
    destruct (Qle_bool 0 (salePnl t)) eqn:Ep.
    + destruct (String.eqb (saleType t) "ETF");
        cbn [negb andb gainCompensabile gainNonCompensabile lossAnno];
        (split; [|split]); ring.
    + cbn [negb andb gainCompensabile gainNonCompensabile lossAnno].
      assert (Ea : Qabs (salePnl t) == - salePnl t).
      { apply Qabs_neg. apply Qle_bool_gt in Ep. lra. }
      (split; [|split]); try ring. rewrite Ea. ring.
  - rewrite lookup_insert_ne by exact Hne. cbn [andb]. (split; [|split]); ring.
Qed.

Lemma sumRows_cons sel f y (t : SaleRow) (rows : list SaleRow) :
  sumRows sel f y (t :: rows) == sumRows sel f y [t] + sumRows sel f y rows.
Proof.
  unfold sumRows. cbn [fold_right]. destruct ((saleYear t =? y)%Z && sel t); ring.
Qed.

Lemma addYearPnl_run (y : Z) (trades : list SaleRow) : forall m : gmap Z YearStats,
  gainCompensabile (statsOfYear (fold_left addYearPnl trades m) y)
  == gainCompensabile (statsOfYear m y) + sumRows stockGain salePnl y trades
  /\ gainNonCompensabile (statsOfYear (fold_left addYearPnl trades m) y)
     == gainNonCompensabile (statsOfYear m y) + sumRows etfGain salePnl y trades
  /\ lossAnno (statsOfYear (fold_left addYearPnl trades m) y)
     == lossAnno (statsOfYear m y) + sumRows lossRow (fun r => - salePnl r) y trades.
Proof.
  induction trades as [|t trades IH]; intros m.
  - cbn [fold_left sumRows fold_right]. (split; [|split]); ring.
  - cbn [fold_left]. destruct (IH (addYearPnl m t)) as (I1 & I2 & I3).
    destruct (addYearPnl_step m t y) as (S1 & S2 & S3).
    rewrite (sumRows_cons stockGain), (sumRows_cons etfGain), (sumRows_cons lossRow).
    (split; [|split]); lra.
Qed.

Lemma addDividendYear_same (ks : list Z) (y : Z) : forall m : gmap Z YearStats,
  statsOfYear (fold_left addDividendYear ks m) y = statsOfYear m y.
Proof.
  induction ks as [|k ks IH]; intros m; [reflexivity|].
  cbn [fold_left]. rewrite IH. unfold statsOfYear, addDividendYear.
  destruct (m !! k) as [s|] eqn:Ek; [reflexivity|].
  destruct (decide (k = y)) as [<-|Hne].
  - rewrite lookup_insert_eq, Ek. reflexivity.
  - rewrite lookup_insert_ne by exact Hne. reflexivity.
Qed.

Lemma sumDividends_cons (y : Z) (d : Trade) (trades : list Trade) :
  sumDividends y (d :: trades) == sumDividends y [d] + sumDividends y trades.
Proof.
  unfold sumDividends. cbn [fold_right].
  destruct (isDividend (action d) && (yearOf (date d) =? y)%Z); ring.
Qed.

Lemma sumDividends_perm (y : Z) (l l' : list Trade) :
  Permutation l l' -> sumDividends y l == sumDividends y l'.
Proof.
  induction 1 as [|x l l' _ IH|x z l|l l' l'' _ IH1 _ IH2].
  - reflexivity.
  - rewrite (sumDividends_cons y x l), (sumDividends_cons y x l'), IH. reflexivity.
  - rewrite (sumDividends_cons y z (x :: l)), (sumDividends_cons y x l),
            (sumDividends_cons y x (z :: l)), (sumDividends_cons y z l). ring.
  - rewrite IH1. exact IH2.
Qed.

Lemma addYearDividend_run (y : Z) (data : list Trade) : forall m : gmap Z Q,
  default 0 (fold_left addYearDividend data m !! y) == default 0 (m !! y) + sumDividends y data.
Proof.
  induction data as [|d data IH]; intros m.
  - cbn [fold_left sumDividends fold_right]. ring.
  - cbn [fold_left]. rewrite IH, (sumDividends_cons y d data).
    unfold addYearDividend, sumDividends at 2. cbn [fold_right].
    destruct (isDividend (action d)); cbn [andb]; [|ring].
    destruct (Z.eqb_spec (yearOf (date d)) y) as [<-|Hne].
    + rewrite lookup_insert_eq. cbn [from_option id]. ring.
    + rewrite lookup_insert_ne by exact Hne. ring.
Qed.

End BasketMore.

(** ** Further properties of the basket report *)

Module BasketExtras.
Import Fiscal Reports EngineInv BasketMoreDefs.
Import NormalizerFacts NormalizerMore BasketFacts BasketMore.
Local Open Scope Q_scope.

Lemma zainettoRun_balance (allData : list Trade) :
  Forall rowBalance (calculateZainettoReport allData)
  /\ ledger (basketTotal ∅) (calculateZainettoReport allData)
  /\ map rowYear (calculateZainettoReport allData)
     = sortedKeys (yearlyStatsOf (calculateFiscalReportDetails allData)
                                  (yearlyDividendsOf (sortByDate allData))).
Proof.
  unfold calculateZainettoReport, zainettoRun.
  set (yearlyDividends := yearlyDividendsOf (sortByDate allData)).
  set (yearlyStats := yearlyStatsOf (calculateFiscalReportDetails allData) yearlyDividends).
  destruct (yearLoop yearlyStats yearlyDividends (sortedKeys yearlyStats) ∅)
    as [final rows] eqn:E.
  cbn [snd].
  apply (yearLoop_balance yearlyStats yearlyDividends (sortedKeys yearlyStats) ∅ final rows).
  - subst yearlyStats. unfold yearlyStatsOf.
    apply addDividendYear_nonneg, addYearPnl_nonneg, map_Forall_empty.
  - apply sortedKeys_sorted.
  - apply map_Forall_empty.
  - apply List.Forall_forall. intros y _. apply map_Forall_empty.
  - exact E.
Qed.

(** X13. The amounts of the basket report add up. In every row the
    compensable gain, the basket used, the new losses, the expired amount
    and the residual basket are not negative, the basket is never used for
    more than the compensable gain of the year, and in a year without new
    losses the taxable base is the non-compensable gain plus what the
    basket leaves of the compensable gain. From row to row, in a year
    without compensable gain or without new losses, the residual basket is
    the residual of the year before plus the new losses, less what was used
    and what expired. *)
Theorem basket_rows_balance (allData : list Trade) :
  Forall rowBalance (calculateZainettoReport allData)
  /\ ledger 0 (calculateZainettoReport allData).
Proof.
  destruct (zainettoRun_balance allData) as (H1 & H2 & _).
  split; [exact H1|]. apply (ledger_Qeq (basketTotal ∅)); [apply basketTotal_empty | exact H2].
Qed.

(** X14. The basket report has one row per year with a reported sale or a
    dividend, and no other row, in ascending order of year. *)
Theorem basket_report_years (allData : list Trade) :
  let years := map rowYear (calculateZainettoReport allData) in
  StronglySorted Z.lt years /\ forall y, In y years <-> activeYear allData y.
Proof.
  cbv zeta. destruct (zainettoRun_balance allData) as (_ & _ & ->).
  split; [apply sortedKeys_sorted|].
  intros y. rewrite sortedKeys_spec. unfold yearlyStatsOf, activeYear.
  rewrite addDividendYear_keys, addYearPnl_keys, lookup_empty.
  rewrite keys_spec. unfold yearlyDividendsOf. rewrite yearlyDividends_keys, lookup_empty.
  assert (Hnone : ~ is_Some (@None YearStats)) by (intros [x Hx]; discriminate).
  assert (Hnone' : ~ is_Some (@None Q)) by (intros [x Hx]; discriminate).
  split.
  - intros [[H | H] | [H | (d & Hin & Hd)]]; [tauto | left; exact H | tauto |].
    right. exists d. split; [apply In_sortByDate, Hin | exact Hd].
  - intros [H | (d & Hin & Hd)]; [left; right; exact H|].
    right. right. exists d. split; [apply In_sortByDate, Hin | exact Hd].
Qed.

(** X26. The yearly statistics of the basket report partition the fiscal
    report: for every year the compensable gain is the sum of the
    non-negative P&L of its sales of anything but ETFs, the non-compensable
    gain the sum of the non-negative P&L of its ETF sales, the loss the sum
    of the negated negative P&L, and the dividends of the year are the sum
    of the amounts of its dividend rows, whatever the order of the rows. *)
Theorem yearly_stats_partition_report (allData : list Trade) (y : Z) :
  let report := calculateFiscalReportDetails allData in
  let yearlyDividends := yearlyDividendsOf (sortByDate allData) in
  let s := statsOfYear (yearlyStatsOf report yearlyDividends) y in
  gainCompensabile s == sumRows stockGain salePnl y report
  /\ gainNonCompensabile s == sumRows etfGain salePnl y report
  /\ lossAnno s == sumRows lossRow (fun r => - salePnl r) y report
  /\ default 0 (yearlyDividends !! y) == sumDividends y allData.
Proof.
  cbv zeta. unfold yearlyStatsOf. rewrite addDividendYear_same.
  destruct (addYearPnl_run y (calculateFiscalReportDetails allData) ∅) as (H1 & H2 & H3).
  assert (E : statsOfYear ∅ y = mkYearStats 0 0 0).
  { unfold statsOfYear. rewrite lookup_empty. reflexivity. }
  rewrite E in H1, H2, H3. cbn [gainCompensabile gainNonCompensabile lossAnno] in H1, H2, H3.
  split; [lra|]. split; [lra|]. split; [lra|].
  unfold yearlyDividendsOf. rewrite addYearDividend_run, lookup_empty.
  rewrite (sumDividends_perm y _ _ (sortByDate_perm allData)). cbn [from_option id]. ring.
Qed.

End BasketExtras.

(** ** Non-compensable gains in the basket report *)

Module BasketTaxClaims.
Import Fiscal Reports EngineInv BasketMoreDefs.
Import NormalizerFacts NormalizerMore BasketFacts BasketMore.
Local Open Scope Q_scope.

(** C6.  In every row of the basket report the non-compensable gain is the
    sum of the non-negative P&L of the ETF sales that the fiscal report
    lists for the year plus the sum of the amounts of the dividend rows of
    the year in the input; the taxable base is never below it (the basket
    only ever offsets compensable gains), it equals it when the year has no
    compensable gain, whatever the basket holds, and the estimated tax is
    26% of the taxable base. *)
Theorem noncompensable_gains_taxed_in_full (allData : list Trade) (row : BasketRow) :
  In row (calculateZainettoReport allData) ->
  uselessGain row
  == sumRows etfGain salePnl (rowYear row) (calculateFiscalReportDetails allData)
     + sumDividends (rowYear row) allData
  /\ uselessGain row <= netTaxable row
  /\ (usefulGain row <= 0 -> netTaxable row == uselessGain row)
  /\ taxDue row == netTaxable row * (26 # 100).
Proof.
  intros Hin.
  unfold calculateZainettoReport, zainettoRun in Hin.
  apply yearLoop_taxes in Hin; [|apply map_Forall_empty].
  destruct Hin as (H1 & H2 & H3 & H4).
  split; [|split; [exact H2 | split; [exact H3 | exact H4]]].
  rewrite H1. clear H1 H2 H3 H4. set (y := rowYear row).
  change (default (mkYearStats 0 0 0)
            (yearlyStatsOf (calculateFiscalReportDetails allData)
               (yearlyDividendsOf (sortByDate allData)) !! y))
    with (statsOfYear (yearlyStatsOf (calculateFiscalReportDetails allData)
                         (yearlyDividendsOf (sortByDate allData))) y).
  unfold yearlyStatsOf. rewrite addDividendYear_same.
  destruct (addYearPnl_run y (calculateFiscalReportDetails allData) ∅) as (_ & G & _).
  assert (E : statsOfYear ∅ y = mkYearStats 0 0 0).
  { unfold statsOfYear. rewrite lookup_empty. reflexivity. }
  rewrite E in G. cbn [gainNonCompensabile] in G. rewrite G.
  unfold yearlyDividendsOf. rewrite addYearDividend_run, lookup_empty.
  rewrite (sumDividends_perm y _ _ (sortByDate_perm allData)). cbn [from_option id]. ring.
Qed.

(** A stock loss of 1000 in 2020 stays in the basket.  In 2021 an ETF sale
    gains 500 and nothing else is realized: the row of 2021 has a taxable
    base of 500 and a tax of 130 while the basket still holds 1000.  In
    2022 an ETF sale gains 200 and a dividend of 40 is paid: the
    non-compensable gain and the taxable base are 240, the tax is 62.40 and
    the basket still holds 1000. *)
Lemma noncompensable_gains_taxed_in_full_witness :
  let trades : list Trade :=
    [ mkTrade (mkDate 2020 1 1) "ACME" "Buy" 10 200 2000 "Stock";
      mkTrade (mkDate 2020 6 1) "ACME" "Sell" 10 100 1000 "Stock";
      mkTrade (mkDate 2021 1 1) "WRLD" "Buy" 10 100 1000 "ETF";
      mkTrade (mkDate 2021 2 1) "WRLD" "Sell" 10 150 1500 "ETF";
      mkTrade (mkDate 2022 1 1) "WRLD" "Buy" 10 100 1000 "ETF";
      mkTrade (mkDate 2022 2 1) "WRLD" "Sell" 10 120 1200 "ETF";
      mkTrade (mkDate 2022 5 1) "BOLT" "Dividend" 0 40 40 "Stock" ] in
  exists row row',
    nth_error (calculateZainettoReport trades) 1 = Some row
    /\ nth_error (calculateZainettoReport trades) 2 = Some row'
    /\ rowYear row = 2021%Z
    /\ uselessGain row == 500 /\ netTaxable row == 500 /\ taxDue row == 130
    /\ residualBasket row == 1000
    /\ rowYear row' = 2022%Z
    /\ sumRows etfGain salePnl 2022 (calculateFiscalReportDetails trades) == 200
    /\ sumDividends 2022 trades == 40
    /\ uselessGain row' == 240 /\ netTaxable row' == 240 /\ taxDue row' == 62.4
    /\ residualBasket row' == 1000.
Proof.
  intros trades.
  destruct (nth_error (calculateZainettoReport trades) 1) as [row|] eqn:E;
    [|vm_compute in E; discriminate].
  destruct (nth_error (calculateZainettoReport trades) 2) as [row'|] eqn:E';
    [|vm_compute in E'; discriminate].
  exists row, row'. split; [reflexivity|]. split; [reflexivity|].
  assert (Hin : In row (calculateZainettoReport trades)) by (eapply nth_error_In, E).
  assert (Hin' : In row' (calculateZainettoReport trades)) by (eapply nth_error_In, E').
  destruct (noncompensable_gains_taxed_in_full trades row Hin) as (H1 & H2 & H3 & H4).
  destruct (noncompensable_gains_taxed_in_full trades row' Hin') as (H1' & H2' & H3' & H4').
  assert (Y : rowYear row = 2021%Z) by (vm_compute in E; injection E as <-; reflexivity).
  assert (Y' : rowYear row' = 2022%Z) by (vm_compute in E'; injection E' as <-; reflexivity).
  assert (U : usefulGain row <= 0)
    by (vm_compute in E; injection E as <-; vm_compute; discriminate).
  assert (U' : usefulGain row' <= 0)
    by (vm_compute in E'; injection E' as <-; vm_compute; discriminate).
  assert (R : residualBasket row == 1000)
    by (vm_compute in E; injection E as <-; reflexivity).
  assert (R' : residualBasket row' == 1000)
    by (vm_compute in E'; injection E' as <-; reflexivity).
  assert (S1 : sumRows etfGain salePnl 2021 (calculateFiscalReportDetails trades)
               + sumDividends 2021 trades == 500) by (vm_compute; reflexivity).
  assert (S2 : sumRows etfGain salePnl 2022 (calculateFiscalReportDetails trades) == 200)
    by (vm_compute; reflexivity).
  assert (S3 : sumDividends 2022 trades == 40) by (vm_compute; reflexivity).
  rewrite Y in H1. rewrite Y' in H1'. rewrite S1 in H1. rewrite S2, S3 in H1'.
  specialize (H3 U). specialize (H3' U').
  split; [exact Y|]. split; [exact H1|]. split; [rewrite H3; exact H1|].
  split; [rewrite H4, H3, H1; reflexivity|]. split; [exact R|].
  split; [exact Y'|]. split; [exact S2|]. split; [exact S3|].
  split; [rewrite H1'; reflexivity|]. split; [rewrite H3', H1'; reflexivity|].
  split; [rewrite H4', H3', H1'; reflexivity | exact R'].
Defined.

End BasketTaxClaims.

(** ** Further properties of the evolution table *)

Module EvoluzioneMore.
Import Fiscal Reports NormalizerMoreDefs EvoluzioneDefs NormalizerFacts NormalizerMore.
Local Open Scope Q_scope.

Lemma upTo_cons (cutoff : Date) (x : Trade) (l : list Trade) :
  upTo cutoff (x :: l)
  = if date_leb (date x) cutoff then x :: upTo cutoff l else upTo cutoff l.
Proof.
  unfold upTo. destruct (date_leb (date x) cutoff) eqn:E.
  - apply filter_cons_True. exact E.
  - apply filter_cons_False. congruence.
Qed.

Lemma upTo_all_later (cutoff : Date) (l : list Trade) :
  Forall (fun d => date_leb (date d) cutoff = false) l -> upTo cutoff l = [].
Proof.
  induction 1 as [|d l Hd _ IH]; [reflexivity|]. rewrite upTo_cons, Hd. exact IH.
Qed.

Lemma upTo_insertByDate (cutoff : Date) (x : Trade) (l : list Trade) :
  StronglySorted byDate l ->
  upTo cutoff (insertByDate x l)
  = if date_leb (date x) cutoff then insertByDate x (upTo cutoff l) else upTo cutoff l.
Proof.
  induction 1 as [|y l Hl IH Hy]; cbn [insertByDate].
  - rewrite upTo_cons. destruct (date_leb (date x) cutoff); reflexivity.
  - destruct (date_leb (date x) (date y)) eqn:Exy.
    + rewrite upTo_cons. destruct (date_leb (date x) cutoff) eqn:Ex; [|reflexivity].
      rewrite upTo_cons. destruct (date_leb (date y) cutoff) eqn:Ey.
      * cbn [insertByDate]. rewrite Exy. reflexivity.
      * rewrite upTo_all_later; [reflexivity|].
        eapply Forall_impl; [exact Hy|]. intros z Hz. unfold byDate in Hz.
        unfold date_leb in *. apply Z.leb_gt in Ey. apply Z.leb_gt. lia.
    + rewrite upTo_cons, IH, upTo_cons. destruct (date_leb (date y) cutoff) eqn:Ey.
      * destruct (date_leb (date x) cutoff); [|reflexivity].
        cbn [insertByDate]. rewrite Exy. reflexivity.
      * assert (Ex : date_leb (date x) cutoff = false).
        { unfold date_leb in *. apply Z.leb_gt in Ey. apply Z.leb_gt in Exy.
          apply Z.leb_gt. lia. }
        rewrite Ex. reflexivity.
Qed.

(** Sorting and cutting at a date commute. *)
Lemma upTo_sortByDate (cutoff : Date) (l : list Trade) :
  upTo cutoff (sortByDate l) = sortByDate (upTo cutoff l).
Proof.
  induction l as [|x l IH]; [reflexivity|].
  change (sortByDate (x :: l)) with (insertByDate x (sortByDate l)).
  rewrite upTo_insertByDate by apply sortByDate_sorted.
  rewrite upTo_cons, IH. destruct (date_leb (date x) cutoff); reflexivity.
Qed.

Lemma sortByDate_nil (l : list Trade) : sortByDate l = [] -> l = [].
Proof.
  intros E. pose proof (sortByDate_perm l) as P. rewrite E in P.
  apply Permutation_nil in P. exact P.
Qed.

Lemma yearRows_spec (year : Z) (cutoffDate : Date) (holdings : gmap string Holding)
    (row : SnapshotRow) :
  In row (yearRows year cutoffDate holdings)
  <-> snapYear row = year /\ snapDate row = cutoffDate
      /\ 0.000001 < ownedQty row
      /\ holdings !! snapTicker row
         = Some (mkHolding (ownedQty row) (histInvested row) (snapType row)).
Proof.
  unfold yearRows. rewrite <- list_elem_of_In, list_elem_of_omap. split.
  - intros [[k h] [Hin Hrow]]. apply elem_of_map_to_list in Hin.
    destruct (Qltb 0.000001 (hqty h)) eqn:Eq; [|discriminate].
    injection Hrow as <-. cbn [snapYear snapDate ownedQty snapTicker histInvested snapType].
    split; [reflexivity|]. split; [reflexivity|]. split; [apply Qltb_lt, Eq|].
    rewrite Hin. destruct h; reflexivity.
  - intros (<- & <- & Hq & Hh). exists (snapTicker row, mkHolding (ownedQty row)
                                          (histInvested row) (snapType row)).
    split; [apply elem_of_map_to_list, Hh|].
    cbn [hqty]. rewrite (proj2 (Qltb_lt _ _) Hq). destruct row; reflexivity.
Qed.

End EvoluzioneMore.

Module EvoluzioneExtras.
Import Fiscal Reports NormalizerMoreDefs EvoluzioneDefs NormalizerFacts NormalizerMore.
Import EvoluzioneMore.
Local Open Scope Q_scope.

(** X15. The rows of the evolution table. Without trades there is no
    table; otherwise a row is in the table exactly when its year lies
    between the year of the earliest trade and the current year, its date is
    the snapshot date of that year, and its ticker is held at that date
    with more than 0.000001 units, the row carrying the quantity, invested
    capital and type of that holding. *)
Theorem evoluzione_rows (today : Date) (allData : list Trade) :
  match PORTFOLIO_EVOLUZIONE today allData with
  | None => allData = []
  | Some rows =>
      exists first others,
        sortByDate allData = first :: others
        /\ forall row,
             In row rows
             <-> snapshotRowOf today (yearOf (date first)) (sortByDate allData) row
  end.
Proof.
  unfold PORTFOLIO_EVOLUZIONE.
  destruct (sortByDate allData) as [|first others] eqn:E; [apply sortByDate_nil, E|].
  exists first, others. split; [reflexivity|].
  intros row. rewrite in_flat_map. unfold snapshotRowOf, snapshotDate. split.
  - intros (k & Hk & Hrow). apply in_seq in Hk. apply yearRows_spec in Hrow.
    destruct Hrow as (Hy & Hd & Hq & Hh).
    split; [lia|]. split; [rewrite Hd, Hy; reflexivity|]. split; [exact Hq|].
    rewrite Hd. exact Hh.
  - intros (Hy & Hd & Hq & Hh).
    exists (Z.to_nat (snapYear row - yearOf (date first))). split.
    + apply in_seq. lia.
    + apply yearRows_spec.
      replace (yearOf (date first)
               + Z.of_nat (Z.to_nat (snapYear row - yearOf (date first))))%Z
        with (snapYear row) by lia.
      split; [reflexivity|]. split; [exact Hd|]. split; [exact Hq|].
      rewrite <- Hd. exact Hh.
Qed.

(** X16. A snapshot is a replay of the trades dated up to its cutoff, in
    date order: trades dated later, wherever they stand in the sheet, do
    not change it. *)
Theorem snapshot_ignores_later_trades (cutoffDate : Date) (allData : list Trade) :
  holdingsAt cutoffDate (sortByDate allData)
  = fold_left holdStep (sortByDate (upTo cutoffDate allData)) ∅.
Proof.
  unfold holdingsAt. fold (upTo cutoffDate (sortByDate allData)).
  rewrite upTo_sortByDate. reflexivity.
Qed.

End EvoluzioneExtras.

(** ** Further properties of [processFifo] and its output *)

Module TradingMore.
Import Str Trading TradingInv TradingMoreDefs TradingFacts.
Local Open Scope Q_scope.

Lemma processRow_elsewhere p keepRows (m : gmap string (list TradeObj)) (r : Row) (t : string) :
  r_security r <> t -> processRow p keepRows m r !! t = m !! t.
Proof.
  intros Hne. unfold processRow.
  destruct (String.eqb (r_security r) ""); [reflexivity|].
  set (m1 := if isBuy (r_action r) then _ else _).
  assert (E1 : m1 !! t = m !! t).
  { subst m1. destruct (isBuy (r_action r)); [|reflexivity].
    destruct (m !! r_security r); apply lookup_insert_ne, Hne. }
  destruct (String.eqb (r_action r) "Sell"); [|exact E1].
  destruct (m1 !! r_security r) as [lots|]; [|exact E1].
  destruct (fst (sellLoop p _ lots)) as [|l' lots'].
  - destruct keepRows; [destruct (date_ltb _ _)|];
      rewrite ?lookup_delete_ne by exact Hne; rewrite lookup_insert_ne by exact Hne; exact E1.
  - rewrite lookup_insert_ne by exact Hne. exact E1.
Qed.

(** *** First in, first out *)

Lemma sellLoop_latest p (queue : list TradeObj) : forall s,
  suffix (map price (fst (sellLoop p s queue))) (map price queue)
  /\ suffix (tail (fst (sellLoop p s queue))) (tail queue).
Proof.
  induction queue as [|l rest IH]; intros s; cbn [sellLoop].
  - split; reflexivity.
  - destruct (Qltb 0 s); [|split; reflexivity].
    destruct (Qle_bool (toFixed p (shares l)) s).
    + destruct (IH (toFixed p (s - toFixed p (shares l)))) as [I1 I2]. split.
      * cbn [map]. apply suffix_cons_r, I1.
      * cbn [tail]. etransitivity; [exact I2|]. destruct rest; [reflexivity|].
        cbn [tail]. apply suffix_cons_r. reflexivity.
    + cbn [fst map tail setShares price]. split; reflexivity.
Qed.

Lemma latestOf_nil (buys : list Row) : latestOf buys [].
Proof. split; apply suffix_nil. Qed.

Lemma latestOf_push (buys : list Row) (queue : list TradeObj) (r : Row) :
  latestOf buys queue -> latestOf (buys ++ [r]) (queue ++ [lotOfRow r]).
Proof.
  intros [H1 H2]. split.
  - rewrite !map_app. cbn [map]. apply suffix_app, H1.
  - rewrite map_app. cbn [map]. destruct queue as [|l queue].
    + cbn [app tail]. apply suffix_nil.
    + cbn [app tail] in *. apply suffix_app, H2.
Qed.

Lemma latestOf_sell p s (buys : list Row) (queue : list TradeObj) :
  latestOf buys queue -> latestOf buys (fst (sellLoop p s queue)).
Proof.
  intros [H1 H2]. destruct (sellLoop_latest p queue s) as [S1 S2].
  split; etransitivity; eassumption.
Qed.

Lemma buysOf_snoc (t : string) (rows : list Row) (r : Row) :
  buysOf t (rows ++ [r]) = buysOf t rows ++ (if buysFor t r then [r] else []).
Proof. unfold buysOf. rewrite List.filter_app. reflexivity. Qed.

Lemma processRow_latest p keepRows (m : gmap string (list TradeObj)) (done : list Row)
    (r : Row) (t : string) :
  latestOf (buysOf t done) (lotsOf m t) ->
  latestOf (buysOf t (done ++ [r])) (lotsOf (processRow p keepRows m r) t).
Proof.
  intros H. rewrite buysOf_snoc. unfold buysFor.
  destruct (String.eqb_spec (r_security r) t) as [Et|Hne].
  2:{ unfold lotsOf. rewrite processRow_elsewhere by exact Hne.
      rewrite andb_false_r. cbn [andb]. rewrite app_nil_r. exact H. }
  unfold lotsOf in *. unfold processRow.
  destruct (String.eqb (r_security r) "") eqn:Eblank.
  { cbn [negb andb]. rewrite app_nil_r. exact H. }
  cbn [negb andb]. rewrite Et.
  destruct (isBuy (r_action r)) eqn:Eb.
  - rewrite (isBuy_not_Sell _ Eb).
    destruct (m !! t) as [lots|]; rewrite lookup_insert_eq; cbn [from_option id] in *.
    + apply latestOf_push, H.
    + apply (latestOf_push _ [] r), latestOf_nil.
  - rewrite app_nil_r.
    destruct (String.eqb (r_action r) "Sell"); [|exact H].
    destruct (m !! t) as [lots|] eqn:E; [|rewrite E; exact H].
    cbn [from_option id] in H.
    pose proof (latestOf_sell p (toFixed p (shares (createTradeObject (r_quantity r) (r_price r)
                                                     (r_action r)))) _ _ H) as Hs.
    destruct (fst (sellLoop p _ lots)) as [|l' lots'].
    + destruct keepRows; [destruct (date_ltb _ _)|];
        rewrite ?lookup_delete_eq, ?lookup_insert_eq; cbn [from_option id]; apply latestOf_nil.
    + rewrite lookup_insert_eq. exact Hs.
Qed.

Lemma processFifoFrom_latest p keepRows (t : string) (rows : list Row) :
  forall (m : gmap string (list TradeObj)) (done : list Row),
  latestOf (buysOf t done) (lotsOf m t) ->
  latestOf (buysOf t (done ++ rows)) (lotsOf (processFifoFrom p keepRows m rows) t).
Proof.
  induction rows as [|r rows IH]; intros m done H.
  - rewrite app_nil_r. exact H.
  - cbn [processFifoFrom fold_left].
    replace (done ++ r :: rows) with ((done ++ [r]) ++ rows)
      by (rewrite <- app_assoc; reflexivity).
    apply IH, processRow_latest, H.
Qed.

(** *** Closed positions *)

(** The queues after a row: none is empty unless it was before, or the row
    is a sell of the ticker that is kept. *)
Lemma processRow_closed p keepRows (m : gmap string (list TradeObj)) (r : Row) (t : string) :
  processRow p keepRows m r !! t = Some [] ->
  m !! t = Some [] \/ (keepRows = true /\ lateSell t r).
Proof.
  destruct (String.eqb_spec (r_security r) t) as [Et|Hne];
    [|rewrite processRow_elsewhere by exact Hne; intros H; left; exact H].
  unfold processRow. destruct (String.eqb (r_security r) ""); [intros H; left; exact H|].
  rewrite Et. destruct (isBuy (r_action r)) eqn:Eb.
  - rewrite (isBuy_not_Sell _ Eb).
    destruct (m !! t) as [lots|]; rewrite lookup_insert_eq; intros H; injection H as H.
    + destruct lots; discriminate.
    + discriminate.
  - destruct (String.eqb (r_action r) "Sell") eqn:Es; [|intros H; left; exact H].
    destruct (m !! t) as [lots|] eqn:E; [|rewrite E; discriminate].
    destruct (fst (sellLoop p _ lots)) as [|l' lots'].
    + destruct keepRows.
      * destruct (date_ltb _ _) eqn:Ed.
        -- rewrite lookup_delete_eq. discriminate.
        -- intros _. right. split; [reflexivity|].
           split; [exact Et|]. split; [apply String.eqb_eq, Es | exact Ed].
      * rewrite lookup_delete_eq. discriminate.
    + rewrite lookup_insert_eq. discriminate.
Qed.

Lemma processFifoFrom_closed p keepRows (t : string) (rows : list Row) :
  forall m : gmap string (list TradeObj),
  processFifoFrom p keepRows m rows !! t = Some [] ->
  m !! t = Some [] \/ (keepRows = true /\ exists r, In r rows /\ lateSell t r).
Proof.
  induction rows as [|r rows IH]; intros m H; [left; exact H|].
  cbn [processFifoFrom fold_left] in H. apply IH in H.
  destruct H as [H | (Hk & r' & Hin & Hr)].
  - apply processRow_closed in H. destruct H as [H | (Hk & Hr)]; [left; exact H|].
    right. split; [exact Hk|]. exists r. split; [left; reflexivity | exact Hr].
  - right. split; [exact Hk|]. exists r'. split; [right; exact Hin | exact Hr].
Qed.

(** *** The average price *)

Lemma totalCost_cons l (lots : list TradeObj) :
  totalCost (l :: lots) == shares l * price l + totalCost lots.
Proof.
  unfold totalCost. cbn [fold_left].
  assert (G : forall (ls : list TradeObj) a,
             fold_left (fun acc t => acc + shares t * price t) ls a
             == a + fold_left (fun acc t => acc + shares t * price t) ls 0).
  { induction ls as [|x ls IHl]; intros a; cbn [fold_left]; [ring|].
    rewrite (IHl (a + shares x * price x)), (IHl (0 + shares x * price x)). ring. }
  rewrite G. ring.
Qed.

(** The cost of a queue lies between its shares at the lowest and at the
    highest price. *)
Lemma totalCost_bounds (lo hi : Q) (lots : list TradeObj) :
  Forall (fun l => 0 <= shares l) lots ->
  Forall (fun l => lo <= price l /\ price l <= hi) lots ->
  lo * totalShares lots <= totalCost lots /\ totalCost lots <= hi * totalShares lots.
Proof.
  induction 1 as [|l lots Hl _ IH]; intros Hp.
  - unfold totalCost, totalShares. cbn [fold_left]. split; lra.
  - inversion Hp as [|? ? [Hlo Hhi] Hp']; subst. destruct (IH Hp') as [I1 I2].
    rewrite totalCost_cons, totalShares_cons.
    assert (lo * shares l <= shares l * price l) by nra.
    assert (shares l * price l <= hi * shares l) by nra.
    split; lra.
Qed.

Lemma avgPrice_bounds (lo hi : Q) (lots : list TradeObj) :
  Forall (fun l => 0 <= shares l) lots ->
  Forall (fun l => lo <= price l /\ price l <= hi) lots ->
  0 < totalShares lots ->
  lo <= avgPrice lots /\ avgPrice lots <= hi.
Proof.
  intros Hs Hp Hpos. destruct (totalCost_bounds lo hi lots Hs Hp) as [B1 B2].
  unfold avgPrice. rewrite (proj2 (Qltb_lt _ _) Hpos).
  split.
  - apply Qle_shift_div_l; [exact Hpos | exact B1].
  - apply Qle_shift_div_r; [exact Hpos | exact B2].
Qed.

(** The sell loop keeps lots with non-negative shares and a price within
    given bounds. *)
Lemma sellLoop_priced (lo hi : Q) p (lots : list TradeObj) : forall s,
  Forall (fun l => 0 <= shares l /\ lo <= price l /\ price l <= hi) lots ->
  Forall (fun l => 0 <= shares l /\ lo <= price l /\ price l <= hi) (fst (sellLoop p s lots)).
Proof.
  induction lots as [|l lots IH]; intros s Hl; cbn [sellLoop]; [constructor|].
  inversion Hl as [|? ? (H0 & H1 & H2) Hlots]; subst.
  destruct (Qltb 0 s) eqn:Es; [|exact Hl].
  destruct (Qle_bool (toFixed p (shares l)) s) eqn:Ec.
  - apply IH, Hlots.
  - cbn [fst]. constructor; [|exact Hlots]. apply Qle_bool_gt in Ec. apply Qltb_lt in Es.
    cbn [setShares shares price]. split; [apply toFixed_nonneg; lra|]. split; assumption.
Qed.

Lemma processFifoFrom_priced (lo hi : Q) p keepRows (rows : list Row) :
  forall m : gmap string (list TradeObj),
  Forall (fun r => 0 <= r_quantity r /\ lo <= r_price r /\ r_price r <= hi) rows ->
  allLots (fun l => 0 <= shares l /\ lo <= price l /\ price l <= hi) m ->
  allLots (fun l => 0 <= shares l /\ lo <= price l /\ price l <= hi)
          (processFifoFrom p keepRows m rows).
Proof.
  induction rows as [|r rows IH]; intros m Hr Hm; [exact Hm|].
  inversion Hr as [|? ? Hr0 Hrows]; subst. cbn [processFifoFrom fold_left].
  apply IH; [exact Hrows|].
  apply processRow_allLots; [|exact Hr0 | exact Hm].
  intros s lots Hl. apply sellLoop_priced, Hl.
Qed.

(** *** Kept rows *)

(** The queue of a ticker after a row, from its queue before. *)
Lemma processRow_lots p keepRows (m : gmap string (list TradeObj)) (r : Row) :
  lotsOf (processRow p keepRows m r) (r_security r)
  = if String.eqb (r_security r) "" then lotsOf m (r_security r)
    else if isBuy (r_action r) then lotsOf m (r_security r) ++ [lotOfRow r]
    else if String.eqb (r_action r) "Sell" then
      fst (sellLoop p (toFixed p (r_quantity r)) (lotsOf m (r_security r)))
    else lotsOf m (r_security r).
Proof.
  unfold lotsOf, processRow.
  destruct (String.eqb (r_security r) ""); [reflexivity|].
  destruct (isBuy (r_action r)) eqn:Eb.
  - rewrite (isBuy_not_Sell _ Eb).
    destruct (m !! r_security r) as [lots|]; rewrite lookup_insert_eq; reflexivity.
  - destruct (String.eqb (r_action r) "Sell"); [|reflexivity].
    destruct (m !! r_security r) as [lots|] eqn:E; [|rewrite E; reflexivity].
    cbn [createTradeObject shares from_option id].
    destruct (fst (sellLoop p (toFixed p (r_quantity r)) lots)) as [|l' lots'] eqn:Es.
    + destruct keepRows; [destruct (date_ltb _ _)|];
        rewrite ?lookup_delete_eq, ?lookup_insert_eq; reflexivity.
    + rewrite lookup_insert_eq. reflexivity.
Qed.

Lemma processRow_same_lots p (m1 m2 : gmap string (list TradeObj)) (r : Row) :
  (forall t, lotsOf m1 t = lotsOf m2 t) ->
  forall t, lotsOf (processRow p true m1 r) t = lotsOf (processRow p false m2 r) t.
Proof.
  intros H t. destruct (String.eqb_spec (r_security r) t) as [<-|Hne].
  - rewrite !processRow_lots, H. reflexivity.
  - unfold lotsOf. rewrite !processRow_elsewhere by exact Hne. apply H.
Qed.

Lemma processFifoFrom_same_lots p (rows : list Row) :
  forall m1 m2 : gmap string (list TradeObj),
  (forall t, lotsOf m1 t = lotsOf m2 t) ->
  forall t, lotsOf (processFifoFrom p true m1 rows) t
            = lotsOf (processFifoFrom p false m2 rows) t.
Proof.
  induction rows as [|r rows IH]; intros m1 m2 H; [exact H|].
  cbn [processFifoFrom fold_left]. apply IH, processRow_same_lots, H.
Qed.

End TradingMore.

(** ** Further properties of the positions *)

Module TradingExtras.
Import Str Trading TradingInv TradingMoreDefs TradingFacts TradingMore.
Local Open Scope Q_scope.

(** X17. First in, first out: whatever the rows, the lots [processFifo]
    leaves for a ticker are the latest of its buys. The prices of the queue
    are the prices of the last buy rows of the ticker, in sheet order, and
    every lot after the first is one of those buys untouched. *)
Theorem fifo_keeps_latest_buys (rows : list Row) (precision : nat) (keepRows : bool)
    (t : string) :
  latestOf (buysOf t rows) (lotsOf (processFifo rows precision keepRows) t).
Proof.
  unfold processFifo.
  apply (processFifoFrom_latest precision keepRows t rows ∅ []).
  unfold lotsOf. rewrite lookup_empty. apply latestOf_nil.
Qed.

(** X18. Closed positions. [myCryptoPositions] never returns a ticker with
    an empty queue; [myStockPositions] returns one only if some row is a
    sell of that ticker dated on or after the cut-off date. *)
Theorem closed_positions (rows : list Row) :
  map_Forall (fun _ lots => lots <> []) (myCryptoPositions rows)
  /\ map_Forall (fun t lots => lots = [] -> exists r, In r rows /\ lateSell t r)
                (myStockPositions rows).
Proof.
  unfold myCryptoPositions, myStockPositions, processFifo. split.
  - intros t lots E ->. apply processFifoFrom_closed in E.
    destruct E as [E | [E _]]; [rewrite lookup_empty in E|]; discriminate.
  - intros t lots E ->. apply processFifoFrom_closed in E.
    destruct E as [E | [_ E]]; [rewrite lookup_empty in E; discriminate | exact E].
Qed.

(** X19. The average price of the output. With non-negative quantities and
    all prices between [lo] and [hi], every row of [formatPortfolioOutput]
    has a non-negative share count, an average price between [lo] and [hi]
    when shares are held, and an average price of 0 otherwise. *)
Theorem average_price_within_prices (rows : list Row) (precision : nat) (keepRows : bool)
    (lo hi : Q) (t : string) (sh avg : Q) :
  Forall (fun r => 0 <= r_quantity r /\ lo <= r_price r /\ r_price r <= hi) rows ->
  In (t, sh, avg) (formatPortfolioOutput (processFifo rows precision keepRows)) ->
  0 <= sh
  /\ (0 < sh -> lo <= avg /\ avg <= hi)
  /\ (sh <= 0 -> avg = 0).
Proof.
  intros Hrows Hin. unfold formatPortfolioOutput in Hin.
  apply in_map_iff in Hin. destruct Hin as [[k lots] [Heq Hin]].
  injection Heq as <- <- <-.
  apply list_elem_of_In, elem_of_map_to_list in Hin.
  pose proof (processFifoFrom_priced lo hi precision keepRows rows ∅ Hrows
                (allLots_empty _) k lots Hin) as Hl.
  assert (Hs : Forall (fun l => 0 <= shares l) lots).
  { eapply Forall_impl; [exact Hl|]. intros l Hx. apply Hx. }
  assert (Hp : Forall (fun l => lo <= price l /\ price l <= hi) lots).
  { eapply Forall_impl; [exact Hl|]. intros l Hx. apply Hx. }
  split; [apply totalShares_nonneg, Hs|]. split.
  - intros Hpos. apply avgPrice_bounds; assumption.
  - intros Hle. unfold avgPrice. rewrite (proj2 (Qltb_ge _ _) Hle). reflexivity.
Qed.

(** Two buys of 10 at 100 and at 120 and a sell of 15: 5 shares at 600/5,
    that is 120. *)
Lemma average_price_within_prices_witness :
  let rows : list Row :=
    [ mkRow "ACME" "Buy" 10 100 (Some (mkDate 2024 1 1));
      mkRow "ACME" "Buy" 10 120 (Some (mkDate 2024 2 1));
      mkRow "ACME" "Sell" 15 150 (Some (mkDate 2024 3 1)) ] in
  In ("ACME"%string, 5, 600 # 5) (formatPortfolioOutput (myStockPositions rows))
  /\ 100 <= 600 # 5 /\ 600 # 5 <= 150.
Proof.
  intros rows.
  assert (Hin : In ("ACME"%string, 5, 600 # 5)
                   (formatPortfolioOutput (processFifo rows 5 true))).
  { vm_compute. left. reflexivity. }
  destruct (average_price_within_prices rows 5 true 100 150 "ACME" 5 (600 # 5))
    as (_ & H & _).
  - repeat constructor; try (unfold Qle; simpl; lia).
  - exact Hin.
  - split; [exact Hin|]. apply H. vm_compute. reflexivity.
Defined.

(** X25. [keepRows] only decides whether a closed position stays in the
    map: at the same precision, keeping rows or not gives every ticker the
    same lots. *)
Theorem keepRows_changes_no_lot (rows : list Row) (precision : nat) (t : string) :
  lotsOf (processFifo rows precision true) t = lotsOf (processFifo rows precision false) t.
Proof.
  unfold processFifo. apply processFifoFrom_same_lots. intros k. reflexivity.
Qed.

End TradingExtras.
(** ** The scanner and the tax bill *)

Module TaxOptimizationFacts.
Import Parse Fiscal TaxOptimization TaxOptimizationDefs.
Local Open Scope Q_scope.

(** *** Rounding *)

Lemma toFixed_opp (p : nat) (x : Q) : toFixed p (- x) == - toFixed p x.
Proof.
  unfold toFixed. rewrite !Qred_correct.
  assert (E : Qabs (- x) * inject_Z (Z.pos (scale p)) + (1 # 2)
              == Qabs x * inject_Z (Z.pos (scale p)) + (1 # 2)).
  { rewrite Qabs_opp. reflexivity. }
  rewrite (Qfloor_comp _ _ E).
  destruct x as [a b]. unfold Qopp, Qeq. cbn [Qnum Qden].
  rewrite Z.sgn_opp. lia.
Qed.

Lemma toFixed_0 (p : nat) (x : Q) : x == 0 -> toFixed p x == 0.
Proof.
  intros H. rewrite (toFixed_Qeq p x 0 H). apply (atPrecision_0 p).
Qed.

Lemma toFixed_nonpos (p : nat) (x : Q) : x <= 0 -> toFixed p x <= 0.
Proof.
  intros H. assert (E : x == - - x) by ring.
  rewrite (toFixed_Qeq p _ _ E), toFixed_opp.
  assert (0 <= toFixed p (- x)) by (apply toFixed_nonneg; lra). lra.
Qed.

(** On a number that is not negative, the rounding is a floor. *)
Lemma toFixed_floor (p : nat) (x : Q) :
  0 <= x ->
  toFixed p x == Qfloor (x * inject_Z (Z.pos (scale p)) + (1 # 2)) # scale p.
Proof.
  intros Hx. unfold toFixed. rewrite Qred_correct.
  assert (Ea : Qabs x * inject_Z (Z.pos (scale p)) + (1 # 2)
               == x * inject_Z (Z.pos (scale p)) + (1 # 2)).
  { rewrite (Qabs_pos x Hx). reflexivity. }
  rewrite (Qfloor_comp _ _ Ea).
  destruct (Z.eq_dec (Qnum x) 0%Z) as [E0 | Hne].
  - assert (Ex : x * inject_Z (Z.pos (scale p)) + (1 # 2) == 1 # 2).
    { assert (x == 0) by (destruct x as [a b]; unfold Qeq; cbn in *; lia).
      rewrite H. ring. }
    rewrite (Qfloor_comp _ _ Ex), E0. reflexivity.
  - assert (Es : Z.sgn (Qnum x) = 1%Z).
    { destruct x as [a b]. unfold Qle in Hx. cbn in *. lia. }
    rewrite Es, Z.mul_1_l. reflexivity.
Qed.

Lemma toFixed_mono_nonneg (p : nat) (x y : Q) :
  0 <= x -> x <= y -> toFixed p x <= toFixed p y.
Proof.
  intros Hx Hxy. rewrite (toFixed_floor p x Hx), (toFixed_floor p y) by lra.
  assert (Hs : 0 <= inject_Z (Z.pos (scale p))) by (unfold Qle; cbn; lia).
  assert (H : x * inject_Z (Z.pos (scale p)) + (1 # 2)
              <= y * inject_Z (Z.pos (scale p)) + (1 # 2)).
  { apply Qplus_le_compat; [|lra]. apply Qmult_le_compat_r; assumption. }
  apply Qfloor_resp_le in H. unfold Qle. cbn [Qnum Qden]. nia.
Qed.

(** Rounding keeps the order. *)
Lemma toFixed_mono (p : nat) (x y : Q) : x <= y -> toFixed p x <= toFixed p y.
Proof.
  intros Hxy. destruct (Qlt_le_dec x 0) as [Hx | Hx].
  - destruct (Qlt_le_dec y 0) as [Hy | Hy].
    + assert (Ex : x == - - x) by ring. assert (Ey : y == - - y) by ring.
      rewrite (toFixed_Qeq p _ _ Ex), (toFixed_Qeq p _ _ Ey).
      rewrite (toFixed_opp p (- x)), (toFixed_opp p (- y)).
      assert (toFixed p (- y) <= toFixed p (- x)) by (apply toFixed_mono_nonneg; lra).
      lra.
    + assert (toFixed p x <= 0) by (apply toFixed_nonpos; lra).
      assert (0 <= toFixed p y) by (apply toFixed_nonneg; exact Hy). lra.
  - apply toFixed_mono_nonneg; assumption.
Qed.

(** *** The scanner *)

Lemma cellAt_numeric (qs : list Q) : forall i : nat,
  parseMyFloat (cellAt (map CNum qs) i) = Num (nth i qs 0).
Proof.
  induction qs as [|q qs IH]; intros [|i]; try reflexivity.
  apply (IH i).
Qed.

(** The loop body on numeric columns. *)
Lemma scanRow_numeric (assetType : Cell) (qs avgs curs : list Q) (i : nat) (t : Cell) :
  scanRow assetType (map CNum qs) (map CNum avgs) (map CNum curs) i t
  = let q := nth i qs 0 in
    let pnl := q * nth i curs 0 - q * nth i avgs 0 in
    if truthy t && Qltb 0.00001 q && Qltb pnl 0
    then Some (mkLoserRow t (Num q) (Num (toFixed 2 pnl)) (Num (toFixed 2 (Qabs pnl)))
                          (Num (toFixed 0 (Qabs pnl))) (isETF assetType),
               Num (Qabs pnl))
    else None.
Proof.
  unfold scanRow. rewrite !cellAt_numeric. cbv zeta. cbn [jle jmul jsub jlt jabs jtoFixed].
  destruct (truthy t); cbn [negb orb andb]; [|reflexivity].
  unfold Qltb. destruct (Qle_bool (nth i qs 0) 0.00001); reflexivity.
Qed.

(** For a quantity above the threshold the P&L is negative exactly when the
    price has fallen. *)
Lemma pnl_sign (q avg cur : Q) :
  0.00001 < q -> Qltb (q * cur - q * avg) 0 = Qltb cur avg.
Proof.
  intros Hq. destruct (Qltb cur avg) eqn:E.
  - apply Qltb_lt in E. apply Qltb_lt. nra.
  - apply Qltb_ge in E. apply Qltb_ge. nra.
Qed.

Lemma scanRow_listed (assetType : Cell) (tickers : list Cell) (qs avgs curs : list Q)
    (i : nat) (t : Cell) :
  tickers !! i = Some t ->
  match scanRow assetType (map CNum qs) (map CNum avgs) (map CNum curs) i t with
  | Some (row, potentialMinus) =>
      listed tickers qs avgs curs i = true
      /\ listsPosition qs avgs curs assetType i t row
      /\ sameNumber potentialMinus (Num (lossAt qs avgs curs i))
  | None => listed tickers qs avgs curs i = false
  end.
Proof.
  intros Ht. rewrite scanRow_numeric. cbv zeta. unfold listed, cellAt. rewrite Ht.
  cbn [default from_option id]. destruct (truthy t); [|reflexivity].
  destruct (Qltb 0.00001 (nth i qs 0)) eqn:Eq; [|reflexivity].
  apply Qltb_lt in Eq. rewrite (pnl_sign _ _ _ Eq). cbn [andb].
  destruct (Qltb (nth i curs 0) (nth i avgs 0)) eqn:Ec; [|reflexivity].
  apply Qltb_lt in Ec. split; [reflexivity|].
  assert (Ea : Qabs (nth i qs 0 * nth i curs 0 - nth i qs 0 * nth i avgs 0)
               == lossAt qs avgs curs i).
  { unfold lossAt. rewrite Qabs_neg by nra. ring. }
  assert (Ep : nth i qs 0 * nth i curs 0 - nth i qs 0 * nth i avgs 0
               == nth i qs 0 * (nth i curs 0 - nth i avgs 0)) by ring.
  assert (En : nth i qs 0 * (nth i curs 0 - nth i avgs 0) == - lossAt qs avgs curs i)
    by (unfold lossAt; ring).
  split; [|exact Ea].
  unfold listsPosition.
  cbn [loserTicker loserQty validForBasket printedPnl printedMinus noteAmount numberIn].
  rewrite (toFixed_Qeq 2 _ _ Ep), (toFixed_Qeq 2 _ _ Ea), (toFixed_Qeq 0 _ _ Ea).
  repeat (split; [reflexivity|]). split.
  - apply toFixed_nonpos. nra.
  - rewrite (toFixed_Qeq 2 _ _ En), toFixed_opp. ring.
Qed.

(** The loop on numeric columns: the rows pushed list the positions under
    water that are left, in their order, and the total grows by their
    losses. *)
Lemma scanFrom_numeric (assetType : Cell) (tickers : list Cell) (qs avgs curs : list Q) :
  forall (l : list Cell) (i : nat) (report : list LoserRow) (acc : Q),
    drop i tickers = l ->
    exists rows total,
      scanFrom assetType (map CNum qs) (map CNum avgs) (map CNum curs) i l report (Num acc)
      = (report ++ rows, Num total)
      /\ Forall2 (fun k row => listsPosition qs avgs curs assetType k (cellAt tickers k) row)
                 (List.filter (listed tickers qs avgs curs) (seq i (length l))) rows
      /\ total == acc + sumLosses qs avgs curs
                          (List.filter (listed tickers qs avgs curs) (seq i (length l))).
Proof.
  induction l as [|t rest IH]; intros i report acc Hl.
  - exists [], acc. cbn. rewrite app_nil_r. split; [reflexivity|]. split; [constructor | ring].
  - assert (Ht : tickers !! i = Some t).
    { pose proof (lookup_drop tickers i 0) as H. rewrite Hl, Nat.add_0_r in H.
      symmetry. exact H. }
    assert (Hrest : drop (S i) tickers = rest).
    { replace (S i) with (i + 1)%nat by lia. rewrite <- drop_drop, Hl. reflexivity. }
    cbn [scanFrom length seq List.filter].
    pose proof (scanRow_listed assetType tickers qs avgs curs i t Ht) as Hrow.
    destruct (scanRow assetType (map CNum qs) (map CNum avgs) (map CNum curs) i t)
      as [[row potentialMinus]|].
    + destruct Hrow as (El & Hlists & Hminus). rewrite El.
      destruct potentialMinus as [m| |]; try contradiction. cbn [sameNumber] in Hminus.
      cbn [jadd].
      destruct (IH (S i) (report ++ [row]) (acc + m) Hrest) as (rows & total & E & F & T).
      exists (row :: rows), total. rewrite E, <- List.app_assoc. split; [reflexivity|]. split.
      * constructor; [|exact F]. unfold cellAt. rewrite Ht. exact Hlists.
      * rewrite T, Hminus. unfold sumLosses. cbn [fold_right]. ring.
    + rewrite Hrow. apply (IH (S i) report acc Hrest).
Qed.

Lemma listed_underWater (tickers : list Cell) (qs avgs curs : list Q) (i : nat) :
  In i (losers tickers qs avgs curs) <-> exists t, underWater tickers qs avgs curs i t.
Proof.
  unfold losers, underWater. rewrite List.filter_In, in_seq. unfold listed, cellAt. split.
  - intros [[_ Hi] H]. cbn in Hi.
    destruct (tickers !! i) as [t|] eqn:E.
    + cbn [default from_option id] in H. apply andb_true_iff in H. destruct H as [H H3].
      apply andb_true_iff in H. destruct H as [H1 H2].
      exists t. split; [reflexivity|]. split; [exact H1|].
      split; apply Qltb_lt; assumption.
    + apply lookup_ge_None in E. lia.
  - intros (t & Ht & H1 & H2 & H3). split.
    + split; [lia|]. cbn. apply lookup_lt_Some in Ht. exact Ht.
    + rewrite Ht. cbn [default from_option id]. rewrite H1.
      rewrite (proj2 (Qltb_lt _ _) H2), (proj2 (Qltb_lt _ _) H3). reflexivity.
Qed.

Lemma sumLosses_nonneg (tickers : list Cell) (qs avgs curs : list Q) (positions : list nat) :
  Forall (fun i => listed tickers qs avgs curs i = true) positions ->
  0 <= sumLosses qs avgs curs positions.
Proof.
  induction 1 as [|i l Hi _ IH]; cbn [sumLosses fold_right]; [lra|].
  fold (sumLosses qs avgs curs l).
  unfold listed in Hi. apply andb_true_iff in Hi. destruct Hi as [Hi H3].
  apply andb_true_iff in Hi. destruct Hi as [_ H2].
  apply Qltb_lt in H2. apply Qltb_lt in H3. unfold lossAt. nra.
Qed.

End TaxOptimizationFacts.

Module TaxOptimizationExtras.
Import Parse Fiscal TaxOptimization TaxOptimizationDefs TaxOptimizationFacts.
Local Open Scope Q_scope.



(** Three positions with losses of 0.004 each, a position in gain and one
    without ticker: three rows, each printing a loss of 0.00, and a total
    of 0.01. *)
Example scanner_rounds_total_once :
  TAX_HARVESTING_SCANNER
    [CStr "ACME"; CStr "BOLT"; CStr ""; CStr "CRUX"; CStr "DELT"]
    (map CNum [1; 5; 3; 1; 1]) (map CNum [1; 20; 50; 1; 1])
    (map CNum [0.996; 25; 10; 0.996; 0.996]) (CStr "ETF")
  = LosingPositions
      [ mkLoserRow (CStr "ACME") (Num 1) (Num 0) (Num 0) (Num 0) true;
        mkLoserRow (CStr "CRUX") (Num 1) (Num 0) (Num 0) (Num 0) true;
        mkLoserRow (CStr "DELT") (Num 1) (Num 0) (Num 0) (Num 0) true ]
      (Num 0.01).
Proof. vm_compute. reflexivity. Qed.



(** A base of 0.05 is taxed 0.01, not 0.013. *)
Example tax_bill_rounds_tax :
  let bill := ESTIMATE_TAX_BILL (CNum 0.05) (CNum 0) (CNum 0) in
  sameNumber (taxableBase bill) (Num 0.05) /\ sameNumber (estimatedTax bill) (Num 0.01).
Proof. vm_compute. split; reflexivity. Qed.

End TaxOptimizationExtras.

(** ** More on [cleanNumber] *)

Module ParseMore.
Import Str Parse NumberFormat ParseInv ParseMoreDefs FormatFacts.
Local Open Scope Q_scope.

(** *** Plain text passes the clean-up untouched *)

Lemma strip_plain_char (c : ascii) (s : string) :
  plainChar c = true ->
  removeAll (currencySigns ++ whitespace) (String c s) 0
  = String c (removeAll (currencySigns ++ whitespace) s 0).
Proof.
  destruct c as [[] [] [] [] [] [] [] []]; intros H; try discriminate H; reflexivity.
Qed.

Lemma trimStart_plain_char (c : ascii) (s : string) :
  plainChar c = true -> trimStart (String c s) 0 = String c s.
Proof.
  destruct c as [[] [] [] [] [] [] [] []]; intros H; try discriminate H; reflexivity.
Qed.

Lemma allWhitespace_plain_char (c : ascii) (s : string) :
  plainChar c = true -> allWhitespace (String c s) = false.
Proof.
  destruct c as [[] [] [] [] [] [] [] []]; intros H; try discriminate H; reflexivity.
Qed.

Lemma not_x_plain_char (c : ascii) (s : string) :
  plainChar c = true -> String.eqb (toLowerCase (String c s)) "x" = false.
Proof.
  destruct c as [[] [] [] [] [] [] [] []]; intros H; try discriminate H; reflexivity.
Qed.

Lemma strip_plain (s : string) :
  plainText s = true -> removeAll (currencySigns ++ whitespace) s 0 = s.
Proof.
  induction s as [|c s IH]; [reflexivity|]. cbn [plainText]. intros H.
  apply andb_true_iff in H. destruct H as [Hc Hs].
  rewrite strip_plain_char by exact Hc. rewrite IH by exact Hs. reflexivity.
Qed.

Lemma trimEnd_plain (s : string) : plainText s = true -> trimEnd s = s.
Proof.
  induction s as [|c s IH]; [reflexivity|]. cbn [plainText]. intros H.
  apply andb_true_iff in H. destruct H as [Hc Hs].
  cbn [trimEnd]. rewrite allWhitespace_plain_char by exact Hc. rewrite IH by exact Hs.
  reflexivity.
Qed.

Lemma trim_plain (s : string) : plainText s = true -> trim s = s.
Proof.
  intros H. unfold trim. destruct s as [|c s]; [reflexivity|].
  assert (Hc : plainChar c = true).
  { cbn [plainText] in H. apply andb_true_iff in H. apply H. }
  rewrite trimStart_plain_char by exact Hc. apply trimEnd_plain, H.
Qed.

(** [cleanNumber] on a plain text: only the separators decide. *)
Lemma cleanNumber_plain (s : string) :
  plainText s = true -> s <> "" ->
  cleanNumber (CStr s)
  = (let num := parseFloat (separatorsRead s) in if isNaN num then Num 0 else num).
Proof.
  intros Hp Hne. unfold cleanNumber. cbn [truthy cellText].
  rewrite (proj2 (String.eqb_neq s "") Hne). cbn [negb].
  rewrite trim_plain by exact Hp. rewrite (proj2 (String.eqb_neq s "") Hne).
  destruct s as [|c s]; [congruence|].
  assert (Hc : plainChar c = true).
  { cbn [plainText] in Hp. apply andb_true_iff in Hp. apply Hp. }
  rewrite not_x_plain_char by exact Hc. cbn [orb].
  rewrite strip_plain by exact Hp. reflexivity.
Qed.

Lemma plainText_app (a b : string) : plainText (a +:+ b) = plainText a && plainText b.
Proof.
  induction a as [|c a IH]; [reflexivity|].
  rewrite app_cons. cbn [plainText]. rewrite IH, andb_assoc. reflexivity.
Qed.

Lemma plainText_digits (ds : list nat) : isDigits ds -> plainText (digits ds) = true.
Proof.
  induction 1 as [|d ds Hd _ IH]; [reflexivity|].
  cbn [digits plainText]. rewrite plainChar_digitChar by exact Hd. exact IH.
Qed.

Lemma plainText_grouped (groups : list (list nat)) :
  Forall isDigits groups -> plainText (grouped groups) = true.
Proof.
  induction 1 as [|g groups Hg _ IH]; [reflexivity|].
  destruct groups as [|g' groups]; [apply plainText_digits, Hg|].
  change (grouped (g :: g' :: groups))
    with (digits g +:+ String "."%char (grouped (g' :: groups))).
  rewrite plainText_app, plainText_digits by exact Hg.
  cbn [plainText andb]. exact IH.
Qed.

(** *** Separators *)

Lemma includes_cons (c a : ascii) (r : string) :
  includes (String c r) (String a "") = Ascii.eqb c a || includes r (String a "").
Proof.
  unfold includes. cbn [index String.prefix].
  destruct (ascii_dec a c) as [->|Hne].
  - rewrite Ascii.eqb_refl. destruct r; reflexivity.
  - assert (E : Ascii.eqb c a = false) by (apply Ascii.eqb_neq; congruence).
    rewrite E. cbn [orb]. destruct (index 0 (String a "") r); reflexivity.
Qed.

Lemma includes_nil (a : ascii) : includes "" (String a "") = false.
Proof. reflexivity. Qed.

Lemma digitChar_neq_dot (d : nat) : (d < 10)%nat -> Ascii.eqb (digitChar d) "."%char = false.
Proof. intros H. digit_cases d H. Qed.

Lemma includes_digits (a : ascii) (ds : list nat) (s : string) :
  isDigits ds -> (a = "."%char \/ a = ","%char) ->
  includes (digits ds +:+ s) (String a "") = includes s (String a "").
Proof.
  intros Hd Ha. induction Hd as [|d ds Hd _ IH]; [reflexivity|].
  cbn [digits]. rewrite app_cons, includes_cons, IH.
  destruct Ha as [-> | ->];
    [rewrite digitChar_neq_dot by exact Hd | rewrite digitChar_not_comma by exact Hd];
    reflexivity.
Qed.

Lemma includes_later (a : ascii) (x y : string) :
  includes (x +:+ String a y) (String a "") = true.
Proof.
  induction x as [|c x IH].
  - rewrite app_nil, includes_cons, Ascii.eqb_refl. reflexivity.
  - rewrite app_cons, includes_cons, IH. apply orb_true_r.
Qed.

(** Without a dot there is nothing to remove. *)
Lemma undot_noop (s : string) : includes s "." = false -> removeAll ["."] s 0 = s.
Proof.
  induction s as [|c s IH]; [reflexivity|].
  rewrite includes_cons. intros H. apply orb_false_iff in H. destruct H as [Hc Hs].
  cbn [removeAll findPrefix startsWith].
  rewrite Ascii.eqb_sym, Hc. cbn [andb]. rewrite IH by exact Hs. reflexivity.
Qed.

(** What the separator branches make of a number written the Italian way
    and of one written with a decimal point. *)
Lemma separatorsRead_italian (negative : bool) (groups : list (list nat))
    (decimals : list nat) :
  Forall isDigits groups -> isDigits decimals ->
  separatorsRead (italian negative groups decimals)
  = (if negative then "-" else "") +:+ digits (concat groups)
    +:+ String "."%char (digits decimals).
Proof.
  intros Hg Hd.
  assert (Hc : isDigits (concat groups)).
  { clear -Hg. induction Hg as [|g gs H1 _ IH]; [constructor|].
    simpl. apply Forall_app. split; assumption. }
  assert (T2 : removeAll ["."] (grouped groups +:+ String ","%char (digits decimals)) 0
               = digits (concat groups) +:+ String ","%char (digits decimals)).
  { rewrite undot_grouped by exact Hg.
    change (removeAll ["."] (String ","%char (digits decimals)) 0)
      with (String ","%char (removeAll ["."] (digits decimals) 0)).
    rewrite <- (app_empty_r (digits decimals)) at 1.
    rewrite undot_digits by exact Hd. rewrite app_empty_r. reflexivity. }
  assert (T3 : replaceFirstComma
                 (removeAll ["."] (italian negative groups decimals) 0)
               = (if negative then "-" else "") +:+ digits (concat groups)
                 +:+ String "."%char (digits decimals)).
  { unfold italian. destruct negative.
    - rewrite !app_cons, !app_nil.
      change (removeAll ["."] (String "-"%char (grouped groups
                +:+ String ","%char (digits decimals))) 0)
        with (String "-"%char (removeAll ["."] (grouped groups
                +:+ String ","%char (digits decimals)) 0)).
      rewrite T2. simpl replaceFirstComma. rewrite comma_after_digits by exact Hc.
      reflexivity.
    - rewrite !app_nil, T2. apply comma_after_digits, Hc. }
  unfold separatorsRead.
  assert (Hcomma : includes (italian negative groups decimals) "," = true).
  { unfold italian. rewrite <- FormatFacts.app_assoc. apply includes_later. }
  rewrite Hcomma, andb_true_r.
  destruct (includes (italian negative groups decimals) ".") eqn:Edot; [exact T3|].
  rewrite <- (undot_noop _ Edot) at 1. exact T3.
Qed.

Lemma separatorsRead_point (negative : bool) (ip fp : list nat) :
  isDigits ip -> isDigits fp ->
  separatorsRead ((if negative then "-" else "") +:+ digits ip
                  +:+ String "."%char (digits fp))
  = (if negative then "-" else "") +:+ digits ip +:+ String "."%char (digits fp).
Proof.
  intros Hi Hf. unfold separatorsRead.
  assert (Hcomma : includes ((if negative then "-" else "") +:+ digits ip
                             +:+ String "."%char (digits fp)) "," = false).
  { assert (T : includes (digits ip +:+ String "."%char (digits fp)) "," = false).
    { rewrite includes_digits by (try exact Hi; right; reflexivity).
      rewrite includes_cons. cbn [Ascii.eqb orb].
      rewrite <- (app_empty_r (digits fp)).
      rewrite includes_digits by (try exact Hf; right; reflexivity). reflexivity. }
    destruct negative.
    - rewrite app_cons, app_nil, includes_cons. exact T.
    - rewrite app_nil. exact T. }
  rewrite Hcomma, andb_false_r. reflexivity.
Qed.

(** *** Currency signs *)

(** A sign of the class in front of a plain text is dropped, and nothing
    else is. *)
Lemma strip_sign (sign s : string) :
  In sign currencySigns -> plainText s = true ->
  removeAll (currencySigns ++ whitespace) (sign +:+ s) 0 = s.
Proof.
  intros Hin Hs. rewrite <- (strip_plain s Hs) at 2.
  repeat (destruct Hin as [<- | Hin]; [reflexivity|]). destruct Hin.
Qed.

Lemma trimEnd_sign (sign s : string) :
  In sign currencySigns -> plainText s = true -> trimEnd (sign +:+ s) = sign +:+ s.
Proof.
  intros Hin Hs. rewrite <- (trimEnd_plain s Hs) at 2.
  repeat (destruct Hin as [<- | Hin]; [reflexivity|]). destruct Hin.
Qed.

Lemma trim_sign (sign s : string) :
  In sign currencySigns -> plainText s = true -> trim (sign +:+ s) = sign +:+ s.
Proof.
  intros Hin Hs. unfold trim.
  replace (trimStart (sign +:+ s) 0) with (sign +:+ s); [apply trimEnd_sign; assumption|].
  repeat (destruct Hin as [<- | Hin]; [reflexivity|]). destruct Hin.
Qed.

Lemma sign_not_x (sign s : string) :
  In sign currencySigns ->
  String.eqb (sign +:+ s) "" = false /\ String.eqb (toLowerCase (sign +:+ s)) "x" = false.
Proof.
  intros Hin.
  repeat (destruct Hin as [<- | Hin]; [split; reflexivity|]). destruct Hin.
Qed.

(** The euro sign is not in the class: it stays in front of the text all
    the way to [parseFloat], which reads no number there. *)
Lemma trim_euro (t : string) : trim (euro +:+ t) = euro +:+ trimEnd t.
Proof. reflexivity. Qed.

Lemma strip_euro (t : string) :
  removeAll (currencySigns ++ whitespace) (euro +:+ t) 0
  = euro +:+ removeAll (currencySigns ++ whitespace) t 0.
Proof. reflexivity. Qed.

Lemma separatorsRead_euro (t : string) : exists w, separatorsRead (euro +:+ t) = euro +:+ w.
Proof.
  unfold separatorsRead.
  destruct (includes (euro +:+ t) "." && includes (euro +:+ t) ",").
  - exists (replaceFirstComma (removeAll ["."] t 0)). reflexivity.
  - destruct (includes (euro +:+ t) ",").
    + exists (replaceFirstComma t). reflexivity.
    + exists t. reflexivity.
Qed.

Lemma parseFloat_euro (w : string) : parseFloat (euro +:+ w) = NaN.
Proof. reflexivity. Qed.

End ParseMore.

Module ParseExtras.
Import Str Parse NumberFormat ParseInv ParseMoreDefs FormatFacts ParseMore.
Local Open Scope Q_scope.

(** X5.  [cleanNumber] and the currency signs.  The result is never NaN.
    One of the characters U+00E2, U+201A, U+00AC, the dollar sign, U+00C2
    and the pound sign U+00A3, which make up the class of the clean-up as
    the file holds it, in front of a text of digits, dots, commas and minus
    signs changes nothing: the text is read as without it.  The euro sign
    U+20AC is not in the class: a text that starts with it gives 0,
    whatever follows. *)
Theorem cleanNumber_currency_signs (value : Cell) (codepoint : nat) (s t : string) :
  In codepoint [0xE2; 0x201A; 0xAC; 0x24; 0xC2; 0xA3]%nat ->
  plainText s = true -> s <> "" ->
  cleanNumber value <> NaN
  /\ cleanNumber (CStr (utf8 codepoint +:+ s)) = cleanNumber (CStr s)
  /\ cleanNumber (CStr (utf8 0x20AC +:+ t)) = Num 0.
Proof.
  intros Hcp Hs Hne.
  assert (Hin : In (utf8 codepoint) currencySigns).
  { repeat (destruct Hcp as [<- | Hcp]; [vm_compute; tauto|]). destruct Hcp. }
  split; [|split].
  - unfold cleanNumber. destruct (negb (truthy value)); [discriminate|].
    destruct value as [|q|v|b]; try discriminate.
    + cbn [cellText]. destruct (_ || _); [discriminate|].
      destruct (parseFloat _); discriminate.
    + cbn [cellText]. destruct (_ || _); [discriminate|].
      destruct (parseFloat _); discriminate.
  - rewrite (cleanNumber_plain s Hs Hne). unfold cleanNumber. cbn [truthy cellText].
    destruct (sign_not_x (utf8 codepoint) s Hin) as [E1 E2].
    rewrite E1. cbn [negb]. rewrite (trim_sign _ s Hin Hs), E1, E2. cbn [orb].
    rewrite (strip_sign _ s Hin Hs). reflexivity.
  - change (utf8 0x20AC) with euro.
    unfold cleanNumber. cbn [truthy cellText].
    change (String.eqb (euro +:+ t) "") with false. cbn [negb].
    rewrite trim_euro.
    change (String.eqb (euro +:+ trimEnd t) "") with false.
    change (String.eqb (toLowerCase (euro +:+ trimEnd t)) "x") with false. cbn [orb].
    rewrite strip_euro.
    destruct (separatorsRead_euro (removeAll (currencySigns ++ whitespace) (trimEnd t) 0))
      as [w Ew].
    unfold separatorsRead in Ew. rewrite Ew, parseFloat_euro. reflexivity.
Qed.

(** A pound sign in front of [1.250,50] changes nothing, and a euro sign in
    front of [ 1.234,56] gives 0. *)
Lemma cleanNumber_currency_signs_witness :
  utf8 0xA3 = pound /\ utf8 0x20AC = euro
  /\ cleanNumber (CStr (pound +:+ "1.250,50")) = cleanNumber (CStr "1.250,50")
  /\ sameNumber (cleanNumber (CStr "1.250,50")) (Num 1250.5)
  /\ cleanNumber (CStr (euro +:+ " 1.234,56")) = Num 0.
Proof.
  destruct (cleanNumber_currency_signs CUndef 0xA3 "1.250,50" " 1.234,56")
    as (_ & H1 & H2).
  - simpl. tauto.
  - reflexivity.
  - discriminate.
  - split; [reflexivity|]. split; [reflexivity|].
    split; [exact H1|]. split; [vm_compute; reflexivity | exact H2].
Defined.

(** X24. [cleanNumber] reads both ways of writing a number: a text written
    the Italian way, with dots between groups of digits and a comma before
    the decimals, gives the number written, and so does a text written with
    a decimal point and no comma; a dot is a thousands separator only when
    the text also has a comma. *)
Theorem cleanNumber_reads_both_formats (negative : bool) (groups : list (list nat))
    (decimals ip fp : list nat) :
  Forall isDigits groups -> isDigits decimals -> concat groups <> [] ->
  isDigits ip -> isDigits fp -> ip <> [] ->
  sameNumber (cleanNumber (CStr (italian negative groups decimals)))
             (Num (written negative groups decimals))
  /\ sameNumber
       (cleanNumber (CStr ((if negative then "-" else "") +:+ digits ip
                           +:+ String "."%char (digits fp))))
       (Num (written negative [ip] fp)).
Proof.
  intros Hg Hd Hne Hi Hf Hine.
  assert (Hc : isDigits (concat groups)).
  { clear -Hg. induction Hg as [|g gs H1 _ IH]; [constructor|].
    simpl. apply Forall_app. split; assumption. }
  assert (Hsign : plainText (if negative then "-" else "") = true)
    by (destruct negative; reflexivity).
  split.
  - rewrite cleanNumber_plain.
    + rewrite separatorsRead_italian by assumption.
      destruct (parseFloat_written negative (concat groups) decimals Hc Hd Hne)
        as (q & -> & Eq).
      cbn [isNaN sameNumber]. exact Eq.
    + unfold italian. rewrite !plainText_app, Hsign, plainText_grouped by exact Hg.
      cbn [plainText andb]. apply plainText_digits, Hd.
    + unfold italian. destruct negative; [discriminate|].
      rewrite app_nil. destruct (grouped groups); discriminate.
  - rewrite cleanNumber_plain.
    + rewrite separatorsRead_point by assumption.
      destruct (parseFloat_written negative ip fp Hi Hf Hine) as (q & -> & Eq).
      cbn [isNaN sameNumber]. rewrite Eq. unfold written. cbn [concat].
      rewrite app_nil_r. reflexivity.
    + rewrite !plainText_app, Hsign, plainText_digits by exact Hi.
      cbn [plainText andb]. apply plainText_digits, Hf.
    + destruct negative; [discriminate|].
      rewrite app_nil. destruct (digits ip); discriminate.
Qed.

(** [1.250,50] and [1250.50] both give 1250.5. *)
Lemma cleanNumber_reads_both_formats_witness :
  sameNumber (cleanNumber (CStr "1.250,50")) (Num (written false [[1]; [2; 5; 0]]%nat [5; 0]%nat))
  /\ sameNumber (cleanNumber (CStr "1250.50")) (Num (written false [[1; 2; 5; 0]]%nat [5; 0]%nat))
  /\ written false [[1]; [2; 5; 0]]%nat [5; 0]%nat == 1250.5
  /\ written false [[1; 2; 5; 0]]%nat [5; 0]%nat == 1250.5.
Proof.
  destruct (cleanNumber_reads_both_formats false [[1]; [2; 5; 0]]%nat [5; 0]%nat
              [1; 2; 5; 0]%nat [5; 0]%nat) as [H1 H2].
  - repeat constructor.
  - repeat constructor.
  - discriminate.
  - repeat constructor.
  - repeat constructor.
  - discriminate.
  - split; [exact H1|]. split; [exact H2|]. split; reflexivity.
Defined.

End ParseExtras.
